(** * Akhdar BI Command Center: the transform pipeline, embedded in Rocq

    The ETL of this repository is a fixed sequence of SQL statements issued
    from Python ([etl/build_staging.py], [etl/build_dimensions.py],
    [etl/build_facts.py]) and a Python driver ([etl/run_all.py]).  Tables
    are lists of records (bags of rows: a statement without [ORDER BY]
    fixes no row order, and the order of a list is that of the model
    only), SQL columns
    that can hold NULL are [option]s, NUMERIC is a decimal number with its
    display scale, and the arithmetic is PostgreSQL's (sums, differences and
    products are exact, a quotient is rounded at the scale that the
    division selects), INTEGER and BIGINT are [Z], TEXT is [string] read
    as a sequence of bytes.  A statement that can fail at run time (a
    cast, a division, a scalar subquery with several rows) returns a
    [result]. *)

From Stdlib Require Import ZArith QArith Qabs List String Ascii Bool Lia.
From Stdlib Require Import Permutation Sorted OrderedTypeEx.
Import ListNotations.

Open Scope string_scope.
Open Scope list_scope.
Open Scope Z_scope.

(* ================================================================== *)
(** ** SQL scalars, NULL and aggregates *)
(* ================================================================== *)

Module Sql.

(** Outcome of evaluating an expression or a statement: a value, or the
    run-time error that aborts the statement. *)
Inductive result (A : Type) : Type :=
| Ok (a : A)
| Fault (e : string).
Arguments Ok {A} a.
Arguments Fault {A} e.

Definition bind {A B} (m : result A) (k : A -> result B) : result B :=
  match m with
  | Ok a => k a
  | Fault e => Fault e
  end.

Notation "x <- m ;; k" := (bind m (fun x => k))
  (at level 61, m at next level, right associativity).

(** Evaluate a row expression on every row; the statement fails with the
    first row that fails. *)
Fixpoint traverse {A B} (f : A -> result B) (l : list A) : result (list B) :=
  match l with
  | [] => Ok []
  | a :: t => b <- f a ;; bs <- traverse f t ;; Ok (b :: bs)
  end.

(** Strict binary operators: NULL as soon as one operand is NULL. *)
Definition lift2 {A B C} (f : A -> B -> C) (x : option A) (y : option B)
  : option C :=
  match x, y with
  | Some a, Some b => Some (f a b)
  | _, _ => None
  end.

(** *** NUMERIC

    A finite NUMERIC value is a decimal number: the integer [unscaled]
    with [dscale] digits after the point, e.g. [10.50] is 1050 at scale 2.
    The scale is part of the value that PostgreSQL stores and shows, and
    it decides how a quotient is rounded.  The special values (NaN, the
    infinities) and the limits of the format (a quotient has at most 1000
    digits after the point) are outside this model. *)
Record numeric : Type := { unscaled : Z; dscale : nat }.

Definition dec (n : Z) (s : nat) : numeric := {| unscaled := n; dscale := s |}.

(** An integer read as NUMERIC, as in [price * quantity] or [x > 0]. *)
Definition of_int (z : Z) : numeric := dec z 0.

Definition pow10 (n : nat) : Z := 10 ^ Z.of_nat n.

(** The number that a value denotes. *)
Definition to_Q (x : numeric) : Q := unscaled x # Z.to_pos (pow10 (dscale x)).

(** The integer that stands for [x] at a scale [s] not below its own. *)
Definition at_scale (s : nat) (x : numeric) : Z :=
  unscaled x * pow10 (s - dscale x).

(** Sum and difference, at the larger of the two scales. *)
Definition num_add (a b : numeric) : numeric :=
  let s := Nat.max (dscale a) (dscale b) in
  dec (at_scale s a + at_scale s b) s.

Definition num_sub (a b : numeric) : numeric :=
  let s := Nat.max (dscale a) (dscale b) in
  dec (at_scale s a - at_scale s b) s.

(** Product, at the sum of the two scales. *)
Definition num_mul (a b : numeric) : numeric :=
  dec (unscaled a * unscaled b) (dscale a + dscale b).

Definition num_ltb (a b : numeric) : bool :=
  let s := Nat.max (dscale a) (dscale b) in
  at_scale s a <? at_scale s b.

Definition is_zero (a : numeric) : bool := unscaled a =? 0.

(** PostgreSQL holds the digits of a NUMERIC in base 10000, aligned on the
    decimal point.  [leading_digit] gives, for a positive integer, the
    position of its first base-10000 digit and this digit. *)
Fixpoint leading_digit (fuel : nat) (m : Z) : Z * Z :=
  match fuel with
  | O => (0, m)
  | S f =>
      if m <? 10000 then (0, m)
      else let (i, d) := leading_digit f (m / 10000) in (i + 1, d)
  end.

(** Weight (the power of 10000) and value of the first non-zero
    base-10000 digit of a value; 0 and 0 for zero. *)
Definition weight_digit (x : numeric) : Z * Z :=
  if unscaled x =? 0 then (0, 0)
  else
    let k := ((dscale x + 3) / 4)%nat in
    let m := Z.abs (unscaled x) * pow10 (4 * k - dscale x) in
    let (i, d) := leading_digit (S (Z.to_nat (Z.log2 m))) m in
    (i - Z.of_nat k, d).

(** The scale of a quotient ([select_div_scale] of PostgreSQL): enough
    for 16 significant digits, the weight of the quotient being estimated
    from the first digits of the operands, and not less than the scale of
    either operand. *)
Definition select_div_scale (a b : numeric) : nat :=
  let (w1, d1) := weight_digit a in
  let (w2, d2) := weight_digit b in
  let qweight := w1 - w2 - (if d1 <=? d2 then 1 else 0) in
  Z.to_nat (Z.max (16 - 4 * qweight)
                  (Z.of_nat (Nat.max (dscale a) (dscale b)))).

(** The integer nearest to [n / d], a half rounded away from zero. *)
Definition round_div (n d : Z) : Z :=
  Z.sgn n * Z.sgn d * ((2 * Z.abs n + Z.abs d) / (2 * Z.abs d)).

(** [a / b] for a non-zero [b]: the quotient rounded at the selected
    scale. *)
Definition quotient (a b : numeric) : numeric :=
  let r := select_div_scale a b in
  dec (round_div (unscaled a * pow10 (r + dscale b))
                 (unscaled b * pow10 (dscale a))) r.

Definition add : option numeric -> option numeric -> option numeric :=
  lift2 num_add.
Definition sub : option numeric -> option numeric -> option numeric :=
  lift2 num_sub.
Definition mul : option numeric -> option numeric -> option numeric :=
  lift2 num_mul.

(** [x / y]: strict, and a division-by-zero error on a zero divisor. *)
Definition div (x y : option numeric) : result (option numeric) :=
  match x, y with
  | Some a, Some b =>
      if is_zero b then Fault "division by zero" else Ok (Some (quotient a b))
  | _, _ => Ok None
  end.

(** [x > y] in three-valued logic. *)
Definition gt (x y : option numeric) : option bool :=
  lift2 (fun a b => num_ltb b a) x y.

(** A [WHEN] or [WHERE] condition holds only when it is TRUE. *)
Definition is_true (c : option bool) : bool :=
  match c with Some true => true | _ => false end.

Definition coalesce {A} (x : option A) (d : A) : A :=
  match x with Some a => a | None => d end.

Definition is_some {A} (x : option A) : bool :=
  match x with Some _ => true | None => false end.

Definition coalesce_opt {A} (x y : option A) : option A :=
  match x with Some a => Some a | None => y end.

(** [NULLIF(q, 0)] on an integer column. *)
Definition nullif_zero (q : Z) : option Z :=
  if q =? 0 then None else Some q.

(** [SUM]: NULL inputs are skipped; NULL when no input is left. *)
Fixpoint sum_agg (l : list (option numeric)) : option numeric :=
  match l with
  | [] => None
  | None :: t => sum_agg t
  | Some a :: t => Some (num_add (coalesce (sum_agg t) (of_int 0)) a)
  end.

Definition sum_int (l : list Z) : option Z :=
  match l with
  | [] => None
  | _ => Some (fold_right Z.add 0 l)
  end.

(** [BOOL_OR]: NULL inputs are skipped; NULL when no input is left. *)
Fixpoint bool_or (l : list (option bool)) : option bool :=
  match l with
  | [] => None
  | None :: t => bool_or t
  | Some b :: t => Some (b || coalesce (bool_or t) false)
  end.

Definition count_star {A} (l : list A) : Z := Z.of_nat (List.length l).

(** Right side of a [LEFT JOIN] for one left row: every match, or one
    row of NULLs when there is none. *)
Definition matches_or_null {B} (ms : list B) : list (option B) :=
  match ms with
  | [] => [None]
  | _ => map Some ms
  end.

Definition left_join {A B} (on : A -> B -> bool) (l : list A) (r : list B)
  : list (A * option B) :=
  flat_map (fun a => map (pair a) (matches_or_null (filter (on a) r))) l.

(** A column of the nullable side of a join. *)
Definition col {B C} (f : B -> option C) (b : option B) : option C :=
  match b with Some x => f x | None => None end.

Definition inner_join {A B} (on : A -> B -> bool) (l : list A) (r : list B)
  : list (A * B) :=
  flat_map (fun a => map (fun b => (a, b)) (filter (on a) r)) l.

(** [SELECT DISTINCT]: the first occurrence of every row is kept. *)
Fixpoint distinct {A} (eqb : A -> A -> bool) (l : list A) : list A :=
  match l with
  | [] => []
  | a :: t => a :: filter (fun b => negb (eqb a b)) (distinct eqb t)
  end.

(** Equality of nullable keys in a join condition: never TRUE on NULL. *)
Definition eq_key {A} (eqb : A -> A -> bool) (x y : option A) : bool :=
  match x, y with
  | Some a, Some b => eqb a b
  | _, _ => false
  end.

(** A scalar subquery, [(SELECT ... )] used as a value: NULL when it
    returns no row, the row when it returns one, and an error when it
    returns more than one. *)
Definition scalar_subquery {A} (rows : list A) : result (option A) :=
  match rows with
  | [] => Ok None
  | [r] => Ok (Some r)
  | _ => Fault "more than one row returned by a subquery used as an expression"
  end.

(** Serial surrogate keys: the rows of one INSERT take consecutive values
    of the table's sequence, starting from its current value. *)
Definition with_serial {A} (next : Z) (l : list A) : list (Z * A) :=
  combine (map (fun i => next + Z.of_nat i) (seq 0 (List.length l))) l.

(** *** Text functions (bytes; letters outside ASCII are left alone) *)

Definition lower_ascii (c : ascii) : ascii :=
  let n := nat_of_ascii c in
  if ((65 <=? n) && (n <=? 90))%nat then ascii_of_nat (n + 32) else c.

Fixpoint lower (s : string) : string :=
  match s with
  | EmptyString => EmptyString
  | String c t => String (lower_ascii c) (lower t)
  end.

(** [REPLACE(s, from, to)] for one-character patterns. *)
Fixpoint replace_char (from to : ascii) (s : string) : string :=
  match s with
  | EmptyString => EmptyString
  | String c t =>
      String (if Ascii.eqb c from then to else c) (replace_char from to t)
  end.

(** [s LIKE '%p%'], also Python's [p in s]. *)
Fixpoint contains (p s : string) : bool :=
  String.prefix p s ||
  match s with
  | EmptyString => false
  | String _ t => contains p t
  end.

End Sql.

(* ================================================================== *)
(** ** SHA-256 (FIPS 180-4), the digest behind [sha256(...)] in SQL and
       [hashlib.sha256] in Python *)
(* ================================================================== *)

Module Sha256.

Definition mask32 : Z := 0xffffffff.
Definition add32 (a b : Z) : Z := Z.land (a + b) mask32.
Definition not32 (a : Z) : Z := Z.lxor a mask32.
Definition rotr (n x : Z) : Z :=
  Z.land (Z.lor (Z.shiftr x n) (Z.shiftl x (32 - n))) mask32.
Definition shr (n x : Z) : Z := Z.shiftr x n.

Definition Ch (x y z : Z) : Z := Z.lxor (Z.land x y) (Z.land (not32 x) z).
Definition Maj (x y z : Z) : Z :=
  Z.lxor (Z.lxor (Z.land x y) (Z.land x z)) (Z.land y z).
Definition bsig0 (x : Z) : Z :=
  Z.lxor (Z.lxor (rotr 2 x) (rotr 13 x)) (rotr 22 x).
Definition bsig1 (x : Z) : Z :=
  Z.lxor (Z.lxor (rotr 6 x) (rotr 11 x)) (rotr 25 x).
Definition ssig0 (x : Z) : Z :=
  Z.lxor (Z.lxor (rotr 7 x) (rotr 18 x)) (shr 3 x).
Definition ssig1 (x : Z) : Z :=
  Z.lxor (Z.lxor (rotr 17 x) (rotr 19 x)) (shr 10 x).

(** The first 64 primes. *)
Definition is_prime (n : Z) : bool :=
  forallb (fun d => negb (n mod Z.of_nat d =? 0)) (seq 2 (Z.to_nat n - 2)).

Definition primes : list Z :=
  Eval vm_compute in filter is_prime (map Z.of_nat (seq 2 310)).

(** Integer cube root, bit by bit from bit [n - 1] down. *)
Fixpoint cube_root (n : nat) (x r : Z) : Z :=
  match n with
  | O => r
  | S m =>
      let r' := r + 2 ^ Z.of_nat m in
      cube_root m x (if r' * r' * r' <=? x then r' else r)
  end.

(** The round constants: the first 32 bits of the fractional parts of the
    cube roots of the first 64 primes. *)
Definition K : list Z :=
  Eval vm_compute in
  map (fun p => Z.land (cube_root 36 (p * 2 ^ 96) 0) mask32) primes.

(** The initial hash value: the same of the square roots of the first 8
    primes. *)
Definition H0 : list Z :=
  Eval vm_compute in
  map (fun p => Z.land (Z.sqrt (p * 2 ^ 64)) mask32) (firstn 8 primes).

(** Big-endian bytes of a number, [n] of them. *)
Fixpoint be_bytes (n : nat) (x : Z) : list Z :=
  match n with
  | O => []
  | S m => Z.land (Z.shiftr x (8 * Z.of_nat m)) 0xff :: be_bytes m x
  end.

(** Padding: a 1 bit, zeros up to 56 mod 64 bytes, the bit length. *)
Definition pad (msg : list Z) : list Z :=
  let len := Z.of_nat (List.length msg) in
  let zeros := Z.to_nat ((55 - len) mod 64) in
  msg ++ [0x80] ++ repeat 0 zeros ++ be_bytes 8 (8 * len).

Fixpoint words (fuel : nat) (bytes : list Z) : list Z :=
  match fuel, bytes with
  | S n, b0 :: b1 :: b2 :: b3 :: t =>
      (((b0 * 256 + b1) * 256 + b2) * 256 + b3) :: words n t
  | _, _ => []
  end.

Fixpoint blocks (fuel : nat) (ws : list Z) : list (list Z) :=
  match fuel, ws with
  | S n, _ :: _ => firstn 16 ws :: blocks n (skipn 16 ws)
  | _, _ => []
  end.

(** Message schedule; [rw] holds the words computed so far, latest first. *)
Fixpoint schedule (n : nat) (rw : list Z) : list Z :=
  match n with
  | O => rev rw
  | S m =>
      let w := add32 (add32 (ssig1 (nth 1 rw 0)) (nth 6 rw 0))
                     (add32 (ssig0 (nth 14 rw 0)) (nth 15 rw 0)) in
      schedule m (w :: rw)
  end.

Record regs : Type := {
  ra : Z; rb : Z; rc : Z; rd : Z; re : Z; rf : Z; rg : Z; rh : Z
}.

Definition round (s : regs) (kw : Z * Z) : regs :=
  let t1 := add32 (add32 (add32 (rh s) (bsig1 (re s)))
                         (add32 (Ch (re s) (rf s) (rg s)) (fst kw)))
                  (snd kw) in
  let t2 := add32 (bsig0 (ra s)) (Maj (ra s) (rb s) (rc s)) in
  {| ra := add32 t1 t2; rb := ra s; rc := rb s; rd := rc s;
     re := add32 (rd s) t1; rf := re s; rg := rf s; rh := rg s |}.

Definition regs_of (h : list Z) : regs :=
  {| ra := nth 0 h 0; rb := nth 1 h 0; rc := nth 2 h 0; rd := nth 3 h 0;
     re := nth 4 h 0; rf := nth 5 h 0; rg := nth 6 h 0; rh := nth 7 h 0 |}.

Definition list_of (s : regs) : list Z :=
  [ra s; rb s; rc s; rd s; re s; rf s; rg s; rh s].

Definition compress (h : list Z) (block : list Z) : list Z :=
  let w := schedule 48 (rev block) in
  let s := fold_left round (combine K w) (regs_of h) in
  map (fun p => add32 (fst p) (snd p)) (combine h (list_of s)).

Definition digest (msg : list Z) : list Z :=
  let p := pad msg in
  let n := List.length p in
  flat_map (be_bytes 4) (fold_left compress (blocks n (words n p)) H0).

Definition hex_digit (n : Z) : ascii :=
  ascii_of_nat (Z.to_nat (if n <? 10 then 48 + n else 87 + n)).

(** [encode(bytes, 'hex')], Python's [hexdigest]. *)
Fixpoint encode_hex (bytes : list Z) : string :=
  match bytes with
  | [] => EmptyString
  | b :: t => String (hex_digit (b / 16)) (String (hex_digit (b mod 16))
                                                  (encode_hex t))
  end.

Definition bytes_of_string (s : string) : list Z :=
  map (fun c => Z.of_nat (nat_of_ascii c)) (list_ascii_of_string s).

Definition sha256_hex (s : string) : string :=
  encode_hex (digest (bytes_of_string s)).

End Sha256.

(* ================================================================== *)
(** ** Staging: [etl/build_staging.py] *)
(* ================================================================== *)

Module Staging.
Import Sql.

(** What the database does with text.  The casts of text to typed columns
    are PostgreSQL's input functions; a cast of malformed text raises and
    aborts the statement.  [collate] is the default collation of the
    database, which decides [ORDER BY] on a text column: the statements
    name no collation of their own. *)
Record pg_casts : Type := {
  to_bigint : string -> result Z;
  to_integer : string -> result Z;
  to_numeric : string -> result numeric;
  to_timestamp : string -> result Z;
  to_bytea : string -> result (list Z);
  collate : string -> string -> comparison
}.

(** [a <= b] in the collation. *)
Definition text_leb (C : pg_casts) (a b : string) : bool :=
  match collate C a b with
  | Gt => false
  | _ => true
  end.

(** A deterministic collation orders text totally, and only a text itself
    compares equal to it (as with every collation PostgreSQL provides by
    default). *)
Definition deterministic (C : pg_casts) : Prop :=
  (forall a b, collate C a b = Eq <-> a = b) /\
  (forall a b, collate C b a = CompOpp (collate C a b)) /\
  (forall a b c, collate C a b = Lt -> collate C b c = Lt ->
                 collate C a c = Lt).

(** [NULLIF(col, '')::T]. *)
Definition cast_nullif_empty {T} (cast : string -> result T)
  (col : option string) : result (option T) :=
  match col with
  | None => Ok None
  | Some s => if String.eqb s "" then Ok None else v <- cast s ;; Ok (Some v)
  end.

(** [col IS NOT NULL AND col != '']. *)
Definition present (col : option string) : bool :=
  match col with
  | None => false
  | Some s => negb (String.eqb s "")
  end.

(** A row of [raw.orders] as the ingestion leaves it: every column is text
    (the Shopify export has one row per line item).  All the columns that
    the order-line statement reads are here; of the order-level columns,
    those that the staging statement copies unchanged and nothing
    downstream computes with (statuses, addresses, payment method, risk
    level, currency, discount code) are left out. *)
Record raw_order : Type := {
  ro_id : option string;
  ro_name : option string;
  ro_email : option string;
  ro_subtotal : option string;
  ro_shipping : option string;
  ro_taxes : option string;
  ro_total : option string;
  ro_discount_amount : option string;
  ro_refunded_amount : option string;
  ro_shipping_method : option string;
  ro_source : option string;
  ro_created_at : option string;
  ro_lineitem_name : option string;
  ro_lineitem_sku : option string;
  ro_lineitem_quantity : option string;
  ro_lineitem_price : option string;
  ro_lineitem_compare_at_price : option string;
  ro_lineitem_discount : option string;
  ro_lineitem_fulfillment_status : option string;
  ro_vendor : option string
}.

(** [staging.stg_orders].  The order id is never NULL: the staging
    statement keeps the rows with a non-empty [id] only. *)
Record stg_order : Type := {
  so_order_id : Z;
  so_order_number : option string;
  so_email : option string;
  so_subtotal : option numeric;
  so_shipping : option numeric;
  so_taxes : option numeric;
  so_total : option numeric;
  so_discount_amount : numeric;
  so_refunded_amount : numeric;
  so_shipping_method : option string;
  so_source : option string;
  so_created_at : option Z
}.

(** [staging.stg_order_lines]. *)
Record stg_order_line : Type := {
  sl_order_id : Z;
  sl_order_number : option string;
  sl_line_number : Z;
  sl_lineitem_name : string;
  sl_lineitem_sku : option string;
  sl_lineitem_quantity : Z;
  sl_lineitem_price : option numeric;
  sl_lineitem_compare_at_price : option numeric;
  sl_lineitem_discount : numeric;
  sl_lineitem_fulfillment_status : option string;
  sl_vendor : option string;
  sl_created_at : option Z
}.

(** [staging.stg_product_sku_map]. *)
Record stg_sku_map : Type := {
  sk_internal_sku : string;
  sk_lineitem_name : option string;
  sk_product_handle : option string;
  sk_size_ml : option Z;
  sk_recipe_id : option string;
  sk_product_category : option string;
  sk_is_active : bool
}.

(** [staging.stg_products]. *)
Record stg_product : Type := {
  sp_handle : string;
  sp_vendor : option string;
  sp_variant_price : option numeric
}.

(** [staging.stg_customers]. *)
Record stg_customer : Type := {
  sc_customer_id : option Z;
  sc_email : option string;
  sc_city : option string;
  sc_accepts_email_marketing : bool;
  sc_accepts_sms_marketing : bool
}.

(** [staging.stg_material_costs]. *)
Record stg_material_cost : Type := {
  sm_material_id : string;
  sm_material_name : option string;
  sm_cost_per_unit : option numeric;
  sm_cost_per_ml : option numeric;
  sm_has_known_cost : bool
}.

(** [staging.stg_recipes]. *)
Record stg_recipe : Type := {
  sr_recipe_id : string;
  sr_variant : option string;
  sr_batch_size_ml : option Z;
  sr_ingredient_match : option string;
  sr_amount_ml : option numeric;
  sr_material_id : option string
}.

(** *** Order lines: [ROW_NUMBER() OVER (PARTITION BY id ORDER BY lineitem_name)] *)

(** [WHERE id IS NOT NULL AND id != '' AND lineitem_name IS NOT NULL AND
    lineitem_name != '']. *)
Definition is_line_item (r : raw_order) : bool :=
  present (ro_id r) && present (ro_lineitem_name r).

Definition partition_id (r : raw_order) : string := coalesce (ro_id r) "".
Definition item_name (r : raw_order) : string :=
  coalesce (ro_lineitem_name r) "".

(** The sort of a window partition, in the collation of the database;
    rows with equal names are peers, and peers leave the sort in the
    order in which the scan delivered them. *)
Fixpoint insert_by_name (C : pg_casts) (r : raw_order) (l : list raw_order)
  : list raw_order :=
  match l with
  | [] => [r]
  | x :: t =>
      if text_leb C (item_name r) (item_name x) then r :: x :: t
      else x :: insert_by_name C r t
  end.

Fixpoint sort_by_name (C : pg_casts) (l : list raw_order) : list raw_order :=
  match l with
  | [] => []
  | r :: t => insert_by_name C r (sort_by_name C t)
  end.

(** Numbering 1, 2, ... of the rows of a sorted partition. *)
Definition number_rows (l : list raw_order) : list (Z * raw_order) :=
  combine (map (fun i => Z.of_nat (S i)) (seq 0 (List.length l))) l.

Definition window_partition (k : string) (rows : list raw_order)
  : list raw_order :=
  filter (fun r => String.eqb (partition_id r) k) rows.

Definition row_number_over (C : pg_casts) (rows : list raw_order)
  : list (Z * raw_order) :=
  flat_map (fun k => number_rows (sort_by_name C (window_partition k rows)))
           (distinct String.eqb (map partition_id rows)).

(** The select list of the order-line statement, on one numbered row.
    The rows come through the [WHERE] clause, so that [id] is neither NULL
    nor empty and [NULLIF(id, '')::BIGINT] is the cast of [id]. *)
Definition stage_order_line (C : pg_casts) (nr : Z * raw_order)
  : result stg_order_line :=
  let (n, r) := nr in
  oid <- to_bigint C (partition_id r) ;;
  qty <- cast_nullif_empty (to_integer C) (ro_lineitem_quantity r) ;;
  price <- cast_nullif_empty (to_numeric C) (ro_lineitem_price r) ;;
  compare <- cast_nullif_empty (to_numeric C)
               (ro_lineitem_compare_at_price r) ;;
  disc <- cast_nullif_empty (to_numeric C) (ro_lineitem_discount r) ;;
  created <- cast_nullif_empty (to_timestamp C) (ro_created_at r) ;;
  Ok {| sl_order_id := oid;
        sl_order_number := ro_name r;
        sl_line_number := n;
        sl_lineitem_name := item_name r;
        sl_lineitem_sku :=
          match ro_lineitem_sku r with
          | Some s => if String.eqb s "" then None else Some s
          | None => None
          end;
        sl_lineitem_quantity := coalesce qty 1;
        sl_lineitem_price := price;
        sl_lineitem_compare_at_price := compare;
        sl_lineitem_discount := coalesce disc (of_int 0);
        sl_lineitem_fulfillment_status := ro_lineitem_fulfillment_status r;
        sl_vendor := ro_vendor r;
        sl_created_at := created |}.

(** [TRUNCATE staging.stg_order_lines; INSERT ... SELECT ...]: the new
    contents do not depend on the old ones. *)
Definition build_stg_order_lines (C : pg_casts) (raw : list raw_order)
  : result (list stg_order_line) :=
  traverse (stage_order_line C)
           (row_number_over C (filter is_line_item raw)).

(** The order of the sort, on rows. *)
Definition name_le (C : pg_casts) (a b : raw_order) : Prop :=
  text_leb C (item_name a) (item_name b) = true.

(** The rows of the order number [z]: those whose [id] is cast to [z]. *)
Definition rows_of_order (C : pg_casts) (z : Z) (rows : list raw_order)
  : list raw_order :=
  filter (fun r => match to_bigint C (partition_id r) with
                   | Ok z' => z' =? z
                   | Fault _ => false
                   end) rows.

(** Rows of one order that carry the same item name are copies of one
    another. *)
Definition ties_are_copies (rows : list raw_order) : Prop :=
  forall x y, In x rows -> In y rows ->
    partition_id x = partition_id y -> item_name x = item_name y -> x = y.

(** *** Staged orders: [SELECT DISTINCT ON (id) ... ORDER BY id, created_at] *)

(** [WHERE id IS NOT NULL AND id != '']. *)
Definition has_id (r : raw_order) : bool := present (ro_id r).

(** The select list of the order statement, on one raw row. *)
Definition stage_order (C : pg_casts) (r : raw_order) : result stg_order :=
  oid <- to_bigint C (partition_id r) ;;
  subtotal <- cast_nullif_empty (to_numeric C) (ro_subtotal r) ;;
  shipping <- cast_nullif_empty (to_numeric C) (ro_shipping r) ;;
  taxes <- cast_nullif_empty (to_numeric C) (ro_taxes r) ;;
  total <- cast_nullif_empty (to_numeric C) (ro_total r) ;;
  discount <- cast_nullif_empty (to_numeric C) (ro_discount_amount r) ;;
  refunded <- cast_nullif_empty (to_numeric C) (ro_refunded_amount r) ;;
  created <- cast_nullif_empty (to_timestamp C) (ro_created_at r) ;;
  Ok {| so_order_id := oid;
        so_order_number := ro_name r;
        so_email := ro_email r;
        so_subtotal := subtotal;
        so_shipping := shipping;
        so_taxes := taxes;
        so_total := total;
        so_discount_amount := coalesce discount (of_int 0);
        so_refunded_amount := coalesce refunded (of_int 0);
        so_shipping_method := ro_shipping_method r;
        so_source := ro_source r;
        so_created_at := created |}.

(** Ascending order of a nullable timestamp: NULL comes last. *)
Definition created_leb (a b : option Z) : bool :=
  match a, b with
  | Some x, Some y => x <=? y
  | Some _, None => true
  | None, Some _ => false
  | None, None => true
  end.

(** [ORDER BY id, created_at], on a selected row and its raw [id]: the
    first sort key is the text [id], in the collation of the database; the
    second is the output column, the timestamp. *)
Definition order_leb (C : pg_casts) (a b : string * stg_order) : bool :=
  match collate C (fst a) (fst b) with
  | Lt => true
  | Gt => false
  | Eq => created_leb (so_created_at (snd a)) (so_created_at (snd b))
  end.

Fixpoint insert_order (C : pg_casts) (x : string * stg_order)
  (l : list (string * stg_order)) : list (string * stg_order) :=
  match l with
  | [] => [x]
  | y :: t =>
      if order_leb C x y then x :: y :: t else y :: insert_order C x t
  end.

Fixpoint sort_orders (C : pg_casts) (l : list (string * stg_order))
  : list (string * stg_order) :=
  match l with
  | [] => []
  | x :: t => insert_order C x (sort_orders C t)
  end.

Definition same_id (a b : string * stg_order) : bool :=
  String.eqb (fst a) (fst b).

(** The rows that the statement keeps, each with its raw [id]: the select
    list is evaluated on every row that has an id, the rows are sorted,
    and the first row of every id is kept. *)
Definition dedupe_orders (C : pg_casts) (raw : list raw_order)
  : result (list (string * stg_order)) :=
  rows <- traverse (fun r => o <- stage_order C r ;; Ok (partition_id r, o))
                   (filter has_id raw) ;;
  Ok (distinct same_id (sort_orders C rows)).

(** [TRUNCATE staging.stg_orders; INSERT ... SELECT DISTINCT ON (id) ...]. *)
Definition build_stg_orders (C : pg_casts) (raw : list raw_order)
  : result (list stg_order) :=
  rows <- dedupe_orders C raw ;; Ok (map snd rows).

(** The order of the sort, as a relation. *)
Definition order_le (C : pg_casts) (a b : string * stg_order) : Prop :=
  order_leb C a b = true.

(** No two ids of the rows denote the same number. *)
Definition ids_denote_apart (C : pg_casts) (rows : list raw_order) : Prop :=
  forall r r' z, In r rows -> In r' rows ->
    to_bigint C (partition_id r) = Ok z ->
    to_bigint C (partition_id r') = Ok z ->
    partition_id r = partition_id r'.

(** *** A concrete instance: a fragment of PostgreSQL's input syntax

    The casts of the worked examples read decimal integers, decimal
    numbers with an optional exponent, timestamps in ISO 8601 form with an
    explicit time zone, and bytea in its two input formats, skipping
    surrounding whitespace where the input functions skip it.  PostgreSQL
    reads such text in the same way under every session setting.  It
    accepts more than this fragment (other date styles, ['NaN'], ...),
    and text outside the fragment is refused here. *)

Definition digit_of (c : ascii) : option Z :=
  let n := nat_of_ascii c in
  if ((48 <=? n) && (n <=? 57))%nat then Some (Z.of_nat (n - 48)) else None.

(** C's [isspace]. *)
Definition is_space (c : ascii) : bool :=
  let n := nat_of_ascii c in
  (((9 <=? n) && (n <=? 13)) || (n =? 32))%nat.

Fixpoint skip_spaces (s : string) : string :=
  match s with
  | EmptyString => EmptyString
  | String c t => if is_space c then skip_spaces t else s
  end.

Definition all_spaces (s : string) : bool :=
  match skip_spaces s with
  | EmptyString => true
  | String _ _ => false
  end.

(** The run of decimal digits at the head of a text: its value, its
    length, and the rest of the text. *)
Fixpoint digits (s : string) (acc : Z) (len : nat) : Z * nat * string :=
  match s with
  | EmptyString => (acc, len, s)
  | String c t =>
      match digit_of c with
      | Some d => digits t (10 * acc + d) (S len)
      | None => (acc, len, s)
      end
  end.

Definition split_sign (s : string) : bool * string :=
  match s with
  | String "-" t => (true, t)
  | String "+" t => (false, t)
  | _ => (false, s)
  end.

Definition signed (neg : bool) (v : Z) : Z := if neg then - v else v.

Definition decimal_int (lo hi : Z) (s : string) : result Z :=
  let (neg, body) := split_sign (skip_spaces s) in
  match digits body 0 0 with
  | (v, S _, rest) =>
      if all_spaces rest then
        if (lo <=? signed neg v) && (signed neg v <=? hi)
        then Ok (signed neg v)
        else Fault "value out of range"
      else Fault "invalid input syntax for type integer"
  | _ => Fault "invalid input syntax for type integer"
  end.

(** The exponent of a number, if any, and the rest of the text. *)
Definition exponent (s : string) : option (Z * string) :=
  match s with
  | String c t =>
      if Ascii.eqb c "e" || Ascii.eqb c "E" then
        let (neg, body) := split_sign t in
        match digits body 0 0 with
        | (e, S _, rest) => Some (signed neg e, rest)
        | _ => None
        end
      else Some (0, s)
  | EmptyString => Some (0, s)
  end.

(** [numeric_in]: the display scale is the number of digits written
    after the point, less the exponent, and not below 0. *)
Definition decimal_numeric (s : string) : result numeric :=
  let (neg, body) := split_sign (skip_spaces s) in
  let '(i, li, r1) := digits body 0 0 in
  let '(f, lf, r2) := match r1 with
                      | String "." t => digits t 0 0
                      | _ => (0, O, r1)
                      end in
  match (li + lf)%nat, exponent r2 with
  | S _, Some (e, r3) =>
      if all_spaces r3 then
        let m := signed neg (i * 10 ^ Z.of_nat lf + f) in
        if e <=? Z.of_nat lf
        then Ok (dec m (Z.to_nat (Z.of_nat lf - e)))
        else Ok (dec (m * 10 ^ (e - Z.of_nat lf)) 0)
      else Fault "invalid input syntax for type numeric"
  | _, _ => Fault "invalid input syntax for type numeric"
  end.

(** Exactly [n] decimal digits at the head of a text. *)
Fixpoint take_digits (n : nat) (s : string) (acc : Z) : option (Z * string) :=
  match n with
  | O => Some (acc, s)
  | S m =>
      match s with
      | EmptyString => None
      | String c t =>
          match digit_of c with
          | Some d => take_digits m t (10 * acc + d)
          | None => None
          end
      end
  end.

Definition expect (c : ascii) (s : string) : option string :=
  match s with
  | String x t => if Ascii.eqb x c then Some t else None
  | EmptyString => None
  end.

Definition leap_year (y : Z) : bool :=
  (y mod 4 =? 0) && (negb (y mod 100 =? 0) || (y mod 400 =? 0)).

Definition days_in_month (y m : Z) : Z :=
  if m =? 2 then (if leap_year y then 29 else 28)
  else if (m =? 4) || (m =? 6) || (m =? 9) || (m =? 11) then 30
  else 31.

(** Days from 1970-01-01 to a date of the Gregorian calendar. *)
Definition days_from_civil (y m d : Z) : Z :=
  let y' := if m <=? 2 then y - 1 else y in
  let era := y' / 400 in
  let yoe := y' - era * 400 in
  let mp := if 2 <? m then m - 3 else m + 9 in
  let doy := (153 * mp + 2) / 5 + d - 1 in
  let doe := yoe * 365 + yoe / 4 - yoe / 100 + doy in
  era * 146097 + doe - 719468.

(** A time zone: [Z], or a sign, two digits of hours and, with or
    without a colon, two digits of minutes.  Seconds east of UTC. *)
Definition zone_offset (s : string) : option Z :=
  match s with
  | String "Z" EmptyString => Some 0
  | String c t =>
      if Ascii.eqb c "+" || Ascii.eqb c "-" then
        match take_digits 2 t 0 with
        | Some (hh, r) =>
            let r' := match r with String ":" u => u | _ => r end in
            match r' with
            | EmptyString =>
                match r with
                | EmptyString =>
                    if hh <=? 15 then Some (signed (Ascii.eqb c "-") (hh * 3600))
                    else None
                | _ => None
                end
            | _ =>
                match take_digits 2 r' 0 with
                | Some (mm, EmptyString) =>
                    if (hh <=? 15) && (mm <=? 59)
                    then Some (signed (Ascii.eqb c "-") (hh * 3600 + mm * 60))
                    else None
                | _ => None
                end
            end
        | None => None
        end
      else None
  | EmptyString => None
  end.

Definition and_then {A B} (x : option A) (k : A -> option B) : option B :=
  match x with
  | Some a => k a
  | None => None
  end.

(** [YYYY-MM-DD hh:mm:ss] and a time zone: the seconds since
    1970-01-01 00:00:00 UTC. *)
Definition iso_seconds (s : string) : option Z :=
  and_then (take_digits 4 s 0) (fun '(y, r) =>
  and_then (expect "-" r) (fun r =>
  and_then (take_digits 2 r 0) (fun '(mo, r) =>
  and_then (expect "-" r) (fun r =>
  and_then (take_digits 2 r 0) (fun '(d, r) =>
  and_then (match expect " " r with
            | Some r' => Some r'
            | None => expect "T" r
            end) (fun r =>
  and_then (take_digits 2 r 0) (fun '(h, r) =>
  and_then (expect ":" r) (fun r =>
  and_then (take_digits 2 r 0) (fun '(mi, r) =>
  and_then (expect ":" r) (fun r =>
  and_then (take_digits 2 r 0) (fun '(sec, r) =>
  and_then (zone_offset (match r with String " " t => t | _ => r end))
           (fun off =>
  if (1 <=? y) && (1 <=? mo) && (mo <=? 12) && (1 <=? d)
     && (d <=? days_in_month y mo) && (h <=? 23) && (mi <=? 59)
     && (sec <=? 59)
  then Some (days_from_civil y mo d * 86400 + h * 3600 + mi * 60 + sec - off)
  else None)))))))))))).

Definition iso_timestamp (s : string) : result Z :=
  match iso_seconds s with
  | Some t => Ok t
  | None => Fault "invalid input syntax for type timestamp with time zone"
  end.

Definition hex_value (c : ascii) : option Z :=
  let n := nat_of_ascii c in
  if ((48 <=? n) && (n <=? 57))%nat then Some (Z.of_nat (n - 48))
  else if ((97 <=? n) && (n <=? 102))%nat then Some (Z.of_nat (n - 87))
  else if ((65 <=? n) && (n <=? 70))%nat then Some (Z.of_nat (n - 55))
  else None.

(** The hex format of bytea, after its [\x]: pairs of hex digits, with
    whitespace allowed between the pairs. *)
Fixpoint hex_bytes (s : string) : option (list Z) :=
  match s with
  | EmptyString => Some []
  | String c t =>
      match hex_value c, t with
      | Some h, String c' t' =>
          match hex_value c' with
          | Some l => option_map (cons (16 * h + l)) (hex_bytes t')
          | None => None
          end
      | Some _, EmptyString => None
      | None, _ =>
          if Ascii.eqb c " " || Ascii.eqb c "009" || Ascii.eqb c "010"
             || Ascii.eqb c "013"
          then hex_bytes t else None
      end
  end.

Definition octal_value (hi : nat) (c : ascii) : option Z :=
  let n := nat_of_ascii c in
  if ((48 <=? n) && (n <=? 48 + hi))%nat then Some (Z.of_nat (n - 48))
  else None.

(** The escape format of bytea: a byte stands for itself, but for the
    backslash, which is written twice or introduces three octal digits. *)
Fixpoint escaped_bytes (s : string) : option (list Z) :=
  match s with
  | EmptyString => Some []
  | String c t =>
      if Ascii.eqb c "\" then
        match t with
        | String a u =>
            if Ascii.eqb a "\" then option_map (cons 92) (escaped_bytes u)
            else
              match u with
              | String b (String d v) =>
                  match octal_value 3 a, octal_value 7 b, octal_value 7 d with
                  | Some x, Some y, Some z =>
                      option_map (cons (64 * x + 8 * y + z)) (escaped_bytes v)
                  | _, _, _ => None
                  end
              | _ => None
              end
        | EmptyString => None
        end
      else option_map (cons (Z.of_nat (nat_of_ascii c))) (escaped_bytes t)
  end.

(** [text::bytea] goes through the input function of bytea. *)
Definition bytea_in (s : string) : result (list Z) :=
  match (match s with
         | String c (String x t) =>
             if Ascii.eqb c "\" && Ascii.eqb x "x" then hex_bytes t
             else escaped_bytes s
         | _ => escaped_bytes s
         end) with
  | Some bytes => Ok bytes
  | None => Fault "invalid input syntax for type bytea"
  end.

(** The collation is the byte order of text (the "C" collation). *)
Definition decimal_casts : pg_casts :=
  {| to_bigint := decimal_int (- 2 ^ 63) (2 ^ 63 - 1);
     to_integer := decimal_int (- 2 ^ 31) (2 ^ 31 - 1);
     to_numeric := decimal_numeric;
     to_timestamp := iso_timestamp;
     to_bytea := bytea_in;
     collate := String.compare |}.

End Staging.

(* ================================================================== *)
(** ** Python string methods, on ASCII text *)
(* ================================================================== *)

Module Py.

(** [str.strip()]: the characters for which [str.isspace] holds. *)
Definition py_isspace (c : ascii) : bool :=
  let n := nat_of_ascii c in
  (((9 <=? n) && (n <=? 13)) || ((28 <=? n) && (n <=? 32)))%nat.

Fixpoint lstrip (s : string) : string :=
  match s with
  | EmptyString => EmptyString
  | String c t => if py_isspace c then lstrip t else s
  end.

Fixpoint rstrip (s : string) : string :=
  match s with
  | EmptyString => EmptyString
  | String c t =>
      match rstrip t with
      | EmptyString => if py_isspace c then EmptyString else String c EmptyString
      | t' => String c t'
      end
  end.

Definition strip (s : string) : string := lstrip (rstrip s).

(** [s.split(c)] for a one-character separator. *)
Fixpoint split (c : ascii) (s : string) : list string :=
  match s with
  | EmptyString => [EmptyString]
  | String x t =>
      if Ascii.eqb x c then EmptyString :: split c t
      else match split c t with
           | [] => [String x EmptyString]
           | h :: r => String x h :: r
           end
  end.

Definition lower : string -> string := Sql.lower.
Definition startswith (p s : string) : bool := String.prefix p s.

(** [p in s]. *)
Definition contains (p s : string) : bool := Sql.contains p s.

(** The characters of a string. *)
Definition chars (s : string) : list ascii := list_ascii_of_string s.

End Py.

(* ================================================================== *)
(** ** Dimensions: [etl/build_dimensions.py] *)
(* ================================================================== *)

Module Dimensions.
Import Sql Staging.

(** [hash_email] of [etl/build_staging.py]:
    [hashlib.sha256(email.lower().strip().encode()).hexdigest()], and the
    digest of ['unknown'] for an empty email. *)
Definition hash_email (email : string) : string :=
  if String.eqb email "" then Sha256.sha256_hex "unknown"
  else Sha256.sha256_hex (Py.strip (Py.lower email)).

(** [encode(sha256(LOWER(email)::bytea), 'hex')], the expression of
    [build_dimensions] and of [build_facts]. *)
Definition customer_id_hash (C : pg_casts) (email : string) : result string :=
  b <- to_bytea C (lower email) ;;
  Ok (Sha256.encode_hex (Sha256.digest b)).

(** [warehouse.dim_product]. *)
Record dim_product : Type := {
  dp_product_key : Z;
  dp_internal_sku : string;
  dp_product_handle : option string;
  dp_product_title : option string;
  dp_size_ml : option Z;
  dp_recipe_id : option string;
  dp_product_category : option string;
  dp_vendor : string;
  dp_variant_price : numeric;
  dp_is_active : bool
}.

Definition default_vendor : string := "Akhdar Perfumes".
(** The literal [10.50]. *)
Definition default_price : numeric := dec 1050 2.

Definition build_dim_product (next : Z) (skm : list stg_sku_map)
  (products : list stg_product) : list dim_product :=
  map (fun kr =>
         let '(k, (m, p)) := kr in
         {| dp_product_key := k;
            dp_internal_sku := sk_internal_sku m;
            dp_product_handle := sk_product_handle m;
            dp_product_title := sk_lineitem_name m;
            dp_size_ml := sk_size_ml m;
            dp_recipe_id := sk_recipe_id m;
            dp_product_category := sk_product_category m;
            dp_vendor := coalesce (col sp_vendor p) default_vendor;
            dp_variant_price := coalesce (col sp_variant_price p) default_price;
            dp_is_active := sk_is_active m |})
      (with_serial next
         (left_join (fun m p => eq_key String.eqb (sk_product_handle m)
                                       (Some (sp_handle p)))
                    skm products)).

(** [warehouse.dim_customer]. *)
Record dim_customer : Type := {
  dc_customer_key : Z;
  dc_customer_id_hash : string;
  dc_customer_id : option Z;
  dc_city : option string;
  dc_accepts_email_marketing : bool;
  dc_accepts_sms_marketing : bool;
  dc_first_order_date : option Z;
  dc_total_orders : Z;
  dc_total_spent : numeric;
  dc_customer_segment : string
}.

Definition option_string_eqb (x y : option string) : bool :=
  match x, y with
  | Some a, Some b => String.eqb a b
  | None, None => true
  | _, _ => false
  end.

(** [MIN] over a group: NULL inputs are skipped. *)
Fixpoint min_agg (l : list (option Z)) : option Z :=
  match l with
  | [] => None
  | None :: t => min_agg t
  | Some a :: t =>
      match min_agg t with
      | Some b => Some (Z.min a b)
      | None => Some a
      end
  end.

(** [COUNT(DISTINCT order_id)]. *)
Definition count_distinct (l : list Z) : Z :=
  Z.of_nat (List.length (distinct Z.eqb l)).

(** CTE [order_customers]: one row per email that occurs, non-empty, on a
    staged order, with the earliest creation time. *)
Definition order_customers (orders : list stg_order)
  : list (string * option Z) :=
  let with_email := filter (fun o => present (so_email o)) orders in
  map (fun e =>
         (e, min_agg (map so_created_at
                          (filter (fun o => option_string_eqb (so_email o)
                                                              (Some e))
                                  with_email))))
      (distinct String.eqb (map (fun o => coalesce (so_email o) "")
                                with_email)).

(** CTE [customer_stats]: grouped by email over all staged orders (the
    orders without an email form the group of NULL). *)
Record customer_stat : Type := {
  cs_email : option string;
  cs_total_orders : Z;
  cs_total_spent : option numeric
}.

Definition customer_stats (orders : list stg_order) : list customer_stat :=
  map (fun e =>
         let g := filter (fun o => option_string_eqb (so_email o) e) orders in
         {| cs_email := e;
            cs_total_orders := count_distinct (map so_order_id g);
            cs_total_spent :=
              sum_agg (map (fun o => sub (so_subtotal o)
                                         (Some (so_refunded_amount o))) g) |})
      (distinct option_string_eqb (map so_email orders)).

(** The [CASE] of [customer_segment]. *)
Definition customer_segment (total_orders : Z) : string :=
  if total_orders =? 0 then "prospect"
  else if total_orders =? 1 then "new"
  else if 2 <=? total_orders then "returning"
  else "unknown".

(** The rows selected for [dim_customer], before their key is drawn. *)
Definition customer_rows (C : pg_casts) (orders : list stg_order)
  (customers : list stg_customer)
  : result (list (string * (string * option Z) * option stg_customer
                  * option customer_stat)) :=
  traverse (fun j =>
              let '(oc, c, cs) := j in
              h <- customer_id_hash C (fst oc) ;;
              Ok (h, oc, c, cs))
    (flat_map
       (fun oc =>
          flat_map
            (fun c =>
               map (fun cs => (oc, c, cs))
                   (matches_or_null
                      (filter (fun cs => eq_key String.eqb
                                           (Some (lower (fst oc)))
                                           (option_map lower (cs_email cs)))
                              (customer_stats orders))))
            (matches_or_null
               (filter (fun c => eq_key String.eqb
                                   (Some (lower (fst oc)))
                                   (option_map lower (sc_email c)))
                       customers)))
       (order_customers orders)).

Definition build_dim_customer (C : pg_casts) (next : Z)
  (orders : list stg_order) (customers : list stg_customer)
  : result (list dim_customer) :=
  rows <- customer_rows C orders customers ;;
  Ok (map (fun kr =>
             let '(k, (h, oc, c, cs)) := kr in
             let n := coalesce (option_map cs_total_orders cs) 0 in
             {| dc_customer_key := k;
                dc_customer_id_hash := h;
                dc_customer_id := col sc_customer_id c;
                dc_city := col sc_city c;
                dc_accepts_email_marketing :=
                  coalesce (option_map sc_accepts_email_marketing c) false;
                dc_accepts_sms_marketing :=
                  coalesce (option_map sc_accepts_sms_marketing c) false;
                dc_first_order_date := snd oc;
                dc_total_orders := n;
                dc_total_spent := coalesce (col cs_total_spent cs) (of_int 0);
                dc_customer_segment := customer_segment n |})
          (with_serial next rows)).

(** [warehouse.dim_shipping_method]. *)
Record shipping_method : Type := {
  sh_code : string;
  sh_name : string;
  sh_is_local_delivery : bool
}.

Record dim_shipping_method : Type := {
  ds_shipping_method_key : Z;
  ds_method : shipping_method
}.

Definition shipping_method_eqb (a b : shipping_method) : bool :=
  String.eqb (sh_code a) (sh_code b) && String.eqb (sh_name a) (sh_name b)
  && Bool.eqb (sh_is_local_delivery a) (sh_is_local_delivery b).

(** [LOWER(REPLACE(shipping_method, ' ', '_'))]. *)
Definition shipping_method_code (m : string) : string :=
  lower (replace_char " " "_" m).

Definition method_of (m : string) : shipping_method :=
  {| sh_code := shipping_method_code m;
     sh_name := m;
     sh_is_local_delivery := contains "local" (lower m) |}.

Definition fallback_method : shipping_method :=
  {| sh_code := "unknown"; sh_name := "Unknown";
     sh_is_local_delivery := false |}.

(** The two branches of the [UNION] and the [UNION] itself, which removes
    duplicate rows. *)
Definition seen_methods (orders : list stg_order) : list shipping_method :=
  distinct shipping_method_eqb
    (map (fun o => method_of (coalesce (so_shipping_method o) ""))
         (filter (fun o => present (so_shipping_method o)) orders)).

Definition fallback_branch (orders : list stg_order) : list shipping_method :=
  if existsb (fun o => present (so_shipping_method o)) orders then []
  else [fallback_method].

Definition shipping_methods (orders : list stg_order) : list shipping_method :=
  distinct shipping_method_eqb (seen_methods orders ++ fallback_branch orders).

(** [TRUNCATE warehouse.dim_shipping_method; INSERT ... SELECT ...]. *)
Definition build_dim_shipping_method (old : list dim_shipping_method)
  (next : Z) (orders : list stg_order) : list dim_shipping_method :=
  map (fun km => {| ds_shipping_method_key := fst km; ds_method := snd km |})
      (with_serial next (shipping_methods orders)).

(** [warehouse.dim_material]: a keyed copy of the staged material costs. *)
Record dim_material : Type := {
  dm_material_key : Z;
  dm_material_id : string;
  dm_cost_per_unit : option numeric;
  dm_cost_per_ml : option numeric;
  dm_has_known_cost : bool
}.

Definition build_dim_material (next : Z) (costs : list stg_material_cost)
  : list dim_material :=
  map (fun km =>
         {| dm_material_key := fst km;
            dm_material_id := sm_material_id (snd km);
            dm_cost_per_unit := sm_cost_per_unit (snd km);
            dm_cost_per_ml := sm_cost_per_ml (snd km);
            dm_has_known_cost := sm_has_known_cost (snd km) |})
      (with_serial next costs).

(** [warehouse.dim_channel] is seeded by the schema scripts. *)
Record dim_channel : Type := {
  ch_channel_key : Z;
  ch_channel_code : string
}.

End Dimensions.

(* ================================================================== *)
(** ** Facts: [etl/build_facts.py] *)
(* ================================================================== *)

Module Facts.
Import Sql Staging Dimensions.

(** [warehouse.fact_order] (the date key and the copied status columns
    are left out). *)
Record fact_order : Type := {
  fo_order_key : Z;
  fo_order_id : Z;
  fo_customer_key : option Z;
  fo_channel_key : option Z;
  fo_shipping_method_key : option Z;
  fo_gross_product_sales : option numeric;
  fo_order_discount_amount : numeric;
  fo_subtotal : option numeric;
  fo_shipping_amount : option numeric;
  fo_tax_amount : option numeric;
  fo_total_amount : option numeric;
  fo_refunded_amount : numeric;
  fo_net_sales : option numeric;
  fo_line_item_count : Z;
  fo_unit_count : Z
}.

(** CTE [order_line_summary]: the line aggregates of every order that has
    staged lines. *)
Record order_line_summary : Type := {
  ols_order_id : Z;
  ols_unit_count : option Z;
  ols_line_item_count : Z;
  ols_calculated_gross : option numeric
}.

(** [lineitem_price * lineitem_quantity]. *)
Definition line_gross (l : stg_order_line) : option numeric :=
  mul (sl_lineitem_price l) (Some (of_int (sl_lineitem_quantity l))).

Definition summarize_lines (lines : list stg_order_line)
  : list order_line_summary :=
  map (fun oid =>
         let g := filter (fun l => sl_order_id l =? oid) lines in
         {| ols_order_id := oid;
            ols_unit_count := sum_int (map sl_lineitem_quantity g);
            ols_line_item_count := count_star g;
            ols_calculated_gross := sum_agg (map line_gross g) |})
      (distinct Z.eqb (map sl_order_id lines)).

(** [(SELECT shipping_method_key FROM dim_shipping_method LIMIT 1)]: the
    key of one row, NULL when the table is empty.  Which row [LIMIT 1]
    takes is not fixed by the statement; the first is taken here, and no
    property below depends on the choice. *)
Definition limit_one_key {A} (key : A -> Z) (rows : list A) : option Z :=
  match rows with
  | [] => None
  | r :: _ => Some (key r)
  end.

(** [(SELECT channel_key FROM dim_channel WHERE channel_code = 'web')]:
    a scalar subquery without [LIMIT], which raises when two rows carry
    the code ['web']. *)
Definition web_channel_key (channels : list dim_channel)
  : result (option Z) :=
  r <- scalar_subquery
         (filter (fun c => String.eqb (ch_channel_code c) "web") channels) ;;
  Ok (option_map ch_channel_key r).

(** [COALESCE(ch.channel_key, (SELECT ...))]: the subquery is evaluated
    for a row only when the row has no channel of its own. *)
Definition channel_key_of (channels : list dim_channel)
  (ch : option dim_channel) : result (option Z) :=
  match ch with
  | Some c => Ok (Some (ch_channel_key c))
  | None => web_channel_key channels
  end.

(** The email digest of the join condition on [dim_customer]; NULL for an
    order without an email. *)
Definition order_hash (C : pg_casts) (o : stg_order)
  : result (stg_order * option string) :=
  match so_email o with
  | None => Ok (o, None)
  | Some e => h <- customer_id_hash C e ;; Ok (o, Some h)
  end.

(** The select list of the [fact_order] statement on one joined row,
    given the value [ck] of its channel key. *)
Definition order_fact_record (ck : option Z)
  (methods : list dim_shipping_method) (o : stg_order)
  (ols : option order_line_summary) (dc : option dim_customer)
  (sm : option dim_shipping_method) (k : Z) : fact_order :=
  {| fo_order_key := k;
     fo_order_id := so_order_id o;
     fo_customer_key := option_map dc_customer_key dc;
     fo_channel_key := ck;
     fo_shipping_method_key :=
       coalesce_opt (option_map ds_shipping_method_key sm)
                    (limit_one_key ds_shipping_method_key methods);
     fo_gross_product_sales :=
       coalesce_opt (col ols_calculated_gross ols)
                    (add (so_subtotal o) (Some (so_discount_amount o)));
     fo_order_discount_amount := so_discount_amount o;
     fo_subtotal := so_subtotal o;
     fo_shipping_amount := so_shipping o;
     fo_tax_amount := so_taxes o;
     fo_total_amount := so_total o;
     fo_refunded_amount := so_refunded_amount o;
     fo_net_sales := sub (so_subtotal o) (Some (so_refunded_amount o));
     fo_line_item_count := coalesce (option_map ols_line_item_count ols) 1;
     fo_unit_count := coalesce (col ols_unit_count ols) 1 |}.

Definition order_fact_row (channels : list dim_channel)
  (methods : list dim_shipping_method) (o : stg_order)
  (ols : option order_line_summary) (dc : option dim_customer)
  (ch : option dim_channel) (sm : option dim_shipping_method)
  (k : Z) : result fact_order :=
  ck <- channel_key_of channels ch ;;
  Ok (order_fact_record ck methods o ols dc sm k).

(** The four [LEFT JOIN]s of the [fact_order] statement. *)
Definition order_joins (lines : list stg_order_line)
  (customers : list dim_customer) (channels : list dim_channel)
  (methods : list dim_shipping_method) (oh : stg_order * option string)
  : list (Z -> result fact_order) :=
  let (o, h) := oh in
  flat_map (fun ols =>
  flat_map (fun dc =>
  flat_map (fun ch =>
  map (fun sm => order_fact_row channels methods o ols dc ch sm)
    (matches_or_null
       (filter (fun m => eq_key String.eqb
                           (option_map shipping_method_code
                                       (so_shipping_method o))
                           (Some (sh_code (ds_method m))))
               methods)))
    (matches_or_null
       (filter (fun c => eq_key String.eqb (option_map lower (so_source o))
                                (Some (ch_channel_code c)))
               channels)))
    (matches_or_null
       (filter (fun c => eq_key String.eqb h (Some (dc_customer_id_hash c)))
               customers)))
    (matches_or_null
       (filter (fun s => so_order_id o =? ols_order_id s)
               (summarize_lines lines))).

(** [TRUNCATE warehouse.fact_order; WITH ... INSERT ... SELECT ...]. *)
Definition build_fact_order (C : pg_casts) (next : Z)
  (orders : list stg_order) (lines : list stg_order_line)
  (customers : list dim_customer) (channels : list dim_channel)
  (methods : list dim_shipping_method) : result (list fact_order) :=
  ohs <- traverse (order_hash C) orders ;;
  traverse (fun kf => snd kf (fst kf))
           (with_serial next
              (flat_map (order_joins lines customers channels methods) ohs)).

(** [warehouse.fact_order_line]. *)
Record fact_order_line : Type := {
  fol_order_line_key : Z;
  fol_order_key : Z;
  fol_order_id : Z;
  fol_line_number : Z;
  fol_product_key : option Z;
  fol_quantity : Z;
  fol_unit_price : option numeric;
  fol_gross_line_revenue : option numeric;
  fol_line_discount : numeric;
  fol_allocated_order_discount : option numeric;
  fol_net_line_revenue : option numeric;
  fol_estimated_cogs : option numeric;
  fol_has_missing_cost : option bool;
  fol_gross_margin : option numeric;
  fol_margin_percent : option numeric
}.

(** The [CASE] of the proportional discount allocation. *)
Definition allocated_order_discount (l : stg_order_line) (fo : fact_order)
  : result (option numeric) :=
  if is_true (gt (fo_gross_product_sales fo) (Some (of_int 0))) then
    q <- div (line_gross l) (fo_gross_product_sales fo) ;;
    Ok (mul q (Some (fo_order_discount_amount fo)))
  else Ok (Some (of_int 0)).

(** CTE [line_with_allocation]: staged lines joined to their order fact. *)
Definition line_with_allocation (lines : list stg_order_line)
  (orders : list fact_order)
  : result (list (stg_order_line * fact_order * option numeric)) :=
  traverse (fun lf =>
              a <- allocated_order_discount (fst lf) (snd lf) ;;
              Ok (fst lf, snd lf, a))
           (inner_join (fun l fo => sl_order_id l =? fo_order_id fo)
                       lines orders).

Definition order_line_row (lwa : stg_order_line * fact_order * option numeric)
  (dp : option dim_product) (k : Z) : fact_order_line :=
  let '(l, fo, a) := lwa in
  {| fol_order_line_key := k;
     fol_order_key := fo_order_key fo;
     fol_order_id := sl_order_id l;
     fol_line_number := sl_line_number l;
     fol_product_key := option_map dp_product_key dp;
     fol_quantity := sl_lineitem_quantity l;
     fol_unit_price := sl_lineitem_price l;
     fol_gross_line_revenue := line_gross l;
     fol_line_discount := sl_lineitem_discount l;
     fol_allocated_order_discount := a;
     fol_net_line_revenue :=
       sub (sub (line_gross l) (Some (sl_lineitem_discount l))) a;
     fol_estimated_cogs := None;
     fol_has_missing_cost := None;
     fol_gross_margin := None;
     fol_margin_percent := None |}.

(** The two [LEFT JOIN]s that resolve the product key of a line. *)
Definition product_joins (skm : list stg_sku_map) (products : list dim_product)
  (lwa : stg_order_line * fact_order * option numeric)
  : list (Z -> fact_order_line) :=
  flat_map (fun m =>
  map (fun dp => order_line_row lwa dp)
    (matches_or_null
       (filter (fun p => eq_key String.eqb (option_map sk_internal_sku m)
                                (Some (dp_internal_sku p)))
               products)))
    (matches_or_null
       (filter (fun m => eq_key String.eqb
                           (Some (sl_lineitem_name (fst (fst lwa))))
                           (sk_lineitem_name m))
               skm)).

(** [TRUNCATE warehouse.fact_order_line; WITH ... INSERT ... SELECT ...]. *)
Definition build_fact_order_line (next : Z) (lines : list stg_order_line)
  (orders : list fact_order) (skm : list stg_sku_map)
  (products : list dim_product) : result (list fact_order_line) :=
  lwas <- line_with_allocation lines orders ;;
  Ok (map (fun kf => snd kf (fst kf))
          (with_serial next (flat_map (product_joins skm products) lwas))).

(** [warehouse.fact_cogs_estimate]. *)
Record fact_cogs_estimate : Type := {
  fce_order_line_key : Z;
  fce_product_key : option Z;
  fce_material_key : option Z;
  fce_ingredient_name : option string;
  fce_amount_ml : option numeric;
  fce_cost_per_ml : option numeric;
  fce_line_cost : option numeric;
  fce_has_known_cost : bool
}.

(** The recipe rows of a product: same recipe id, batch size equal to the
    product's size, variant ['final']. *)
Definition recipe_matches (dp : dim_product) (r : stg_recipe) : bool :=
  eq_key String.eqb (dp_recipe_id dp) (Some (sr_recipe_id r))
  && eq_key Z.eqb (sr_batch_size_ml r) (dp_size_ml dp)
  && eq_key String.eqb (sr_variant r) (Some "final").

(** The [CASE] of [line_cost]; [dm] is NULL when the ingredient has no
    material row. *)
Definition ingredient_cost (r : stg_recipe) (dm : option dim_material)
  : option numeric :=
  let known := is_true (option_map dm_has_known_cost dm) in
  if known && is_some (col dm_cost_per_ml dm) then
    mul (sr_amount_ml r) (col dm_cost_per_ml dm)
  else if known && is_some (col dm_cost_per_unit dm) then
    col dm_cost_per_unit dm
  else Some (of_int 0).

Definition cogs_row (fol : fact_order_line) (r : stg_recipe)
  (dm : option dim_material) : fact_cogs_estimate :=
  {| fce_order_line_key := fol_order_line_key fol;
     fce_product_key := fol_product_key fol;
     fce_material_key := option_map dm_material_key dm;
     fce_ingredient_name := sr_ingredient_match r;
     fce_amount_ml := sr_amount_ml r;
     fce_cost_per_ml := coalesce_opt (col dm_cost_per_ml dm)
                                     (col dm_cost_per_unit dm);
     fce_line_cost := ingredient_cost r dm;
     fce_has_known_cost := coalesce (option_map dm_has_known_cost dm) false |}.

(** [TRUNCATE warehouse.fact_cogs_estimate; INSERT ... SELECT ...]. *)
Definition build_fact_cogs_estimate (fols : list fact_order_line)
  (products : list dim_product) (recipes : list stg_recipe)
  (materials : list dim_material) : list fact_cogs_estimate :=
  flat_map (fun fol =>
  flat_map (fun dp =>
  flat_map (fun r =>
  map (fun dm => cogs_row fol r dm)
    (matches_or_null
       (filter (fun m => eq_key String.eqb (sr_material_id r)
                                (Some (dm_material_id m)))
               materials)))
    (filter (recipe_matches dp) recipes))
    (filter (fun dp => eq_key Z.eqb (fol_product_key fol)
                              (Some (dp_product_key dp)))
            products))
    (filter (fun fol => is_some (fol_product_key fol)) fols).

(** CTE [cogs_summary]: per order line, the total of the ingredient costs
    and the disjunction of the negated known-cost flags. *)
Record cogs_summary : Type := {
  cgs_order_line_key : Z;
  cgs_total_cogs : option numeric;
  cgs_has_missing_cost : option bool
}.

Definition summarize_cogs (cogs : list fact_cogs_estimate)
  : list cogs_summary :=
  map (fun k =>
         let g := filter (fun c => fce_order_line_key c =? k) cogs in
         {| cgs_order_line_key := k;
            cgs_total_cogs := sum_agg (map fce_line_cost g);
            cgs_has_missing_cost :=
              bool_or (map (fun c => Some (negb (fce_has_known_cost c))) g) |})
      (distinct Z.eqb (map fce_order_line_key cogs)).

(** [net_line_revenue / NULLIF(quantity, 0)]. *)
Definition revenue_per_unit (fol : fact_order_line) : result (option numeric) :=
  div (fol_net_line_revenue fol)
      (option_map of_int (nullif_zero (fol_quantity fol))).

(** The [SET] list of the first [UPDATE], for a line and its summary. *)
Definition set_cogs (fol : fact_order_line) (cs : cogs_summary)
  : result fact_order_line :=
  let cogs := coalesce (cgs_total_cogs cs) (of_int 0) in
  pu <- revenue_per_unit fol ;;
  pct <- (if is_true (gt (fol_net_line_revenue fol) (Some (of_int 0))) then
            num <- revenue_per_unit fol ;;
            den <- revenue_per_unit fol ;;
            q <- div (sub num (Some cogs)) den ;;
            Ok (mul q (Some (of_int 100)))
          else Ok (Some (of_int 0))) ;;
  Ok {| fol_order_line_key := fol_order_line_key fol;
        fol_order_key := fol_order_key fol;
        fol_order_id := fol_order_id fol;
        fol_line_number := fol_line_number fol;
        fol_product_key := fol_product_key fol;
        fol_quantity := fol_quantity fol;
        fol_unit_price := fol_unit_price fol;
        fol_gross_line_revenue := fol_gross_line_revenue fol;
        fol_line_discount := fol_line_discount fol;
        fol_allocated_order_discount := fol_allocated_order_discount fol;
        fol_net_line_revenue := fol_net_line_revenue fol;
        fol_estimated_cogs := Some cogs;
        fol_has_missing_cost := Some (coalesce (cgs_has_missing_cost cs) true);
        fol_gross_margin := sub pu (Some cogs);
        fol_margin_percent := pct |}.

(** The [SET] list of the second [UPDATE]. *)
Definition set_defaults (fol : fact_order_line) : result fact_order_line :=
  pu <- revenue_per_unit fol ;;
  Ok {| fol_order_line_key := fol_order_line_key fol;
        fol_order_key := fol_order_key fol;
        fol_order_id := fol_order_id fol;
        fol_line_number := fol_line_number fol;
        fol_product_key := fol_product_key fol;
        fol_quantity := fol_quantity fol;
        fol_unit_price := fol_unit_price fol;
        fol_gross_line_revenue := fol_gross_line_revenue fol;
        fol_line_discount := fol_line_discount fol;
        fol_allocated_order_discount := fol_allocated_order_discount fol;
        fol_net_line_revenue := fol_net_line_revenue fol;
        fol_estimated_cogs := Some (of_int 0);
        fol_has_missing_cost := Some true;
        fol_gross_margin := pu;
        fol_margin_percent := Some (of_int 100) |}.

(** [UPDATE fact_order_line fol SET ... FROM cogs_summary cs
     WHERE fol.order_line_key = cs.order_line_key]. *)
Definition update_from_summary (fols : list fact_order_line)
  (cogs : list fact_cogs_estimate) : result (list fact_order_line) :=
  traverse (fun fol =>
              match find (fun cs => fol_order_line_key fol
                                    =? cgs_order_line_key cs)
                         (summarize_cogs cogs) with
              | Some cs => set_cogs fol cs
              | None => Ok fol
              end) fols.

(** [UPDATE fact_order_line SET ... WHERE estimated_cogs IS NULL]. *)
Definition update_defaults (fols : list fact_order_line)
  : result (list fact_order_line) :=
  traverse (fun fol =>
              match fol_estimated_cogs fol with
              | None => set_defaults fol
              | Some _ => Ok fol
              end) fols.

Definition update_cogs (fols : list fact_order_line)
  (cogs : list fact_cogs_estimate) : result (list fact_order_line) :=
  fols1 <- update_from_summary fols cogs ;;
  update_defaults fols1.

(** *** Values used to state the rollup *)

(** The estimate rows of an order line. *)
Definition estimates_of (k : Z) (cogs : list fact_cogs_estimate)
  : list fact_cogs_estimate :=
  filter (fun c => fce_order_line_key c =? k) cogs.

(** Sum of the ingredient costs, a NULL cost counting for nothing. *)
Definition total_line_cost (g : list fact_cogs_estimate) : numeric :=
  fold_right num_add (of_int 0)
             (map (fun c => coalesce (fce_line_cost c) (of_int 0)) g).

Definition summary_of (k : Z) (cogs : list fact_cogs_estimate)
  : cogs_summary :=
  {| cgs_order_line_key := k;
     cgs_total_cogs := sum_agg (map fce_line_cost (estimates_of k cogs));
     cgs_has_missing_cost :=
       bool_or (map (fun c => Some (negb (fce_has_known_cost c)))
                    (estimates_of k cogs)) |}.

(** Revenue per unit, as a value: NULL on a zero quantity. *)
Definition per_unit (fol : fact_order_line) : option numeric :=
  if fol_quantity fol =? 0 then None
  else option_map (fun n => quotient n (of_int (fol_quantity fol)))
                  (fol_net_line_revenue fol).

(** The margin percentage of a costed line, as a value. *)
Definition margin_percent_of (fol : fact_order_line) (cogs : numeric)
  : option numeric :=
  match fol_net_line_revenue fol with
  | Some n =>
      if num_ltb (of_int 0) n then
        option_map (fun u => num_mul (quotient (num_sub u cogs) u)
                                     (of_int 100))
                   (per_unit fol)
      else Some (of_int 0)
  | None => Some (of_int 0)
  end.

(** What the two [UPDATE]s make of a line [f0]: with estimate rows, the
    rollup of these rows; without, the defaults when its COGS columns are
    still NULL, and no change otherwise. *)
Definition updated (cogs : list fact_cogs_estimate)
  (f0 f : fact_order_line) : Prop :=
  fol_order_line_key f = fol_order_line_key f0 /\
  fol_product_key f = fol_product_key f0 /\
  match estimates_of (fol_order_line_key f0) cogs with
  | [] =>
      match fol_estimated_cogs f0 with
      | None =>
          fol_estimated_cogs f = Some (of_int 0) /\
          fol_has_missing_cost f = Some true /\
          fol_margin_percent f = Some (of_int 100)
      | Some _ => f = f0
      end
  | g =>
      fol_quantity f = fol_quantity f0 /\
      fol_net_line_revenue f = fol_net_line_revenue f0 /\
      fol_estimated_cogs f = Some (total_line_cost g) /\
      fol_has_missing_cost f
      = Some (existsb (fun c => negb (fce_has_known_cost c)) g) /\
      fol_gross_margin f = sub (per_unit f0) (Some (total_line_cost g)) /\
      fol_margin_percent f = margin_percent_of f0 (total_line_cost g)
  end.

(** The staged inputs, the dimensions and the sequence values that
    [build_facts] reads. *)
Record warehouse_inputs : Type := {
  wi_orders : list stg_order;
  wi_lines : list stg_order_line;
  wi_sku_map : list stg_sku_map;
  wi_recipes : list stg_recipe;
  wi_customers : list dim_customer;
  wi_channels : list dim_channel;
  wi_methods : list dim_shipping_method;
  wi_products : list dim_product;
  wi_materials : list dim_material;
  wi_next_order_key : Z;
  wi_next_order_line_key : Z
}.

Record warehouse_facts : Type := {
  wf_orders : list fact_order;
  wf_lines : list fact_order_line;
  wf_cogs : list fact_cogs_estimate
}.

(** [build_facts]: the statements in the order in which they are run;
    the first one that fails aborts the function. *)
Definition build_facts (C : pg_casts) (w : warehouse_inputs)
  : result warehouse_facts :=
  fos <- build_fact_order C (wi_next_order_key w) (wi_orders w) (wi_lines w)
           (wi_customers w) (wi_channels w) (wi_methods w) ;;
  fols <- build_fact_order_line (wi_next_order_line_key w) (wi_lines w) fos
            (wi_sku_map w) (wi_products w) ;;
  let cogs := build_fact_cogs_estimate fols (wi_products w) (wi_recipes w)
                (wi_materials w) in
  fols' <- update_cogs fols cogs ;;
  Ok {| wf_orders := fos; wf_lines := fols'; wf_cogs := cogs |}.

(** *** Values used to state further properties *)

(** The staged lines of an order. *)
Definition lines_of (oid : Z) (lines : list stg_order_line)
  : list stg_order_line :=
  filter (fun l => sl_order_id l =? oid) lines.

(** [r.variant = 'final']. *)
Definition is_final (r : stg_recipe) : bool :=
  eq_key String.eqb (sr_variant r) (Some "final").

(** A nullable amount that is not negative. *)
Definition nonneg (x : option numeric) : Prop :=
  forall a, x = Some a -> (0 <= to_Q a)%Q.

End Facts.

(* ================================================================== *)
(** ** The driver: [etl/run_all.py] *)
(* ================================================================== *)

Module Runner.

(** A Python computation either returns or raises an exception, here
    identified with its message [str(e)]. *)
Inductive outcome (A : Type) : Type :=
| Returns (a : A)
| Raises (e : string).
Arguments Returns {A} a.
Arguments Raises {A} e.

Inductive level : Type := INFO | WARNING | ERROR.

(** What the database connection does with a statement:
    [conn.execute(text(stmt)); conn.commit()] leaves a new database, or
    raises with a message; [conn.rollback()] ends the failed transaction. *)
Record connection (DB : Type) : Type := {
  execute_commit : DB -> string -> DB + string;
  rollback : DB -> DB
}.
Arguments execute_commit {DB} c db stmt.
Arguments rollback {DB} c db.

Record world (DB : Type) : Type := {
  w_db : DB;
  w_log : list (level * string)
}.
Arguments w_db {DB} w.
Arguments w_log {DB} w.

Section Pipeline.

Context {DB : Type} (conn : connection DB).

(** Computations over the database and the log. *)
Definition py (A : Type) : Type := world DB -> outcome A * world DB.

Definition ret {A} (a : A) : py A := fun w => (Returns a, w).

Definition raise {A} (e : string) : py A := fun w => (Raises e, w).

Definition bind {A B} (m : py A) (k : A -> py B) : py B :=
  fun w =>
    match m w with
    | (Returns a, w') => k a w'
    | (Raises e, w') => (Raises e, w')
    end.

(** [try: body  except Exception as e: handler(e)]. *)
Definition try_except {A} (body : py A) (handler : string -> py A) : py A :=
  fun w =>
    match body w with
    | (Returns a, w') => (Returns a, w')
    | (Raises e, w') => handler e w'
    end.

Definition logger (l : level) (msg : string) : py unit :=
  fun w => (Returns tt, {| w_db := w_db w; w_log := w_log w ++ [(l, msg)] |}).

Definition conn_execute_commit (stmt : string) : py unit :=
  fun w =>
    match execute_commit conn (w_db w) stmt with
    | inl db' => (Returns tt, {| w_db := db'; w_log := w_log w |})
    | inr e => (Raises e, w)
    end.

Definition conn_rollback : py unit :=
  fun w => (Returns tt, {| w_db := rollback conn (w_db w); w_log := w_log w |}).

(** A computation that never raises. *)
Definition returns (m : py unit) : Prop :=
  forall w, exists w', m w = (Returns tt, w').

(** [for x in xs: body(x)]. *)
Fixpoint for_each {A} (xs : list A) (body : A -> py unit) : py unit :=
  match xs with
  | [] => ret tt
  | x :: t => bind (body x) (fun _ => for_each t body)
  end.

(** [[s.strip() for s in sql.split(';') if s.strip()]]. *)
Definition statements_of (sql : string) : list string :=
  filter (fun s => negb (String.eqb s ""))
         (map Py.strip (Py.split ";" sql)).

(** [[l for l in stmt.split('\n') if l.strip() and not
     l.strip().startswith('--')]]. *)
Definition code_lines (stmt : string) : list string :=
  filter (fun l => negb (String.eqb (Py.strip l) "")
                   && negb (Py.startswith "--" (Py.strip l)))
         (Py.split "010" stmt).

(** The body of the statement loop of [init_database]. *)
Definition init_statement (stmt : string) : py unit :=
  match code_lines stmt with
  | [] => ret tt
  | _ =>
      try_except
        (conn_execute_commit stmt)
        (fun e =>
           bind conn_rollback (fun _ =>
           if negb (Py.contains "already exists" (Py.lower e)) then
             logger WARNING ("Statement warning: " ++ e)%string
           else ret tt))
  end.

(** [init_database], on the schema files already listed, sorted and read:
    pairs of a file name and its text. *)
Definition init_database (schema_files : list (string * string)) : py unit :=
  bind (for_each schema_files (fun f =>
          bind (logger INFO ("Executing " ++ fst f ++ "...")%string) (fun _ =>
          for_each (statements_of (snd f)) init_statement)))
       (fun _ => logger INFO "Database schemas initialized!").

(** The body of the statement loop of [build_marts]. *)
Definition mart_statement (stmt : string) : py unit :=
  match code_lines stmt with
  | [] => ret tt
  | _ =>
      try_except
        (conn_execute_commit stmt)
        (fun e =>
           bind conn_rollback (fun _ =>
           logger WARNING ("Mart statement warning: " ++ e)%string))
  end.

Definition build_marts (mart_files : list (string * string)) : py unit :=
  bind (for_each mart_files (fun f =>
          bind (logger INFO ("Executing " ++ fst f ++ "...")%string) (fun _ =>
          for_each (statements_of (snd f)) mart_statement)))
       (fun _ => logger INFO "KPI mart views built!").

(** The stages that [run_pipeline] imports from the other modules, and the
    queries of [print_summary]; any of them may raise. *)
Record stages : Type := {
  load_raw_data : bool -> py unit;
  build_staging_tables : py unit;
  build_dimensions : py unit;
  build_facts : py unit;
  summary_queries : py unit
}.

Inductive step : Type := Load | Build | All.

Definition print_summary (S : stages) : py unit :=
  try_except (summary_queries S)
             (fun e => logger WARNING ("Could not print summary: " ++ e)%string).

Definition run_pipeline (S : stages) (schema_files mart_files
  : list (string * string)) (st : step) (use_sample : bool) : py unit :=
  bind (match st with
        | All | Load =>
            bind (init_database schema_files) (fun _ =>
            load_raw_data S use_sample)
        | Build => ret tt
        end) (fun _ =>
  bind (match st with
        | All | Build =>
            bind (build_staging_tables S) (fun _ =>
            bind (build_dimensions S) (fun _ =>
            bind (build_facts S) (fun _ =>
            build_marts mart_files)))
        | Load => ret tt
        end) (fun _ =>
  print_summary S)).

(** [main]: the exit status of the process. *)
Definition main (S : stages) (schema_files mart_files
  : list (string * string)) (st : step) (use_sample : bool)
  : world DB -> Z * world DB :=
  fun w =>
    match run_pipeline S schema_files mart_files st use_sample w with
    | (Returns _, w') => (0, w')
    | (Raises e, w') =>
        (1, snd (logger ERROR ("Pipeline failed: " ++ e)%string w'))
    end.

End Pipeline.

End Runner.

(* ================================================================== *)
(** ** Raw ingestion: the pure helpers of [etl/ingest_raw.py] *)
(* ================================================================== *)

Module Ingest.

(** [s.replace(c, '')] for a one-character pattern. *)
Fixpoint remove_char (c : ascii) (s : string) : string :=
  match s with
  | EmptyString => EmptyString
  | String x t => if Ascii.eqb x c then remove_char c t
                  else String x (remove_char c t)
  end.

(** [s.replace(from, to)] for one-character strings. *)
Definition replace (from to : ascii) (s : string) : string :=
  Sql.replace_char from to s.

(** [clean_column_name]: the chain of [lower] and [replace] calls. *)
Definition clean_column_name (col : string) : string :=
  replace ":" "_"
    (replace "." "_"
       (replace "-" "_"
          (replace "/" "_"
             (remove_char ")"
                (remove_char "("
                   (replace " " "_" (Py.lower col))))))).

(** What [clean_column_name] makes of one character: dropped, or
    replaced. *)
Definition clean_char (c : ascii) : option ascii :=
  match clean_column_name (String c EmptyString) with
  | EmptyString => None
  | String c' _ => Some c'
  end.

(** The characters a cleaned column name is free of. *)
Definition is_clean_char (c : ascii) : bool :=
  let n := nat_of_ascii c in
  negb (existsb (Ascii.eqb c) [" "; "("; ")"; "/"; "-"; "."; ":"]%char)
  && negb ((65 <=? n) && (n <=? 90))%nat.

End Ingest.

(* ================================================================== *)
(** ** The control flow of [build_staging_tables] *)
(* ================================================================== *)

Module StagingRun.
Import Runner.

(** The texts of the statements of [build_staging_tables]. *)
Record staging_sql : Type := {
  sql_stg_orders : string;
  sql_stg_order_lines : string;
  sql_stg_products : string;
  sql_stg_customers : string;
  sql_stg_product_sku_map : string;
  sql_stg_material_costs : string;
  sql_stg_recipes : string;
  sql_stg_meta_ads : string;
  sql_stg_gsc_daily : string
}.

Section Staging.

Context {DB : Type} (conn : connection DB).

(** The query of the columns of [raw.meta_ads] in the catalog: the column
    names, or an exception. *)
Variable meta_ads_columns : DB -> list string + string.

Variable Q : staging_sql.

(** [logger.info(msg); conn.execute(text(sql)); conn.commit()]. *)
Definition run_step (s : string * string) : py unit :=
  bind (logger INFO (fst s)) (fun _ => conn_execute_commit conn (snd s)).

(** The statements outside any [try], in the order of the source. *)
Definition mandatory_steps : list (string * string) :=
  [ ("Building staging.stg_orders...", sql_stg_orders Q);
    ("Building staging.stg_order_lines...", sql_stg_order_lines Q);
    ("Building staging.stg_products...", sql_stg_products Q);
    ("Building staging.stg_customers...", sql_stg_customers Q);
    ("Building staging.stg_product_sku_map...", sql_stg_product_sku_map Q);
    ("Building staging.stg_material_costs...", sql_stg_material_costs Q);
    ("Building staging.stg_recipes...", sql_stg_recipes Q) ].

Definition mandatory_part : py unit := for_each mandatory_steps run_step.

Definition fetch_columns : py (list string) :=
  fun w =>
    match meta_ads_columns (w_db w) with
    | inl cols => (Returns cols, w)
    | inr e => (Raises e, w)
    end.

(** The [try] block of the Meta ads source and its handler. *)
Definition meta_ads_part : py unit :=
  try_except
    (bind fetch_columns (fun columns =>
       if existsb (String.eqb "campaign_name") columns
       then conn_execute_commit conn (sql_stg_meta_ads Q)
       else ret tt))
    (fun e =>
       bind (conn_rollback conn) (fun _ =>
       logger WARNING ("Could not build stg_meta_ads: " ++ e)%string)).

(** The [try] block of the search-console source and its handler. *)
Definition gsc_part : py unit :=
  try_except
    (conn_execute_commit conn (sql_stg_gsc_daily Q))
    (fun e =>
       bind (conn_rollback conn) (fun _ =>
       logger WARNING ("Could not build stg_gsc_daily: " ++ e)%string)).

Definition build_staging_tables : py unit :=
  bind mandatory_part (fun _ =>
  bind (logger INFO "Building staging.stg_meta_ads (if available)...")
       (fun _ =>
  bind meta_ads_part (fun _ =>
  bind (logger INFO "Building staging.stg_gsc_daily (if available)...")
       (fun _ =>
  bind gsc_part (fun _ =>
  logger INFO "Staging tables built successfully!"))))).

End Staging.

End StagingRun.

(* ================================================================== *)
(** ** A small shop: the data of the worked examples *)
(* ================================================================== *)

Module Scenario.
Import Sql Staging Dimensions Facts.

Definition raw_line (id email item qty price : string) : raw_order :=
  {| ro_id := Some id; ro_name := Some ("#" ++ id)%string;
     ro_email := Some email;
     ro_subtotal := Some "18.00"; ro_shipping := Some "5.00";
     ro_taxes := Some "1.00"; ro_total := Some "24.00";
     ro_discount_amount := Some "2.00"; ro_refunded_amount := Some "";
     ro_shipping_method := Some "Local Pickup"; ro_source := Some "web";
     ro_created_at := Some "2023-11-14 22:13:20+00";
     ro_lineitem_name := Some item; ro_lineitem_sku := Some "";
     ro_lineitem_quantity := Some qty; ro_lineitem_price := Some price;
     ro_lineitem_compare_at_price := Some "";
     ro_lineitem_discount := Some "";
     ro_lineitem_fulfillment_status := Some "fulfilled";
     ro_vendor := Some "Akhdar Perfumes" |}.

(** One order with two different items. *)
Definition raw_rows : list raw_order :=
  [ raw_line "1001" "ann@example.com" "Rose 50ml" "1" "10.00";
    raw_line "1001" "" "Oud 50ml" "1" "10.00" ].

(** One order in which the same item name occurs on two rows. *)
Definition tied_rows : list raw_order :=
  [ raw_line "1001" "ann@example.com" "Oud 50ml" "1" "10.00";
    raw_line "1001" "" "Oud 50ml" "2" "9.00" ].

Definition order (id : Z) (email : string) (subtotal discount : Z)
  (method : option string) : stg_order :=
  {| so_order_id := id; so_order_number := None; so_email := Some email;
     so_subtotal := Some (of_int subtotal); so_shipping := Some (of_int 5);
     so_taxes := Some (of_int 1);
     so_total := Some (of_int (subtotal + 6));
     so_discount_amount := of_int discount; so_refunded_amount := (of_int 0);
     so_shipping_method := method; so_source := Some "web";
     so_created_at := Some 1700000000 |}.

(** Order 1001 has two lines; order 1002 has none. *)
Definition orders : list stg_order :=
  [ order 1001 "ann@example.com" 18 2 (Some "Local Pickup");
    order 1002 "bob@example.com" 30 0 None ].

Definition line (n : Z) (item : string) : stg_order_line :=
  {| sl_order_id := 1001; sl_order_number := None; sl_line_number := n;
     sl_lineitem_name := item; sl_lineitem_sku := None;
     sl_lineitem_quantity := 1; sl_lineitem_price := Some (of_int 10);
     sl_lineitem_compare_at_price := None; sl_lineitem_discount := (of_int 0);
     sl_lineitem_fulfillment_status := Some "fulfilled";
     sl_vendor := Some "Akhdar Perfumes";
     sl_created_at := Some 1700000000 |}.

Definition lines : list stg_order_line :=
  [ line 1 "Oud 50ml"; line 2 "Rose 50ml" ].

(** Only the first item is in the SKU map. *)
Definition sku_map : list stg_sku_map :=
  [ {| sk_internal_sku := "OUD-50"; sk_lineitem_name := Some "Oud 50ml";
       sk_product_handle := Some "oud"; sk_size_ml := Some 50;
       sk_recipe_id := Some "R-OUD"; sk_product_category := Some "perfume";
       sk_is_active := true |} ].

Definition material_costs : list stg_material_cost :=
  [ {| sm_material_id := "M-OIL"; sm_material_name := Some "oud oil";
       sm_cost_per_unit := None; sm_cost_per_ml := Some (dec 5 1);
       sm_has_known_cost := true |};
    {| sm_material_id := "M-ALC"; sm_material_name := Some "alcohol";
       sm_cost_per_unit := None; sm_cost_per_ml := None;
       sm_has_known_cost := false |};
    {| sm_material_id := "M-BOT"; sm_material_name := Some "bottle";
       sm_cost_per_unit := Some (of_int 1); sm_cost_per_ml := None;
       sm_has_known_cost := true |} ].

Definition recipe (variant material : string) (amount : option numeric)
  : stg_recipe :=
  {| sr_recipe_id := "R-OUD"; sr_variant := Some variant;
     sr_batch_size_ml := Some 50; sr_ingredient_match := Some material;
     sr_amount_ml := amount; sr_material_id := Some material |}.

Definition recipes : list stg_recipe :=
  [ recipe "final" "M-OIL" (Some (of_int 4));
    recipe "final" "M-ALC" (Some (of_int 46));
    recipe "final" "M-BOT" None;
    recipe "draft" "M-OIL" (Some (of_int 10)) ].

Definition value {A} (r : result (list A)) : list A :=
  match r with Ok l => l | Fault _ => [] end.

Definition inputs : warehouse_inputs :=
  {| wi_orders := orders;
     wi_lines := lines;
     wi_sku_map := sku_map;
     wi_recipes := recipes;
     wi_customers := value (build_dim_customer decimal_casts 1 orders []);
     wi_channels := [ {| ch_channel_key := 1; ch_channel_code := "web" |} ];
     wi_methods := build_dim_shipping_method [] 1 orders;
     wi_products := build_dim_product 1 sku_map [];
     wi_materials := build_dim_material 1 material_costs;
     wi_next_order_key := 1;
     wi_next_order_line_key := 1 |}.

Definition fact_orders : list fact_order :=
  value (build_fact_order decimal_casts 1 orders lines (wi_customers inputs)
           (wi_channels inputs) (wi_methods inputs)).

Definition fact_lines : list fact_order_line :=
  value (build_fact_order_line 1 lines fact_orders sku_map
           (wi_products inputs)).

Definition cogs_estimates : list fact_cogs_estimate :=
  build_fact_cogs_estimate fact_lines (wi_products inputs) recipes
    (wi_materials inputs).

(** An order whose email carries a leading blank and capitals. *)
Definition padded_email : string := " Ann@Example.com".

Definition padded_orders : list stg_order :=
  [ order 1003 padded_email 18 2 None ].

(** A database that records the statements it ran and rejects one
    misspelt statement. *)
Definition log_conn : Runner.connection (list string) :=
  {| Runner.execute_commit := fun db stmt =>
       if String.eqb stmt "CREATE TABL t"
       then inr "syntax error at or near TABL"
       else inl (db ++ [stmt]);
     Runner.rollback := fun db => db |}.

Definition schema_files : list (string * string) :=
  [ ("01_schema.sql", "CREATE TABL t; CREATE TABLE u (id int)") ].

(** Stages that all succeed. *)
Definition quiet_stages : Runner.stages (DB := list string) :=
  {| Runner.load_raw_data := fun _ => Runner.ret tt;
     Runner.build_staging_tables := Runner.ret tt;
     Runner.build_dimensions := Runner.ret tt;
     Runner.build_facts := Runner.ret tt;
     Runner.summary_queries := Runner.ret tt |}.

Definition empty_world : Runner.world (list string) :=
  {| Runner.w_db := []; Runner.w_log := [] |}.

(** Raw rows of two orders; the first order is exported twice, the later
    export first. *)
Definition raw_at (id created item : string) : raw_order :=
  {| ro_id := Some id; ro_name := Some ("#" ++ id)%string;
     ro_email := Some "ann@example.com";
     ro_subtotal := Some "18.00"; ro_shipping := Some "5.00";
     ro_taxes := Some "1.00"; ro_total := Some "24.00";
     ro_discount_amount := Some "2.00"; ro_refunded_amount := Some "";
     ro_shipping_method := Some "Local Pickup"; ro_source := Some "web";
     ro_created_at := Some created;
     ro_lineitem_name := Some item; ro_lineitem_sku := Some "";
     ro_lineitem_quantity := Some "1"; ro_lineitem_price := Some "10.00";
     ro_lineitem_compare_at_price := Some "";
     ro_lineitem_discount := Some "";
     ro_lineitem_fulfillment_status := Some "fulfilled";
     ro_vendor := Some "Akhdar Perfumes" |}.

Definition later : string := "2023-11-14 22:15:00+00".
Definition earlier : string := "2023-11-14 22:13:20+00".

Definition exported_twice : list raw_order :=
  [ raw_at "1001" later "Oud 50ml";
    raw_at "1002" "2023-11-14 22:16:40+00" "Rose 50ml";
    raw_at "1001" earlier "Oud 50ml" ].

(** An order of three equal lines and a discount of 1. *)
Definition line_of (oid n : Z) (item : string) (qty price : Z)
  : stg_order_line :=
  {| sl_order_id := oid; sl_order_number := None; sl_line_number := n;
     sl_lineitem_name := item; sl_lineitem_sku := None;
     sl_lineitem_quantity := qty; sl_lineitem_price := Some (of_int price);
     sl_lineitem_compare_at_price := None;
     sl_lineitem_discount := of_int 0;
     sl_lineitem_fulfillment_status := Some "fulfilled";
     sl_vendor := Some "Akhdar Perfumes";
     sl_created_at := Some 1700000000 |}.

Definition thirds_orders : list stg_order :=
  [ order 1003 "cat@example.com" 29 1 None ].

Definition thirds_lines : list stg_order_line :=
  [ line_of 1003 1 "Amber 50ml" 1 10; line_of 1003 2 "Musk 50ml" 1 10;
    line_of 1003 3 "Oud 50ml" 1 10 ].

Definition thirds_facts : list fact_order :=
  value (build_fact_order decimal_casts 1 thirds_orders thirds_lines []
           (wi_channels inputs) (build_dim_shipping_method [] 1 thirds_orders)).

(** A costed line of quantity 0 with a positive net revenue, and its
    estimate row. *)
Definition idle_line : fact_order_line :=
  {| fol_order_line_key := 7; fol_order_key := 1; fol_order_id := 1001;
     fol_line_number := 1; fol_product_key := Some 1; fol_quantity := 0;
     fol_unit_price := Some (of_int 10);
     fol_gross_line_revenue := Some (of_int 0);
     fol_line_discount := of_int (-5);
     fol_allocated_order_discount := Some (of_int 0);
     fol_net_line_revenue := Some (of_int 5);
     fol_estimated_cogs := None; fol_has_missing_cost := None;
     fol_gross_margin := None; fol_margin_percent := None |}.

Definition idle_estimates : list fact_cogs_estimate :=
  [ {| fce_order_line_key := 7; fce_product_key := Some 1;
       fce_material_key := Some 1; fce_ingredient_name := Some "M-OIL";
       fce_amount_ml := Some (of_int 4); fce_cost_per_ml := Some (dec 5 1);
       fce_line_cost := Some (dec 20 1); fce_has_known_cost := true |} ].

(** Three orders that spell one shipping method in three ways. *)
Definition spelled_orders : list stg_order :=
  [ order 2001 "ann@example.com" 18 0 (Some "Standard Shipping");
    order 2002 "bob@example.com" 18 0 (Some "standard shipping");
    order 2003 "cat@example.com" 18 0 (Some "STANDARD SHIPPING") ].

(** Raw rows of two orders: 1001 carries the same item name on two rows,
    1002 carries two different items. *)
Definition mixed_rows : list raw_order :=
  [ raw_line "1001" "ann@example.com" "Oud 50ml" "1" "10.00";
    raw_line "1002" "bob@example.com" "Rose 50ml" "1" "10.00";
    raw_line "1001" "" "Oud 50ml" "2" "9.00";
    raw_line "1002" "" "Amber 50ml" "1" "12.00" ].

(** A channel table in which two rows carry the code ['web'], and an
    order that comes from no listed channel. *)
Definition doubled_channels : list dim_channel :=
  [ {| ch_channel_key := 1; ch_channel_code := "web" |};
    {| ch_channel_key := 2; ch_channel_code := "web" |} ].

Definition pos_orders : list stg_order :=
  [ {| so_order_id := 3001; so_order_number := None;
       so_email := None; so_subtotal := Some (of_int 18);
       so_shipping := None; so_taxes := None; so_total := Some (of_int 18);
       so_discount_amount := of_int 0; so_refunded_amount := of_int 0;
       so_shipping_method := None; so_source := Some "pos";
       so_created_at := Some 1700000000 |} ].

(** The statements of the staging build, the one of the Meta ads source
    misspelt; the catalog lists a [campaign_name] column. *)
Definition staging_statements : StagingRun.staging_sql :=
  {| StagingRun.sql_stg_orders := "INSERT INTO staging.stg_orders";
     StagingRun.sql_stg_order_lines := "INSERT INTO staging.stg_order_lines";
     StagingRun.sql_stg_products := "INSERT INTO staging.stg_products";
     StagingRun.sql_stg_customers := "INSERT INTO staging.stg_customers";
     StagingRun.sql_stg_product_sku_map :=
       "INSERT INTO staging.stg_product_sku_map";
     StagingRun.sql_stg_material_costs :=
       "INSERT INTO staging.stg_material_costs";
     StagingRun.sql_stg_recipes := "INSERT INTO staging.stg_recipes";
     StagingRun.sql_stg_meta_ads := "CREATE TABL t";
     StagingRun.sql_stg_gsc_daily := "INSERT INTO staging.stg_gsc_daily" |}.

Definition ads_columns (db : list string) : list string + string :=
  inl ["date_start"; "campaign_name"; "spend"].

End Scenario.

(* ================================================================== *)
(** * Properties *)
(* ================================================================== *)

(** ** Lemmas on the SQL layer *)

Module SqlFacts.
Import Sql.

Lemma traverse_Forall2 {A B} (f : A -> result B) (l : list A) (bs : list B) :
  traverse f l = Ok bs <-> Forall2 (fun a b => f a = Ok b) l bs.
Proof.
  revert bs; induction l as [|a t IH]; intros bs; simpl.
  - split; intros H.
    + injection H as <-. constructor.
    + inversion H. reflexivity.
  - split.
    + destruct (f a) as [b|e] eqn:Fa; simpl; [|discriminate].
      destruct (traverse f t) as [bt|e] eqn:Ft; simpl; [|discriminate].
      intros H; injection H as <-. constructor; [exact Fa|].
      apply IH. reflexivity.
    + intros H. inversion H as [|a' b' t' bt Fa Ft]; subst.
      rewrite Fa. simpl. apply IH in Ft. rewrite Ft. reflexivity.
Qed.

Lemma traverse_total {A B} (f : A -> result B) (l : list A) :
  (forall a, In a l -> exists b, f a = Ok b) ->
  exists bs, traverse f l = Ok bs.
Proof.
  induction l as [|a t IH]; intros H; simpl.
  - eexists; reflexivity.
  - destruct (H a (or_introl eq_refl)) as [b ->].
    destruct IH as [bs ->]; [intros; apply H; right; assumption|].
    simpl. eexists; reflexivity.
Qed.

Lemma traverse_In {A B} (f : A -> result B) (l : list A) (bs : list B) :
  traverse f l = Ok bs ->
  forall b, In b bs <-> exists a, In a l /\ f a = Ok b.
Proof.
  intros H; apply traverse_Forall2 in H.
  induction H as [|a b t bt Fa Ft IH]; intros y; simpl.
  - split; [tauto | intros (a & [] & _)].
  - rewrite IH. split.
    + intros [<- | (a' & Ha' & Fa')]; eauto.
    + intros (a' & [<- | Ha'] & Fa').
      * left. congruence.
      * right. eauto.
Qed.

Lemma Forall2_In_r {A B} (R : A -> B -> Prop) (l : list A) (l' : list B) b :
  Forall2 R l l' -> In b l' -> exists a, In a l /\ R a b.
Proof.
  induction 1 as [|x y t t' Rxy Rt IH]; intros Hin; [destruct Hin|].
  destruct Hin as [<- | Hin].
  - exists x. split; [left; reflexivity | assumption].
  - destruct (IH Hin) as (a & Ha & Ra). exists a. split; [right|]; assumption.
Qed.

Lemma Forall2_In_l {A B} (R : A -> B -> Prop) (l : list A) (l' : list B)
  (a : A) :
  Forall2 R l l' -> In a l -> exists b, In b l' /\ R a b.
Proof.
  induction 1 as [|x y t t' Rxy Rt IH]; intros Hin; [destruct Hin|].
  destruct Hin as [<- | Hin].
  - exists y. split; [left; reflexivity | assumption].
  - destruct (IH Hin) as (b & Hb & Rb). exists b. split; [right|]; assumption.
Qed.

Lemma in_with_serial {A} (next : Z) (l : list A) (k : Z) (a : A) :
  In (k, a) (with_serial next l) -> In a l.
Proof. unfold with_serial. apply in_combine_r. Qed.

Lemma with_serial_keys {A} (next : Z) (l : list A) :
  map fst (with_serial next l)
  = map (fun i => next + Z.of_nat i) (seq 0 (List.length l)).
Proof.
  unfold with_serial.
  assert (E : forall (ks : list Z) (xs : list A),
             List.length ks = List.length xs ->
             map fst (combine ks xs) = ks).
  { induction ks as [|k ks IH]; destruct xs; simpl; intros L;
      try discriminate; [reflexivity|].
    f_equal. apply IH. congruence. }
  apply E. rewrite length_map, length_seq. reflexivity.
Qed.

Lemma with_serial_values {A} (next : Z) (l : list A) :
  map snd (with_serial next l) = l.
Proof.
  unfold with_serial.
  assert (E : forall (xs : list A) (ks : list Z),
             List.length ks = List.length xs ->
             map snd (combine ks xs) = xs).
  { induction xs as [|x xs IH]; destruct ks; simpl; intros L;
      try discriminate; [reflexivity|].
    f_equal. apply IH. congruence. }
  apply E. rewrite length_map, length_seq. reflexivity.
Qed.

Lemma with_serial_NoDup {A} (next : Z) (l : list A) :
  NoDup (map fst (with_serial next l)).
Proof.
  rewrite with_serial_keys.
  apply Finite.Injective_map_NoDup; [|apply seq_NoDup].
  intros i j E. lia.
Qed.

Lemma in_with_serial_exists {A} (next : Z) (l : list A) (a : A) :
  In a l -> exists k, In (k, a) (with_serial next l).
Proof.
  intros H. rewrite <- (with_serial_values next l) in H.
  apply in_map_iff in H. destruct H as ([k a'] & E & Hin).
  simpl in E. subst. eauto.
Qed.

Lemma distinct_incl {A} (eqb : A -> A -> bool) (l : list A) (a : A) :
  In a (distinct eqb l) -> In a l.
Proof.
  induction l as [|x t IH]; simpl; [tauto|].
  intros [E | H]; [tauto|]. apply filter_In in H. right. tauto.
Qed.

(** With a test that decides equality, [distinct] keeps one copy of every
    element. *)
Lemma in_distinct {A} (eqb : A -> A -> bool) (l : list A) (a : A) :
  (forall x y, eqb x y = true <-> x = y) ->
  In a l -> In a (distinct eqb l).
Proof.
  intros Heq. induction l as [|x t IH]; simpl; [tauto|].
  intros [E | H]; [tauto|].
  destruct (eqb x a) eqn:X.
  - left. apply Heq. assumption.
  - right. apply filter_In. rewrite X. auto.
Qed.

Lemma distinct_NoDup {A} (eqb : A -> A -> bool) (l : list A) :
  (forall x y, eqb x y = true <-> x = y) -> NoDup (distinct eqb l).
Proof.
  intros Heq. induction l as [|x t IH]; simpl; constructor.
  - intros H. apply filter_In in H. destruct H as [_ H].
    assert (E : eqb x x = true) by (apply Heq; reflexivity).
    rewrite E in H. discriminate.
  - apply NoDup_filter. assumption.
Qed.

Lemma in_inner_join {A B} (on : A -> B -> bool) l r (a : A) (b : B) :
  In (a, b) (inner_join on l r) <-> In a l /\ In b r /\ on a b = true.
Proof.
  unfold inner_join. rewrite in_flat_map. split.
  - intros (a' & Ha & Hin). apply in_map_iff in Hin.
    destruct Hin as (b' & E & Hb). injection E as -> ->.
    apply filter_In in Hb. tauto.
  - intros (Ha & Hb & Hon). exists a. split; [assumption|].
    apply in_map. apply filter_In. tauto.
Qed.

Lemma in_matches_or_null {B} (ms : list B) (x : option B) :
  In x (matches_or_null ms) <->
  (ms = [] /\ x = None) \/ (exists b, In b ms /\ x = Some b).
Proof.
  destruct ms as [|m t]; simpl.
  - split.
    + intros [<- | []]. left. tauto.
    + intros [[_ ->] | (b & [] & _)]. left. reflexivity.
  - split.
    + intros [<- | H].
      * right. exists m. tauto.
      * apply in_map_iff in H. destruct H as (b & <- & Hb).
        right. exists b. tauto.
    + intros [[E _] | (b & [<- | Hb] & ->)]; [discriminate | tauto |].
      right. apply in_map. assumption.
Qed.

Lemma matches_or_null_nonempty {B} (ms : list B) :
  exists x, In x (matches_or_null ms).
Proof.
  destruct ms as [|m t]; simpl; eauto.
Qed.

(** *** NUMERIC arithmetic *)

Lemma pow10_pos (n : nat) : 0 < pow10 n.
Proof. unfold pow10. apply Z.pow_pos_nonneg; lia. Qed.

Lemma pow10_add (n m : nat) : pow10 (n + m) = pow10 n * pow10 m.
Proof.
  unfold pow10. rewrite Nat2Z.inj_add. apply Z.pow_add_r; lia.
Qed.

Lemma pow10_le (n m : nat) : (n <= m)%nat -> pow10 n <= pow10 m.
Proof.
  intros H. unfold pow10. apply Z.pow_le_mono_r; lia.
Qed.

Lemma at_scale_self (x : numeric) : at_scale (dscale x) x = unscaled x.
Proof.
  unfold at_scale. rewrite Nat.sub_diag. unfold pow10. simpl. lia.
Qed.

Lemma num_add_comm (a b : numeric) : num_add a b = num_add b a.
Proof.
  unfold num_add. rewrite (Nat.max_comm (dscale b)). f_equal. lia.
Qed.

Lemma num_add_zero_l (a : numeric) : num_add (of_int 0) a = a.
Proof.
  destruct a as [n s]. unfold num_add, at_scale. simpl.
  rewrite Nat.sub_diag. unfold dec, pow10. simpl. f_equal. lia.
Qed.

Lemma at_scale_nonneg (s : nat) (x : numeric) :
  0 <= unscaled x -> 0 <= at_scale s x.
Proof.
  intros H. unfold at_scale. pose proof (pow10_pos (s - dscale x)). nia.
Qed.

Lemma at_scale_pos (s : nat) (x : numeric) :
  0 < unscaled x <-> 0 < at_scale s x.
Proof.
  unfold at_scale. pose proof (pow10_pos (s - dscale x)). nia.
Qed.

Lemma num_add_nonneg (a b : numeric) :
  0 <= unscaled a -> 0 <= unscaled b -> 0 <= unscaled (num_add a b).
Proof.
  intros Ha Hb. simpl.
  pose proof (at_scale_nonneg (Nat.max (dscale a) (dscale b)) a Ha).
  pose proof (at_scale_nonneg (Nat.max (dscale a) (dscale b)) b Hb). lia.
Qed.

Lemma num_mul_nonneg (a b : numeric) :
  0 <= unscaled a -> 0 <= unscaled b -> 0 <= unscaled (num_mul a b).
Proof. intros Ha Hb. simpl. nia. Qed.

Lemma to_Q_nonneg (x : numeric) : (0 <= to_Q x)%Q <-> 0 <= unscaled x.
Proof. unfold to_Q, Qle. simpl. lia. Qed.

Lemma to_Q_pos (x : numeric) : (0 < to_Q x)%Q <-> 0 < unscaled x.
Proof. unfold to_Q, Qlt. simpl. lia. Qed.

Lemma to_Q_nonpos (x : numeric) : (to_Q x <= 0)%Q <-> unscaled x <= 0.
Proof. unfold to_Q, Qle. simpl. lia. Qed.

Lemma num_ltb_zero (a : numeric) :
  num_ltb (of_int 0) a = true <-> 0 < unscaled a.
Proof.
  unfold num_ltb. rewrite Z.ltb_lt. unfold at_scale at 1. simpl unscaled.
  rewrite Z.mul_0_l. symmetry. apply at_scale_pos.
Qed.

(** The leading base-10000 digit. *)

Lemma leading_digit_spec (fuel : nat) (m : Z) :
  0 < m -> m < 2 ^ Z.of_nat fuel ->
  let (i, d) := leading_digit fuel m in
  0 <= i /\ 1 <= d <= 9999 /\
  d * 10000 ^ i <= m < (d + 1) * 10000 ^ i.
Proof.
  revert m. induction fuel as [|f IH]; intros m Hm Hb.
  - simpl in Hb. lia.
  - cbn [leading_digit]. destruct (m <? 10000) eqn:E.
    + apply Z.ltb_lt in E. simpl. lia.
    + apply Z.ltb_ge in E.
      assert (Hq : 0 < m / 10000) by (apply Z.div_str_pos; lia).
      assert (Hf : m / 10000 < 2 ^ Z.of_nat f).
      { apply Z.div_lt_upper_bound; [lia|].
        rewrite Nat2Z.inj_succ, Z.pow_succ_r in Hb by lia.
        assert (0 < 2 ^ Z.of_nat f) by (apply Z.pow_pos_nonneg; lia). nia. }
      specialize (IH _ Hq Hf).
      destruct (leading_digit f (m / 10000)) as [i d].
      destruct IH as (Hi & Hd & Hlo & Hhi).
      split; [lia|]. split; [exact Hd|].
      rewrite Z.pow_add_r by lia. change (10000 ^ 1) with 10000.
      pose proof (Z.div_mod m 10000 ltac:(lia)) as DM.
      pose proof (Z.mod_pos_bound m 10000 ltac:(lia)) as MB.
      nia.
Qed.

Lemma log2_fuel (m : Z) : 0 < m -> m < 2 ^ Z.of_nat (S (Z.to_nat (Z.log2 m))).
Proof.
  intros H. rewrite Nat2Z.inj_succ, Z2Nat.id by apply Z.log2_nonneg.
  apply Z.log2_spec. exact H.
Qed.

(** The digits of a non-zero number, aligned on the decimal point. *)
Lemma weight_digit_spec (x : numeric) :
  unscaled x <> 0 ->
  exists i d k : Z,
    0 <= i /\ 0 <= k /\ 1 <= d <= 9999 /\
    weight_digit x = (i - k, d) /\
    Z.of_nat (dscale x) <= 4 * k /\
    d * 10000 ^ i * 10 ^ Z.of_nat (dscale x)
    <= Z.abs (unscaled x) * 10 ^ (4 * k) /\
    Z.abs (unscaled x) * 10 ^ (4 * k)
    < (d + 1) * 10000 ^ i * 10 ^ Z.of_nat (dscale x).
Proof.
  intros N. unfold weight_digit.
  destruct (unscaled x =? 0) eqn:E; [apply Z.eqb_eq in E; contradiction|].
  set (k := ((dscale x + 3) / 4)%nat).
  set (m := Z.abs (unscaled x) * pow10 (4 * k - dscale x)).
  assert (Hk : (dscale x <= 4 * k)%nat).
  { unfold k. pose proof (Nat.div_mod (dscale x + 3) 4 ltac:(lia)).
    pose proof (Nat.mod_upper_bound (dscale x + 3) 4 ltac:(lia)). lia. }
  assert (Hm : 0 < m).
  { unfold m. pose proof (pow10_pos (4 * k - dscale x)). lia. }
  pose proof (leading_digit_spec _ m Hm (log2_fuel m Hm)) as L.
  destruct (leading_digit (S (Z.to_nat (Z.log2 m))) m) as [i d].
  destruct L as (Hi & Hd & Hlo & Hhi).
  exists i, d, (Z.of_nat k).
  split; [exact Hi|]. split; [lia|]. split; [exact Hd|].
  split; [reflexivity|]. split; [lia|].
  assert (P : 10 ^ (4 * Z.of_nat k)
              = pow10 (4 * k - dscale x) * 10 ^ Z.of_nat (dscale x)).
  { unfold pow10. rewrite <- Z.pow_add_r by lia. f_equal. lia. }
  rewrite P. unfold m in Hlo, Hhi.
  assert (0 < 10 ^ Z.of_nat (dscale x)) by (apply Z.pow_pos_nonneg; lia).
  nia.
Qed.

Lemma round_div_nonzero (n d : Z) :
  d <> 0 -> Z.abs d <= 2 * Z.abs n -> round_div n d <> 0.
Proof.
  intros Hd H. unfold round_div.
  assert (1 <= (2 * Z.abs n + Z.abs d) / (2 * Z.abs d)).
  { apply Z.div_le_lower_bound; lia. }
  assert (n <> 0) by lia.
  destruct (Z.sgn_spec n) as [[? ->] | [[? ->] | [? ->]]];
  destruct (Z.sgn_spec d) as [[? ->] | [[? ->] | [? ->]]]; lia.
Qed.

(** The quotient rounds to the nearest number of its scale. *)
Lemma round_div_nearest (n d : Z) :
  d <> 0 -> 2 * Z.abs (round_div n d * d - n) <= Z.abs d.
Proof.
  intros Hd. unfold round_div.
  set (q := (2 * Z.abs n + Z.abs d) / (2 * Z.abs d)).
  assert (Hq : 2 * Z.abs d * q <= 2 * Z.abs n + Z.abs d
               < 2 * Z.abs d * (q + 1)).
  { unfold q. split.
    - apply Z.mul_div_le. lia.
    - rewrite Z.mul_add_distr_l, Z.mul_1_r.
      pose proof (Z.mod_pos_bound (2 * Z.abs n + Z.abs d) (2 * Z.abs d)
                    ltac:(lia)).
      pose proof (Z.div_mod (2 * Z.abs n + Z.abs d) (2 * Z.abs d)
                    ltac:(lia)).
      lia. }
  clearbody q.
  destruct (Z.sgn_spec n) as [[Hn ->] | [[Hn ->] | [Hn ->]]];
  destruct (Z.sgn_spec d) as [[Hd' ->] | [[Hd' ->] | [Hd' ->]]];
  try lia;
  destruct (Z.abs_spec n) as [[? En] | [? En]]; try lia;
  destruct (Z.abs_spec d) as [[? Ed] | [? Ed]]; try lia;
  rewrite En, Ed in *; nia.
Qed.

(** A quotient of non-zero numbers is not zero: the scale keeps sixteen
    significant digits. *)
Lemma quotient_nonzero (a b : numeric) :
  unscaled a <> 0 -> unscaled b <> 0 -> unscaled (quotient a b) <> 0.
Proof.
  intros Ha Hb. unfold quotient. simpl.
  set (r := select_div_scale a b).
  assert (Pb : 0 < pow10 (dscale a)) by apply pow10_pos.
  assert (Pr : 0 < pow10 (r + dscale b)) by apply pow10_pos.
  apply round_div_nonzero; [nia|].
  rewrite !Z.abs_mul.
  rewrite (Z.abs_eq (pow10 (dscale a))), (Z.abs_eq (pow10 (r + dscale b)))
    by lia.
  destruct (weight_digit_spec a Ha)
    as (i1 & d1 & k1 & Hi1 & Hk1 & Hd1 & W1 & S1 & Lo1 & _).
  destruct (weight_digit_spec b Hb)
    as (i2 & d2 & k2 & Hi2 & Hk2 & Hd2 & W2 & S2 & _ & Hi2').
  assert (R : 16 - 4 * ((i1 - k1) - (i2 - k2)
                        - (if d1 <=? d2 then 1 else 0))
              <= Z.of_nat r).
  { unfold r, select_div_scale. rewrite W1, W2. lia. }
  (* cross-multiply with the aligned digits *)
  set (A := Z.abs (unscaled a)) in *. set (B := Z.abs (unscaled b)) in *.
  unfold pow10. rewrite Nat2Z.inj_add.
  set (sa := Z.of_nat (dscale a)) in *. set (sb := Z.of_nat (dscale b)) in *.
  set (rz := Z.of_nat r) in *.
  assert (Hsa : 0 <= sa) by (unfold sa; lia).
  assert (Hsb : 0 <= sb) by (unfold sb; lia).
  assert (Hrz : 0 <= rz) by (unfold rz; lia).
  rewrite Z.pow_add_r by lia.
  (* it is enough to compare after scaling both sides by 10^(4k1+4k2) *)
  assert (P1 : 0 < 10 ^ (4 * k1)) by (apply Z.pow_pos_nonneg; lia).
  assert (P2 : 0 < 10 ^ (4 * k2)) by (apply Z.pow_pos_nonneg; lia).
  assert (Psa : 0 < 10 ^ sa) by (apply Z.pow_pos_nonneg; lia).
  assert (Psb : 0 < 10 ^ sb) by (apply Z.pow_pos_nonneg; lia).
  assert (Prz : 0 < 10 ^ rz) by (apply Z.pow_pos_nonneg; lia).
  assert (Pi1 : 0 < 10000 ^ i1) by (apply Z.pow_pos_nonneg; lia).
  assert (Pi2 : 0 < 10000 ^ i2) by (apply Z.pow_pos_nonneg; lia).
  (* the digits: d1 * 10000^i1 * 10^(4 k2) * 10^rz >= (d2+1) * 10000^i2 * 10^(4 k1) *)
  assert (Key : (d2 + 1) * 10000 ^ i2 * 10 ^ (4 * k1)
                <= d1 * 10000 ^ i1 * 10 ^ (4 * k2) * 10 ^ rz).
  { replace (10000 ^ i1) with (10 ^ (4 * i1))
      by (rewrite Z.pow_mul_r by lia; reflexivity).
    replace (10000 ^ i2) with (10 ^ (4 * i2))
      by (rewrite Z.pow_mul_r by lia; reflexivity).
    rewrite <- !Z.mul_assoc, <- !Z.pow_add_r by lia.
    set (X := 4 * i2 + 4 * k1). set (Y := 4 * i1 + (4 * k2 + rz)).
    destruct (d1 <=? d2) eqn:D.
    - apply Z.leb_le in D.
      assert (X + 4 <= Y) by (unfold X, Y; lia).
      assert (10 ^ X * 10 ^ 4 <= 10 ^ Y).
      { rewrite <- Z.pow_add_r by (unfold X; lia).
        apply Z.pow_le_mono_r; lia. }
      assert (0 < 10 ^ X) by (apply Z.pow_pos_nonneg; unfold X; lia).
      change (10 ^ 4) with 10000 in *. nia.
    - apply Z.leb_gt in D.
      assert (X <= Y) by (unfold X, Y; lia).
      assert (10 ^ X <= 10 ^ Y) by (apply Z.pow_le_mono_r; unfold X; lia).
      assert (0 < 10 ^ X) by (apply Z.pow_pos_nonneg; unfold X; lia).
      nia. }
  (* from [Lo1] and [Hi2'] *)
  assert (G : B * 10 ^ sa * (10 ^ (4 * k1) * 10 ^ (4 * k2))
              <= A * (10 ^ rz * 10 ^ sb) * (10 ^ (4 * k1) * 10 ^ (4 * k2))).
  { assert (B * 10 ^ (4 * k2) * (10 ^ sa * 10 ^ (4 * k1))
            <= (d2 + 1) * 10000 ^ i2 * 10 ^ sb * (10 ^ sa * 10 ^ (4 * k1)))
      by nia.
    assert (d1 * 10000 ^ i1 * 10 ^ sa * (10 ^ (4 * k2) * 10 ^ rz * 10 ^ sb)
            <= A * 10 ^ (4 * k1) * (10 ^ (4 * k2) * 10 ^ rz * 10 ^ sb))
      by nia.
    assert ((d2 + 1) * 10000 ^ i2 * 10 ^ (4 * k1) * (10 ^ sa * 10 ^ sb)
            <= d1 * 10000 ^ i1 * 10 ^ (4 * k2) * 10 ^ rz * (10 ^ sa * 10 ^ sb))
      by nia.
    lia. }
  assert (B * 10 ^ sa <= A * (10 ^ rz * 10 ^ sb)) by nia.
  lia.
Qed.

Lemma to_Q_div (x : numeric) :
  (to_Q x == inject_Z (unscaled x) / inject_Z (pow10 (dscale x)))%Q.
Proof.
  unfold to_Q. rewrite Qmake_Qdiv.
  rewrite Z2Pos.id by apply pow10_pos. reflexivity.
Qed.

Lemma inject_Z_nonzero (z : Z) : z <> 0 -> ~ (inject_Z z == 0)%Q.
Proof. intros H E. unfold Qeq in E. simpl in E. lia. Qed.

(** The quotient is the number of its scale nearest to the exact
    quotient. *)
Lemma quotient_nearest (a b : numeric) :
  unscaled b <> 0 ->
  (Qabs (to_Q (quotient a b) - to_Q a / to_Q b)
   <= 1 # 2 * Z.to_pos (pow10 (dscale (quotient a b))))%Q.
Proof.
  intros Hb.
  set (r := select_div_scale a b).
  set (n := unscaled a * pow10 (r + dscale b)).
  set (d := unscaled b * pow10 (dscale a)).
  assert (Hd : d <> 0) by (unfold d; pose proof (pow10_pos (dscale a)); nia).
  pose proof (round_div_nearest n d Hd) as N.
  assert (Pr := pow10_pos r). assert (Pa := pow10_pos (dscale a)).
  assert (Pb := pow10_pos (dscale b)).
  assert (E : (to_Q (quotient a b) - to_Q a / to_Q b
               == (inject_Z (round_div n d) * inject_Z d - inject_Z n)
                  / (inject_Z d * inject_Z (pow10 r)))%Q).
  { rewrite !to_Q_div. unfold quotient. fold r n d. simpl unscaled.
    simpl dscale. unfold n, d. rewrite pow10_add.
    rewrite !inject_Z_mult.
    field. repeat split; apply inject_Z_nonzero; lia. }
  rewrite E. clear E.
  unfold Qdiv. rewrite Qabs_Qmult, Qabs_Qinv.
  change (dscale (quotient a b)) with r.
  assert (Pd : (0 < Qabs (inject_Z d * inject_Z (pow10 r)))%Q).
  { rewrite <- inject_Z_mult. unfold Qlt, Qabs, inject_Z. simpl.
    pose proof (Z.abs_nonneg (d * pow10 r)).
    assert (d * pow10 r <> 0) by nia. lia. }
  apply Qle_shift_div_r; [exact Pd|].
  rewrite <- !inject_Z_mult.
  unfold Qle, Qabs, Qmult, Qminus, Qplus, Qopp, inject_Z.
  cbn [Qnum Qden].
  rewrite Pos.mul_1_r, Pos2Z.inj_mul, Z2Pos.id by lia.
  rewrite Z.abs_mul, (Z.abs_eq (pow10 r)) by lia.
  change (Z.pos (1 * 1)) with 1. change (Z.pos 2) with 2.
  rewrite !Z.mul_1_r, !Z.mul_1_l.
  replace (round_div n d * d + - n) with (round_div n d * d - n) by lia.
  nia.
Qed.

Lemma is_true_gt (x : option numeric) :
  is_true (gt x (Some (of_int 0))) = true
  <-> exists a, x = Some a /\ 0 < unscaled a.
Proof.
  destruct x as [a|]; simpl.
  - destruct (num_ltb (of_int 0) a) eqn:E.
    + split; [|reflexivity]. intros _. exists a.
      split; [reflexivity | apply num_ltb_zero; assumption].
    + split; [discriminate|]. intros (a' & Ea & La). injection Ea as <-.
      apply num_ltb_zero in La. congruence.
  - split; [discriminate | intros (a & Ea & _); discriminate].
Qed.

Lemma div_nonzero (x : option numeric) (b : numeric) :
  unscaled b <> 0 ->
  div x (Some b) = Ok (option_map (fun a => quotient a b) x).
Proof.
  intros H. unfold div, is_zero. destruct x as [a|]; [|reflexivity].
  apply Z.eqb_neq in H. rewrite H. reflexivity.
Qed.

Lemma div_null (x : option numeric) : div x None = Ok None.
Proof. destruct x; reflexivity. Qed.

End SqlFacts.

(** ** The fact tables *)

Module FactProps.
Import Sql Staging Dimensions Facts SqlFacts.

(** The allocation never divides by zero, and its value is the rounded
    share of the line in the gross of the order, times the discount. *)
Lemma allocated_order_discount_value (l : stg_order_line) (fo : fact_order) :
  exists a, allocated_order_discount l fo = Ok a /\
    (forall g, fo_gross_product_sales fo = Some g -> (0 < to_Q g)%Q ->
       a = option_map (fun r => num_mul (quotient r g)
                                        (fo_order_discount_amount fo))
                      (line_gross l)) /\
    (forall g, fo_gross_product_sales fo = Some g -> (to_Q g <= 0)%Q ->
       a = Some (of_int 0)) /\
    (fo_gross_product_sales fo = None -> a = Some (of_int 0)).
Proof.
  unfold allocated_order_discount.
  destruct (is_true (gt (fo_gross_product_sales fo) (Some (of_int 0)))) eqn:G.
  - apply is_true_gt in G. destruct G as (g & Eg & Lg).
    rewrite Eg. rewrite div_nonzero by lia.
    simpl. eexists. split; [reflexivity|]. split; [|split].
    + intros g' E L. injection E as <-.
      destruct (line_gross l); reflexivity.
    + intros g' E L. injection E as <-.
      apply to_Q_nonpos in L. lia.
    + discriminate.
  - exists (Some (of_int 0)). split; [reflexivity|]. split; [|split].
    + intros g E L. exfalso. apply to_Q_pos in L.
      assert (T : is_true (gt (fo_gross_product_sales fo) (Some (of_int 0)))
                  = true)
        by (apply is_true_gt; eauto).
      congruence.
    + reflexivity.
    + reflexivity.
Qed.

Lemma line_with_allocation_total lines orders :
  exists lwas, line_with_allocation lines orders = Ok lwas.
Proof.
  unfold line_with_allocation. apply traverse_total.
  intros [l fo] _. simpl.
  destruct (allocated_order_discount_value l fo) as (a & -> & _).
  simpl. eexists; reflexivity.
Qed.

(** Every row of the order-line fact comes from a staged line, the order
    fact it joins and the allocation computed for the pair. *)
Lemma in_build_fact_order_line next lines orders skm products fols f :
  build_fact_order_line next lines orders skm products = Ok fols ->
  In f fols ->
  exists l fo a dp k,
    In l lines /\ In fo orders /\ sl_order_id l = fo_order_id fo /\
    allocated_order_discount l fo = Ok a /\
    f = order_line_row (l, fo, a) dp k.
Proof.
  unfold build_fact_order_line.
  destruct (line_with_allocation lines orders) as [lwas|e] eqn:E;
    simpl; [|discriminate].
  intros H; injection H as <-. intros Hin.
  apply in_map_iff in Hin. destruct Hin as ([k g] & <- & Hk).
  apply in_with_serial in Hk. apply in_flat_map in Hk.
  destruct Hk as (lwa & Hlwa & Hg).
  unfold product_joins in Hg. apply in_flat_map in Hg.
  destruct Hg as (m & _ & Hg). apply in_map_iff in Hg.
  destruct Hg as (dp & <- & _).
  unfold line_with_allocation in E.
  apply (traverse_In _ _ _ E) in Hlwa. destruct Hlwa as ([l fo] & Hj & Ha).
  apply in_inner_join in Hj. destruct Hj as (Hl & Hfo & Hon).
  simpl in Ha. destruct (allocated_order_discount l fo) as [a|] eqn:Ea;
    simpl in Ha; [|discriminate].
  injection Ha as <-.
  exists l, fo, a, dp, k. simpl. repeat split; try assumption.
  apply Z.eqb_eq. assumption.
Qed.

(** C1, as amended.  The order-line statement never fails (no division
    by zero, for any order), and on every row it inserts the allocated
    order-level discount is the quotient [gross line revenue /
    gross_product_sales], rounded as NUMERIC division rounds it (to the
    nearest number of the scale that the division selects, a half away
    from zero), times the [order_discount_amount] of the order fact it
    joins, when that order's [gross_product_sales] is strictly positive;
    it is 0 when [gross_product_sales] is zero, negative or NULL. *)
Theorem allocated_discount_proportional :
  forall next lines orders skm products,
  exists fols,
    build_fact_order_line next lines orders skm products = Ok fols /\
    forall f, In f fols ->
      exists fo, In fo orders /\ fo_order_id fo = fol_order_id f /\
        fo_order_key fo = fol_order_key f /\
        (forall g, fo_gross_product_sales fo = Some g -> (0 < to_Q g)%Q ->
           fol_allocated_order_discount f
           = option_map (fun r => num_mul (quotient r g)
                                          (fo_order_discount_amount fo))
                        (fol_gross_line_revenue f) /\
           forall r, fol_gross_line_revenue f = Some r ->
             let q := quotient r g in
             (Qabs (to_Q q - to_Q r / to_Q g)
              <= 1 # 2 * Z.to_pos (pow10 (dscale q)))%Q) /\
        (forall g, fo_gross_product_sales fo = Some g -> (to_Q g <= 0)%Q ->
           fol_allocated_order_discount f = Some (of_int 0)) /\
        (fo_gross_product_sales fo = None ->
           fol_allocated_order_discount f = Some (of_int 0)).
Proof.
  intros next lines orders skm products.
  destruct (line_with_allocation_total lines orders) as (lwas & E).
  assert (B : exists fols,
             build_fact_order_line next lines orders skm products = Ok fols).
  { unfold build_fact_order_line. rewrite E. simpl. eexists; reflexivity. }
  destruct B as (fols & B). exists fols. split; [exact B|].
  intros f Hf.
  destruct (in_build_fact_order_line _ _ _ _ _ _ _ B Hf)
    as (l & fo & a & dp & k & Hl & Hfo & Hid & Ha & ->).
  destruct (allocated_order_discount_value l fo) as (a' & Ea & P1 & P2 & P3).
  rewrite Ea in Ha; injection Ha as <-.
  exists fo. simpl. split; [assumption|]. split; [congruence|].
  split; [reflexivity|]. split; [|split; [exact P2 | exact P3]].
  intros g Eg Lg. split; [exact (P1 g Eg Lg)|].
  intros r _. cbv zeta. apply quotient_nearest. apply to_Q_pos in Lg. lia.
Qed.

Lemma in_summarize_lines lines s :
  In s (summarize_lines lines) ->
  exists l, In l lines /\ sl_order_id l = ols_order_id s.
Proof.
  unfold summarize_lines. intros H. apply in_map_iff in H.
  destruct H as (oid & <- & H). apply distinct_incl in H.
  apply in_map_iff in H. destruct H as (l & <- & Hl). simpl. eauto.
Qed.

(** Every row of the order fact comes from a staged order and one row (or
    the NULL padding) of each joined table. *)
Lemma in_build_fact_order C next orders lines customers channels methods
  facts f :
  build_fact_order C next orders lines customers channels methods = Ok facts ->
  In f facts ->
  exists o ols dc ch sm k ck,
    In o orders /\
    In ols (matches_or_null
              (filter (fun s => so_order_id o =? ols_order_id s)
                      (summarize_lines lines))) /\
    channel_key_of channels ch = Ok ck /\
    f = order_fact_record ck methods o ols dc sm k.
Proof.
  unfold build_fact_order.
  destruct (traverse (order_hash C) orders) as [ohs|e] eqn:E;
    simpl; [|discriminate].
  intros T Hin.
  apply (traverse_In _ _ _ T) in Hin. destruct Hin as ([k g] & Hk & Eg).
  simpl in Eg.
  apply in_with_serial in Hk. apply in_flat_map in Hk.
  destruct Hk as ([o h] & Hoh & Hg).
  apply (traverse_In _ _ _ E) in Hoh. destruct Hoh as (o' & Ho' & Eo').
  assert (o' = o).
  { unfold order_hash in Eo'. destruct (so_email o').
    - destruct (customer_id_hash C s); simpl in Eo'; congruence.
    - congruence. }
  subst o'.
  unfold order_joins in Hg.
  apply in_flat_map in Hg. destruct Hg as (ols & Hols & Hg).
  apply in_flat_map in Hg. destruct Hg as (dc & _ & Hg).
  apply in_flat_map in Hg. destruct Hg as (ch & _ & Hg).
  apply in_map_iff in Hg. destruct Hg as (sm & <- & _).
  unfold order_fact_row in Eg.
  destruct (channel_key_of channels ch) as [ck|] eqn:CK;
    simpl in Eg; [|discriminate].
  injection Eg as <-.
  exists o, ols, dc, ch, sm, k, ck. auto.
Qed.

(** Every staged order has at least one row in the order fact. *)
Lemma build_fact_order_covers C next orders lines customers channels methods
  facts o :
  build_fact_order C next orders lines customers channels methods = Ok facts ->
  In o orders ->
  exists ols dc ch sm k ck,
    In ch (matches_or_null
             (filter (fun c => eq_key String.eqb
                                      (option_map lower (so_source o))
                                      (Some (ch_channel_code c)))
                     channels)) /\
    channel_key_of channels ch = Ok ck /\
    In (order_fact_record ck methods o ols dc sm k) facts.
Proof.
  unfold build_fact_order.
  destruct (traverse (order_hash C) orders) as [ohs|e] eqn:E;
    simpl; [|discriminate].
  intros T Ho.
  assert (Hoh : exists h, In (o, h) ohs).
  { apply traverse_Forall2 in E. clear - E Ho.
    induction E as [|a b t bt Fa Ft IH]; [destruct Ho|].
    destruct Ho as [-> | Ho].
    - unfold order_hash in Fa. destruct (so_email o).
      + destruct (customer_id_hash C s); simpl in Fa; [|discriminate].
        injection Fa as <-. eexists; left; reflexivity.
      + injection Fa as <-. eexists; left; reflexivity.
    - destruct (IH Ho) as (h & Hh). exists h. right. assumption. }
  destruct Hoh as (h & Hoh).
  destruct (matches_or_null_nonempty
              (filter (fun s => so_order_id o =? ols_order_id s)
                      (summarize_lines lines))) as (ols & Hols).
  destruct (matches_or_null_nonempty
              (filter (fun c => eq_key String.eqb h
                                       (Some (dc_customer_id_hash c)))
                      customers)) as (dc & Hdc).
  destruct (matches_or_null_nonempty
              (filter (fun c => eq_key String.eqb
                                       (option_map lower (so_source o))
                                       (Some (ch_channel_code c)))
                      channels)) as (ch & Hch).
  destruct (matches_or_null_nonempty
              (filter (fun m => eq_key String.eqb
                                  (option_map shipping_method_code
                                              (so_shipping_method o))
                                  (Some (sh_code (ds_method m))))
                      methods)) as (sm & Hsm).
  assert (Hg : In (order_fact_row channels methods o ols dc ch sm)
                  (flat_map (order_joins lines customers channels methods)
                            ohs)).
  { apply in_flat_map. exists (o, h). split; [assumption|].
    unfold order_joins.
    apply in_flat_map. exists ols. split; [assumption|].
    apply in_flat_map. exists dc. split; [assumption|].
    apply in_flat_map. exists ch. split; [assumption|].
    apply in_map. assumption. }
  destruct (in_with_serial_exists next _ _ Hg) as (k & Hk).
  apply traverse_Forall2 in T.
  destruct (Forall2_In_l _ _ _ _ T Hk) as (f & Hf & Ef). simpl in Ef.
  unfold order_fact_row in Ef.
  destruct (channel_key_of channels ch) as [ck|] eqn:CK; simpl in Ef;
    [|discriminate].
  injection Ef as <-.
  exists ols, dc, ch, sm, k, ck. auto.
Qed.

(** C10.  When the order-fact statement succeeds, every staged order has a
    row in the order fact, and the rows of an order without any staged line
    report [line_item_count = 1] and [unit_count = 1], with
    [gross_product_sales] the order's [subtotal + discount_amount]. *)
Theorem order_without_lines_defaults :
  forall C next orders lines customers channels methods facts,
    build_fact_order C next orders lines customers channels methods
    = Ok facts ->
    (forall o, In o orders ->
       exists f, In f facts /\ fo_order_id f = so_order_id o) /\
    (forall f, In f facts ->
       (forall l, In l lines -> sl_order_id l <> fo_order_id f) ->
       fo_line_item_count f = 1 /\ fo_unit_count f = 1 /\
       exists o, In o orders /\ so_order_id o = fo_order_id f /\
         fo_gross_product_sales f
         = add (so_subtotal o) (Some (so_discount_amount o))).
Proof.
  intros C next orders lines customers channels methods facts B. split.
  - intros o Ho.
    destruct (build_fact_order_covers _ _ _ _ _ _ _ _ _ B Ho)
      as (ols & dc & ch & sm & k & ck & _ & _ & Hin).
    eexists. split; [exact Hin | reflexivity].
  - intros f Hf Hnone.
    destruct (in_build_fact_order _ _ _ _ _ _ _ _ _ B Hf)
      as (o & ols & dc & ch & sm & k & ck & Ho & Hols & _ & ->).
    simpl in Hnone.
    assert (ols = None).
    { apply in_matches_or_null in Hols.
      destruct Hols as [[_ E] | (s & Hs & _)]; [assumption|].
      apply filter_In in Hs. destruct Hs as [Hs Hid].
      apply in_summarize_lines in Hs. destruct Hs as (l & Hl & El).
      apply Z.eqb_eq in Hid. exfalso. apply (Hnone l Hl). congruence. }
    subst ols. simpl. split; [reflexivity|]. split; [reflexivity|].
    exists o. auto.
Qed.

(** *** The COGS rollup *)

Lemma sum_agg_total (g : list fact_cogs_estimate) :
  coalesce (sum_agg (map fce_line_cost g)) (of_int 0) = total_line_cost g.
Proof.
  unfold total_line_cost.
  induction g as [|c t IH]; simpl; [reflexivity|].
  destruct (fce_line_cost c) as [a|]; simpl.
  - rewrite IH. apply num_add_comm.
  - rewrite IH. symmetry. apply num_add_zero_l.
Qed.

Lemma bool_or_missing (g : list fact_cogs_estimate) :
  g <> [] ->
  bool_or (map (fun c => Some (negb (fce_has_known_cost c))) g)
  = Some (existsb (fun c => negb (fce_has_known_cost c)) g).
Proof.
  induction g as [|c t IH]; intros N; [congruence|]. simpl.
  destruct t as [|c' t']; [simpl; rewrite orb_false_r; reflexivity|].
  rewrite IH by discriminate. reflexivity.
Qed.

Lemma estimates_nonempty (k : Z) (cogs : list fact_cogs_estimate) :
  estimates_of k cogs <> [] <-> In k (map fce_order_line_key cogs).
Proof.
  unfold estimates_of. induction cogs as [|c t IH]; simpl.
  - tauto.
  - destruct (fce_order_line_key c =? k) eqn:E.
    + apply Z.eqb_eq in E. split; [auto | discriminate].
    + apply Z.eqb_neq in E. rewrite IH. split; [auto|].
      intros [H | H]; [contradiction | assumption].
Qed.

Lemma find_by_key (f : Z -> cogs_summary) (k : Z) (keys : list Z) :
  (forall x, cgs_order_line_key (f x) = x) ->
  find (fun cs => k =? cgs_order_line_key cs) (map f keys)
  = if existsb (Z.eqb k) keys then Some (f k) else None.
Proof.
  intros Hf. induction keys as [|x t IH]; simpl; [reflexivity|].
  rewrite Hf. destruct (k =? x) eqn:E; simpl.
  - apply Z.eqb_eq in E. subst. reflexivity.
  - exact IH.
Qed.

(** The summary joined to a line by the first [UPDATE]: the one of its
    estimate rows, when it has any. *)
Lemma find_cogs_summary (k : Z) (cogs : list fact_cogs_estimate) :
  find (fun cs => k =? cgs_order_line_key cs) (summarize_cogs cogs)
  = match estimates_of k cogs with
    | [] => None
    | _ => Some (summary_of k cogs)
    end.
Proof.
  unfold summarize_cogs.
  rewrite (find_by_key (fun x => summary_of x cogs)) by reflexivity.
  destruct (existsb (Z.eqb k) (distinct Z.eqb (map fce_order_line_key cogs)))
    eqn:E.
  - apply existsb_exists in E. destruct E as (x & Hx & Ex).
    apply Z.eqb_eq in Ex. subst x. apply distinct_incl in Hx.
    apply estimates_nonempty in Hx.
    destruct (estimates_of k cogs); [congruence | reflexivity].
  - destruct (estimates_of k cogs) eqn:G; [reflexivity|]. exfalso.
    assert (N : estimates_of k cogs <> []) by (rewrite G; discriminate).
    apply estimates_nonempty in N.
    apply (in_distinct Z.eqb) in N; [|apply Z.eqb_eq].
    assert (T : existsb (Z.eqb k)
                  (distinct Z.eqb (map fce_order_line_key cogs)) = true).
    { apply existsb_exists. exists k. split; [assumption | apply Z.eqb_refl]. }
    congruence.
Qed.

Lemma revenue_per_unit_ok (fol : fact_order_line) :
  revenue_per_unit fol = Ok (per_unit fol).
Proof.
  unfold revenue_per_unit, per_unit, nullif_zero.
  destruct (fol_quantity fol =? 0) eqn:Q; simpl.
  - apply div_null.
  - apply div_nonzero. simpl. apply Z.eqb_neq. exact Q.
Qed.

Lemma set_cogs_ok (fol : fact_order_line) (cs : cogs_summary) :
  exists f, set_cogs fol cs = Ok f /\
    fol_order_line_key f = fol_order_line_key fol /\
    fol_product_key f = fol_product_key fol /\
    fol_quantity f = fol_quantity fol /\
    fol_net_line_revenue f = fol_net_line_revenue fol /\
    fol_estimated_cogs f = Some (coalesce (cgs_total_cogs cs) (of_int 0)) /\
    fol_has_missing_cost f = Some (coalesce (cgs_has_missing_cost cs) true) /\
    fol_gross_margin f
    = sub (per_unit fol) (Some (coalesce (cgs_total_cogs cs) (of_int 0))) /\
    fol_margin_percent f
    = margin_percent_of fol (coalesce (cgs_total_cogs cs) (of_int 0)).
Proof.
  set (cogs := coalesce (cgs_total_cogs cs) (of_int 0)).
  assert (P : exists pct,
             (if is_true (gt (fol_net_line_revenue fol) (Some (of_int 0)))
              then
                q <- div (sub (per_unit fol) (Some cogs)) (per_unit fol) ;;
                Ok (mul q (Some (of_int 100)))
              else Ok (Some (of_int 0))) = Ok pct /\
             pct = margin_percent_of fol cogs).
  { unfold margin_percent_of, per_unit.
    destruct (fol_net_line_revenue fol) as [n|];
      [|eexists; split; reflexivity].
    cbn [gt lift2 is_true].
    destruct (num_ltb (of_int 0) n) eqn:L; [|eexists; split; reflexivity].
    assert (Hn : unscaled n <> 0) by (apply num_ltb_zero in L; lia).
    destruct (fol_quantity fol =? 0) eqn:Q;
      [eexists; split; reflexivity|].
    cbn [option_map sub lift2].
    rewrite div_nonzero.
    - eexists; split; reflexivity.
    - apply quotient_nonzero; [assumption|].
      simpl. apply Z.eqb_neq. exact Q. }
  destruct P as (pct & Ep & Vp).
  unfold set_cogs. fold cogs. rewrite revenue_per_unit_ok.
  cbn [bind]. rewrite Ep. cbn [bind].
  eexists. split; [reflexivity|]. cbn. rewrite Vp. tauto.
Qed.

Lemma set_defaults_ok (fol : fact_order_line) :
  exists f, set_defaults fol = Ok f /\
    fol_order_line_key f = fol_order_line_key fol /\
    fol_product_key f = fol_product_key fol /\
    fol_estimated_cogs f = Some (of_int 0) /\
    fol_has_missing_cost f = Some true /\
    fol_margin_percent f = Some (of_int 100).
Proof.
  unfold set_defaults. rewrite revenue_per_unit_ok. simpl.
  eexists. split; [reflexivity|]. simpl. tauto.
Qed.

Lemma traverse_compose {A B D} (f : A -> result B) (g : B -> result D)
  (l : list A) (l1 : list B) (l2 : list D) :
  traverse f l = Ok l1 -> traverse g l1 = Ok l2 ->
  Forall2 (fun a d => exists b, f a = Ok b /\ g b = Ok d) l l2.
Proof.
  intros H1 H2. apply traverse_Forall2 in H1. apply traverse_Forall2 in H2.
  revert l2 H2. induction H1 as [|a b t bt Fa Ft IH]; intros l2 H2.
  - inversion H2. constructor.
  - inversion H2 as [|b' d bt' dt Gb Gt]; subst. constructor; eauto.
Qed.

(** The two [UPDATE]s on one line never fail. *)
Lemma update_row (cogs : list fact_cogs_estimate) (f0 : fact_order_line) :
  exists f1 f,
    match find (fun cs => fol_order_line_key f0 =? cgs_order_line_key cs)
               (summarize_cogs cogs) with
    | Some cs => set_cogs f0 cs
    | None => Ok f0
    end = Ok f1 /\
    match fol_estimated_cogs f1 with
    | None => set_defaults f1
    | Some _ => Ok f1
    end = Ok f /\
    updated cogs f0 f.
Proof.
  unfold updated. rewrite find_cogs_summary.
  destruct (estimates_of (fol_order_line_key f0) cogs) as [|c g] eqn:G.
  - exists f0. destruct (fol_estimated_cogs f0) as [e|] eqn:E.
    + exists f0. auto.
    + destruct (set_defaults_ok f0) as (f & -> & K & P & D).
      exists f. auto.
  - destruct (set_cogs_ok f0 (summary_of (fol_order_line_key f0) cogs))
      as (f1 & -> & K & P & Q & N & E & M & GM & MP).
    simpl in E, M, GM, MP. rewrite sum_agg_total in E, GM, MP.
    rewrite G in E, M, GM, MP.
    rewrite bool_or_missing in M by discriminate. simpl coalesce in M.
    exists f1, f1. split; [reflexivity|].
    split; [rewrite E; reflexivity|]. tauto.
Qed.

(** The update of the COGS columns never fails, and relates the lines
    before and after row by row. *)
Lemma update_cogs_rows (fols : list fact_order_line)
  (cogs : list fact_cogs_estimate) :
  exists fols', update_cogs fols cogs = Ok fols' /\
    Forall2 (updated cogs) fols fols'.
Proof.
  unfold update_cogs.
  destruct (traverse_total
              (fun fol =>
                 match find (fun cs => fol_order_line_key fol
                                       =? cgs_order_line_key cs)
                            (summarize_cogs cogs) with
                 | Some cs => set_cogs fol cs
                 | None => Ok fol
                 end) fols) as (fols1 & E1).
  { intros f0 _. destruct (update_row cogs f0) as (f1 & _ & -> & _). eauto. }
  assert (T2 : exists fols', update_defaults fols1 = Ok fols').
  { apply traverse_total. intros f1 _.
    destruct (fol_estimated_cogs f1); [eauto|].
    destruct (set_defaults_ok f1) as (f & -> & _). eauto. }
  destruct T2 as (fols' & E2).
  unfold update_from_summary. rewrite E1. simpl. exists fols'.
  split; [exact E2|].
  pose proof (traverse_compose _ _ _ _ _ E1 E2) as F.
  eapply Forall2_impl; [|exact F].
  intros f0 f (f1 & S1 & S2). simpl in S1, S2.
  destruct (update_row cogs f0) as (f1' & f' & S1' & S2' & U).
  rewrite S1 in S1'. injection S1' as <-.
  rewrite S2 in S2'. injection S2' as <-. exact U.
Qed.

Lemma updated_keys cogs fols fols' :
  Forall2 (updated cogs) fols fols' ->
  map fol_order_line_key fols' = map fol_order_line_key fols.
Proof.
  induction 1 as [|f0 f t t' U Ut IH]; simpl; [reflexivity|].
  destruct U as (K & _). congruence.
Qed.

(** C2.  The update of the COGS columns never fails and keeps the lines;
    on every line with at least one estimate row, [has_missing_cost] is
    the disjunction of the negated known-cost flags of these rows (true
    exactly when one of them has an unknown cost), and [estimated_cogs] is
    the sum of their line costs. *)
Theorem cogs_rollup_per_line :
  forall fols cogs,
  exists fols',
    update_cogs fols cogs = Ok fols' /\
    map fol_order_line_key fols' = map fol_order_line_key fols /\
    forall f, In f fols' ->
      let g := estimates_of (fol_order_line_key f) cogs in
      g <> [] ->
      fol_has_missing_cost f
      = Some (existsb (fun c => negb (fce_has_known_cost c)) g) /\
      (fol_has_missing_cost f = Some true <->
       exists c, In c g /\ fce_has_known_cost c = false) /\
      fol_estimated_cogs f = Some (total_line_cost g).
Proof.
  intros fols cogs.
  destruct (update_cogs_rows fols cogs) as (fols' & E & F).
  exists fols'. split; [exact E|]. split; [exact (updated_keys _ _ _ F)|].
  intros f Hf g Hg.
  destruct (Forall2_In_r _ _ _ _ F Hf) as (f0 & _ & K & _ & U).
  subst g. rewrite K in *.
  destruct (estimates_of (fol_order_line_key f0) cogs) as [|c g] eqn:G;
    [congruence|].
  destruct U as (_ & _ & Ec & Em & _).
  remember (c :: g) as gs eqn:Egs. clear Egs.
  split; [exact Em|]. split; [|exact Ec].
  rewrite Em. split.
  - intros H. injection H as H. apply existsb_exists in H.
    destruct H as (x & Hx & Nx). exists x. split; [assumption|].
    destruct (fce_has_known_cost x); [discriminate | reflexivity].
  - intros (x & Hx & Nx). f_equal. apply existsb_exists. exists x.
    split; [assumption|]. rewrite Nx. reflexivity.
Qed.

(** C3, as amended.  The update never fails, and on every line with at
    least one estimate row: the margin is the net line revenue per unit
    -- the quotient [net_line_revenue / quantity], rounded as NUMERIC
    division rounds it -- minus the estimated COGS, and NULL when the
    quantity is 0 or the net line revenue is NULL; when the net line
    revenue is strictly positive, the margin percentage is the quotient
    of the margin by the revenue per unit, rounded again, times 100, and
    NULL on a quantity of 0; it is 0 when the net line revenue is zero,
    negative or NULL. *)
Theorem margin_per_unit :
  forall fols cogs,
  exists fols',
    update_cogs fols cogs = Ok fols' /\
    forall f, In f fols' ->
      estimates_of (fol_order_line_key f) cogs <> [] ->
      exists c, fol_estimated_cogs f = Some c /\
        (forall n, fol_net_line_revenue f = Some n -> fol_quantity f <> 0 ->
           let u := quotient n (of_int (fol_quantity f)) in
           fol_gross_margin f = Some (num_sub u c) /\
           ((0 < to_Q n)%Q ->
            fol_margin_percent f
            = Some (num_mul (quotient (num_sub u c) u) (of_int 100)) /\
            (Qabs (to_Q u - to_Q n / inject_Z (fol_quantity f))
             <= 1 # 2 * Z.to_pos (pow10 (dscale u)))%Q)) /\
        (forall n, fol_net_line_revenue f = Some n -> fol_quantity f = 0 ->
           fol_gross_margin f = None /\
           ((0 < to_Q n)%Q -> fol_margin_percent f = None)) /\
        (forall n, fol_net_line_revenue f = Some n -> (to_Q n <= 0)%Q ->
           fol_margin_percent f = Some (of_int 0)) /\
        (fol_net_line_revenue f = None ->
           fol_gross_margin f = None /\
           fol_margin_percent f = Some (of_int 0)).
Proof.
  intros fols cogs.
  destruct (update_cogs_rows fols cogs) as (fols' & E & F).
  exists fols'. split; [exact E|].
  intros f Hf Hg.
  destruct (Forall2_In_r _ _ _ _ F Hf) as (f0 & _ & K & _ & U).
  rewrite K in Hg.
  destruct (estimates_of (fol_order_line_key f0) cogs) as [|x g] eqn:G;
    [congruence|].
  destruct U as (Q & N & Ec & _ & Gm & Mp).
  exists (total_line_cost (x :: g)). split; [exact Ec|].
  unfold margin_percent_of, per_unit in *. rewrite <- Q, <- N in *.
  split; [|split; [|split]].
  - intros n En Hq. cbv zeta. rewrite Gm, Mp, En.
    apply Z.eqb_neq in Hq. rewrite Hq.
    split; [reflexivity|]. intros Ln.
    pose proof Ln as Ln'. apply to_Q_pos, num_ltb_zero in Ln'.
    rewrite Ln'. split; [reflexivity|].
    apply Z.eqb_neq in Hq.
    pose proof (quotient_nearest n (of_int (fol_quantity f)) Hq) as A.
    assert (I : (to_Q (of_int (fol_quantity f))
                 == inject_Z (fol_quantity f))%Q) by reflexivity.
    rewrite I in A. exact A.
  - intros n En Hq. rewrite Gm, Mp, En, Hq.
    split; [reflexivity|]. intros Ln.
    apply to_Q_pos, num_ltb_zero in Ln. rewrite Ln. reflexivity.
  - intros n En Ln. rewrite Mp, En.
    destruct (num_ltb (of_int 0) n) eqn:L; [|reflexivity].
    apply num_ltb_zero in L. apply to_Q_nonpos in Ln. lia.
  - intros En. rewrite Gm, Mp, En.
    destruct (fol_quantity f =? 0); split; reflexivity.
Qed.

Lemma NoDup_key_inj {A} (key : A -> Z) (l : list A) (a b : A) :
  NoDup (map key l) -> In a l -> In b l -> key a = key b -> a = b.
Proof.
  induction l as [|x t IH]; simpl; intros N Ha Hb E; [destruct Ha|].
  inversion N as [|? ? Nx Nt]; subst.
  destruct Ha as [-> | Ha], Hb as [-> | Hb].
  - reflexivity.
  - exfalso. apply Nx. rewrite E. apply in_map. assumption.
  - exfalso. apply Nx. rewrite <- E. apply in_map. assumption.
  - apply IH; assumption.
Qed.

(** The lines leave the order-line statement with distinct keys and with
    NULL in their COGS columns. *)
Lemma build_fact_order_line_fresh next lines orders skm products fols :
  build_fact_order_line next lines orders skm products = Ok fols ->
  NoDup (map fol_order_line_key fols) /\
  forall f, In f fols -> fol_estimated_cogs f = None.
Proof.
  intros B. split.
  - unfold build_fact_order_line in B.
    destruct (line_with_allocation lines orders) as [lwas|e];
      simpl in B; [|discriminate].
    injection B as <-.
    set (rows := flat_map (product_joins skm products) lwas).
    assert (R : forall g, In g rows -> forall k, fol_order_line_key (g k) = k).
    { intros g Hg. unfold rows in Hg. apply in_flat_map in Hg.
      destruct Hg as ([[l fo] a] & _ & Hg). unfold product_joins in Hg.
      apply in_flat_map in Hg. destruct Hg as (m & _ & Hg).
      apply in_map_iff in Hg. destruct Hg as (dp & <- & _).
      reflexivity. }
    rewrite map_map.
    rewrite (map_ext_in _ fst).
    + apply with_serial_NoDup.
    + intros [k g] Hk. simpl. apply R. eapply in_with_serial. exact Hk.
  - intros f Hf.
    destruct (in_build_fact_order_line _ _ _ _ _ _ _ B Hf)
      as (l & fo & a & dp & k & _ & _ & _ & _ & ->).
    reflexivity.
Qed.

(** Every estimate row comes from a line with a product and a recipe row
    that matches this product. *)
Lemma in_build_fact_cogs_estimate fols products recipes materials c :
  In c (build_fact_cogs_estimate fols products recipes materials) ->
  exists fol dp r,
    In fol fols /\ fce_order_line_key c = fol_order_line_key fol /\
    In dp products /\ fol_product_key fol = Some (dp_product_key dp) /\
    In r recipes /\ recipe_matches dp r = true.
Proof.
  unfold build_fact_cogs_estimate. intros H.
  apply in_flat_map in H. destruct H as (fol & Hfol & H).
  apply in_flat_map in H. destruct H as (dp & Hdp & H).
  apply in_flat_map in H. destruct H as (r & Hr & H).
  apply in_map_iff in H. destruct H as (dm & <- & _).
  apply filter_In in Hfol. apply filter_In in Hdp. apply filter_In in Hr.
  exists fol, dp, r. simpl.
  destruct Hfol as [Hfol _], Hdp as [Hdp Kdp], Hr as [Hr Mr].
  repeat (split; [assumption || reflexivity|]).
  split; [|tauto].
  destruct (fol_product_key fol) as [pk|]; simpl in Kdp; [|discriminate].
  apply Z.eqb_eq in Kdp. congruence.
Qed.

(** C4.  At the end of [build_facts], every order line that matched no
    recipe entry -- its product key is NULL, or no recipe row matches its
    product on recipe id, batch size and the ['final'] variant -- has
    [estimated_cogs = 0], [has_missing_cost = true] and
    [margin_percent = 100]. *)
Theorem unmatched_line_defaults :
  forall C w facts,
    build_facts C w = Ok facts ->
    forall f, In f (wf_lines facts) ->
      (fol_product_key f = None \/
       forall dp r, In dp (wi_products w) -> In r (wi_recipes w) ->
                    fol_product_key f = Some (dp_product_key dp) ->
                    recipe_matches dp r = false) ->
      fol_estimated_cogs f = Some (of_int 0) /\
      fol_has_missing_cost f = Some true /\
      fol_margin_percent f = Some (of_int 100).
Proof.
  intros C w facts B f Hf Hno.
  unfold build_facts in B.
  destruct (build_fact_order _ _ _ _ _ _ _) as [fos|e]; simpl in B;
    [|discriminate].
  destruct (build_fact_order_line _ _ _ _ _) as [fols|e] eqn:BL; simpl in B;
    [|discriminate].
  set (cogs := build_fact_cogs_estimate fols (wi_products w) (wi_recipes w)
                 (wi_materials w)) in *.
  destruct (update_cogs_rows fols cogs) as (fols' & E & F).
  rewrite E in B. simpl in B. injection B as <-. simpl in Hf.
  destruct (build_fact_order_line_fresh _ _ _ _ _ _ BL) as (ND & Null).
  destruct (Forall2_In_r _ _ _ _ F Hf) as (f0 & Hf0 & K & P & U).
  assert (G : estimates_of (fol_order_line_key f0) cogs = []).
  { destruct (estimates_of (fol_order_line_key f0) cogs) as [|c g] eqn:G;
      [reflexivity|]. exfalso.
    assert (Hc : In c (estimates_of (fol_order_line_key f0) cogs))
      by (rewrite G; left; reflexivity).
    apply filter_In in Hc. destruct Hc as [Hc Kc]. apply Z.eqb_eq in Kc.
    apply in_build_fact_cogs_estimate in Hc.
    destruct Hc as (fol & dp & r & Hfol & Kfol & Hdp & Pk & Hr & M).
    assert (fol = f0).
    { apply (NoDup_key_inj fol_order_line_key fols); try assumption.
      congruence. }
    subst fol. rewrite <- P in Pk.
    destruct Hno as [Hno | Hno]; [congruence|].
    rewrite (Hno dp r Hdp Hr Pk) in M. discriminate. }
  rewrite G in U. rewrite (Null f0 Hf0) in U. exact U.
Qed.

End FactProps.

(** ** The dimensions *)

Module DimensionProps.
Import Sql Staging Dimensions SqlFacts.

Lemma shipping_method_eqb_eq (a b : shipping_method) :
  shipping_method_eqb a b = true <-> a = b.
Proof.
  unfold shipping_method_eqb. destruct a as [c n l], b as [c' n' l']; simpl.
  rewrite !andb_true_iff, !String.eqb_eq, Bool.eqb_true_iff.
  split.
  - intros [[-> ->] ->]. reflexivity.
  - intros E. injection E as -> -> ->. auto.
Qed.

Lemma distinct_In {A} (eqb : A -> A -> bool) (l : list A) (a : A) :
  (forall x y, eqb x y = true <-> x = y) ->
  In a (distinct eqb l) <-> In a l.
Proof.
  intros H. split; [apply distinct_incl | apply in_distinct; assumption].
Qed.

Lemma present_some (x : option string) :
  present x = true <-> exists s, x = Some s /\ s <> "".
Proof.
  destruct x as [s|]; simpl.
  - rewrite negb_true_iff, String.eqb_neq. split.
    + intros H. exists s. auto.
    + intros (s' & E & N). congruence.
  - split; [discriminate | intros (s & E & _); discriminate].
Qed.

(** The rows of the shipping-method dimension: the methods seen on staged
    orders, and the fallback row when there is none. *)
Lemma in_shipping_methods (orders : list stg_order) (m : shipping_method) :
  In m (shipping_methods orders) <->
  (exists o s, In o orders /\ so_shipping_method o = Some s /\ s <> ""
               /\ m = method_of s)
  \/ (m = fallback_method
      /\ forall o, In o orders -> present (so_shipping_method o) = false).
Proof.
  unfold shipping_methods, seen_methods, fallback_branch.
  rewrite (distinct_In _ _ _ shipping_method_eqb_eq), in_app_iff.
  rewrite (distinct_In _ _ _ shipping_method_eqb_eq), in_map_iff.
  split.
  - intros [(o & <- & Ho) | H].
    + apply filter_In in Ho. destruct Ho as [Ho P].
      apply present_some in P. destruct P as (s & E & N).
      left. exists o, s. rewrite E. simpl. auto.
    + destruct (existsb _ orders) eqn:X; [destruct H|].
      destruct H as [<- | []]. right. split; [reflexivity|].
      intros o Ho.
      destruct (present (so_shipping_method o)) eqn:P; [|reflexivity].
      assert (T : existsb (fun o => present (so_shipping_method o)) orders
                  = true)
        by (apply existsb_exists; eauto).
      congruence.
  - intros [(o & s & Ho & E & N & ->) | (-> & Hnone)].
    + left. exists o. rewrite E. simpl. split; [reflexivity|].
      apply filter_In. split; [assumption|].
      apply present_some. eauto.
    + right. destruct (existsb _ orders) eqn:X.
      * apply existsb_exists in X. destruct X as (o & Ho & P).
        rewrite (Hnone o Ho) in P. discriminate.
      * left. reflexivity.
Qed.

Lemma shipping_methods_nonempty (orders : list stg_order) :
  shipping_methods orders <> [].
Proof.
  intros E.
  destruct (existsb (fun o => present (so_shipping_method o)) orders) eqn:X.
  - apply existsb_exists in X. destruct X as (o & Ho & P).
    apply present_some in P. destruct P as (s & Es & N).
    assert (H : In (method_of s) (shipping_methods orders))
      by (apply in_shipping_methods; left; exists o, s; auto).
    rewrite E in H. destruct H.
  - assert (H : In fallback_method (shipping_methods orders)).
    { apply in_shipping_methods. right. split; [reflexivity|].
      intros o Ho.
      destruct (present (so_shipping_method o)) eqn:P; [|reflexivity].
      assert (T : existsb (fun o => present (so_shipping_method o)) orders
                  = true)
        by (apply existsb_exists; eauto).
      congruence. }
    rewrite E in H. destruct H.
Qed.

Lemma dim_shipping_methods old next orders :
  map ds_method (build_dim_shipping_method old next orders)
  = shipping_methods orders.
Proof.
  unfold build_dim_shipping_method. rewrite map_map. simpl.
  apply with_serial_values.
Qed.


(** *** The customer dimension *)

Lemma option_string_eqb_eq (x y : option string) :
  option_string_eqb x y = true <-> x = y.
Proof.
  destruct x as [a|], y as [b|]; simpl; try rewrite String.eqb_eq;
    split; congruence.
Qed.

Lemma distinct_nonempty {A} (eqb : A -> A -> bool) (l : list A) :
  l <> [] -> (1 <= List.length (distinct eqb l))%nat.
Proof.
  destruct l as [|a t]; [congruence|]. simpl. lia.
Qed.

(** Every group of [customer_stats] counts at least one order. *)
Lemma customer_stats_positive (orders : list stg_order) (cs : customer_stat) :
  In cs (customer_stats orders) -> 1 <= cs_total_orders cs.
Proof.
  unfold customer_stats. intros H. apply in_map_iff in H.
  destruct H as (e & <- & He). apply distinct_incl in He.
  apply in_map_iff in He. destruct He as (o & Eo & Ho). simpl.
  unfold count_distinct.
  assert (N : map so_order_id
                (filter (fun o' => option_string_eqb (so_email o') e) orders)
              <> []).
  { assert (I : In o (filter (fun o' => option_string_eqb (so_email o') e)
                             orders)).
    { apply filter_In. split; [assumption|].
      apply option_string_eqb_eq. assumption. }
    intros E. apply (in_map so_order_id) in I. rewrite E in I. destruct I. }
  apply (distinct_nonempty Z.eqb) in N. lia.
Qed.

(** The emails of [order_customers] are emails of staged orders. *)
Lemma order_customers_email (orders : list stg_order) oc :
  In oc (order_customers orders) ->
  exists o, In o orders /\ so_email o = Some (fst oc) /\ fst oc <> "".
Proof.
  unfold order_customers. intros H. apply in_map_iff in H.
  destruct H as (e & <- & He). apply distinct_incl in He.
  apply in_map_iff in He. destruct He as (o & <- & Ho).
  apply filter_In in Ho. destruct Ho as [Ho P].
  apply present_some in P. destruct P as (s & E & N).
  exists o. simpl. rewrite E. simpl. auto.
Qed.

(** The join of [order_customers] with [customer_stats] always finds the
    group of the customer's own email. *)
Lemma stats_join_matches (orders : list stg_order) oc :
  In oc (order_customers orders) ->
  filter (fun cs => eq_key String.eqb (Some (lower (fst oc)))
                           (option_map lower (cs_email cs)))
         (customer_stats orders) <> [].
Proof.
  intros H. apply order_customers_email in H.
  destruct H as (o & Ho & E & _).
  assert (I : In (Some (fst oc))
                 (distinct option_string_eqb (map so_email orders))).
  { apply in_distinct; [apply option_string_eqb_eq|].
    rewrite <- E. apply in_map. assumption. }
  unfold customer_stats.
  set (row := fun e : option string => _).
  assert (J : In (row (Some (fst oc)))
                 (filter (fun cs => eq_key String.eqb (Some (lower (fst oc)))
                                          (option_map lower (cs_email cs)))
                         (map row (distinct option_string_eqb
                                            (map so_email orders))))).
  { apply filter_In. split; [apply in_map; assumption|].
    simpl. apply String.eqb_refl. }
  intros F. rewrite F in J. destruct J.
Qed.

Lemma in_customer_rows C orders customers rows h oc c cs :
  customer_rows C orders customers = Ok rows ->
  In (h, oc, c, cs) rows ->
  In oc (order_customers orders) /\
  In cs (matches_or_null
           (filter (fun cs => eq_key String.eqb (Some (lower (fst oc)))
                                     (option_map lower (cs_email cs)))
                   (customer_stats orders))) /\
  customer_id_hash C (fst oc) = Ok h.
Proof.
  unfold customer_rows. intros E H.
  apply (traverse_In _ _ _ E) in H. destruct H as ([[oc' c'] cs'] & Hj & Hr).
  destruct (customer_id_hash C (fst oc')) as [h'|] eqn:Eh; simpl in Hr;
    [|discriminate].
  injection Hr as -> -> -> ->.
  apply in_flat_map in Hj. destruct Hj as (oc'' & Hoc & Hj).
  apply in_flat_map in Hj. destruct Hj as (c'' & _ & Hj).
  apply in_map_iff in Hj. destruct Hj as (cs'' & Ej & Hcs).
  injection Ej as -> -> ->. auto.
Qed.

Lemma customer_segment_positive (n : Z) :
  1 <= n -> customer_segment n = "new" \/ customer_segment n = "returning".
Proof.
  intros H. unfold customer_segment.
  destruct (n =? 0) eqn:E0; [apply Z.eqb_eq in E0; lia|].
  destruct (n =? 1) eqn:E1; [left; reflexivity|].
  destruct (2 <=? n) eqn:E2; [right; reflexivity|].
  apply Z.eqb_neq in E1. apply Z.leb_gt in E2. lia.
Qed.

(** C9.  Every row of the customer dimension has [total_orders >= 1], and
    its segment is ['new'] or ['returning']. *)
Theorem customer_has_an_order :
  forall C next orders customers dim,
    build_dim_customer C next orders customers = Ok dim ->
    forall d, In d dim ->
      1 <= dc_total_orders d /\
      (dc_customer_segment d = "new" \/ dc_customer_segment d = "returning")
      /\ dc_customer_segment d <> "prospect"
      /\ dc_customer_segment d <> "unknown".
Proof.
  intros C next orders customers dim B d Hd.
  unfold build_dim_customer in B.
  destruct (customer_rows C orders customers) as [rows|e] eqn:R;
    simpl in B; [|discriminate].
  injection B as <-.
  apply in_map_iff in Hd. destruct Hd as ([k [[[h oc] c] cs]] & <- & Hk).
  apply in_with_serial in Hk.
  destruct (in_customer_rows _ _ _ _ _ _ _ _ R Hk) as (Hoc & Hcs & _).
  apply in_matches_or_null in Hcs.
  destruct Hcs as [[E _] | (s & Hs & ->)];
    [exfalso; exact (stats_join_matches orders oc Hoc E)|].
  apply filter_In in Hs. destruct Hs as [Hs _].
  apply customer_stats_positive in Hs. simpl.
  split; [assumption|].
  destruct (customer_segment_positive _ Hs) as [S | S]; rewrite S.
  - split; [left; reflexivity|]. split; discriminate.
  - split; [right; reflexivity|]. split; discriminate.
Qed.

(** On an email without surrounding whitespace (and without backslash,
    which the cast to bytea would interpret), the SQL expression and
    [hash_email] agree. *)
Lemma contains_cons (p : string) (c : ascii) (t : string) :
  contains p (String c t) = false ->
  String.prefix p (String c t) = false /\ contains p t = false.
Proof.
  simpl. intros H. apply orb_false_iff in H. exact H.
Qed.

Lemma backslash_head (c : ascii) (t : string) :
  String.prefix "\" (String c t) = false -> Ascii.eqb c "\" = false.
Proof.
  intros H. destruct (Ascii.eqb c "\") eqn:E; [|reflexivity].
  apply Ascii.eqb_eq in E. subst c. destruct t; discriminate H.
Qed.

Lemma escaped_plain (s : string) :
  contains "\" s = false ->
  escaped_bytes s = Some (Sha256.bytes_of_string s).
Proof.
  induction s as [|c t IH]; intros H; [reflexivity|].
  apply contains_cons in H. destruct H as [H Ht].
  apply backslash_head in H. cbn [escaped_bytes]. rewrite H.
  rewrite (IH Ht). reflexivity.
Qed.

Lemma bytea_in_plain (s : string) :
  contains "\" s = false -> bytea_in s = Ok (Sha256.bytes_of_string s).
Proof.
  intros H. unfold bytea_in.
  assert (E : match s with
              | String c (String x t) =>
                  if Ascii.eqb c "\" && Ascii.eqb x "x" then hex_bytes t
                  else escaped_bytes s
              | _ => escaped_bytes s
              end = escaped_bytes s).
  { destruct s as [|c [|x t]]; try reflexivity.
    apply contains_cons in H. destruct H as [H _].
    apply backslash_head in H. rewrite H. reflexivity. }
  rewrite E, (escaped_plain s H). reflexivity.
Qed.

Lemma customer_hash_of_trimmed (e : string) :
  e <> "" -> contains "\" (lower e) = false ->
  Py.strip (Py.lower e) = Py.lower e ->
  customer_id_hash decimal_casts e = Ok (hash_email e).
Proof.
  intros N B T. unfold customer_id_hash, hash_email.
  cbn [to_bytea decimal_casts]. rewrite (bytea_in_plain _ B).
  cbn [bind]. apply String.eqb_neq in N. rewrite N, T. reflexivity.
Qed.

End DimensionProps.

(** ** Staging: the numbering of order lines *)

Module StagingProps.
Import Sql Staging SqlFacts.

(** *** Collations *)

(** The byte order of text is a deterministic collation. *)
Lemma byte_order_deterministic : deterministic decimal_casts.
Proof.
  unfold deterministic. cbn [collate decimal_casts].
  split; [|split].
  - intros a b. change String.compare with String_as_OT.cmp.
    apply String_as_OT.cmp_eq.
  - intros a b. apply String.compare_antisym.
  - intros a b c. change String.compare with String_as_OT.cmp.
    rewrite !String_as_OT.cmp_lt. apply String_as_OT.lt_trans.
Qed.

Section Collation.

Variable C : pg_casts.
Hypothesis D : deterministic C.

Lemma collate_refl (a : string) : collate C a a = Eq.
Proof. apply (proj1 D). reflexivity. Qed.

Lemma text_leb_total (a b : string) :
  text_leb C a b = true \/ text_leb C b a = true.
Proof.
  unfold text_leb. rewrite (proj1 (proj2 D) a b).
  destruct (collate C a b); simpl; auto.
Qed.

Lemma text_leb_trans (a b c : string) :
  text_leb C a b = true -> text_leb C b c = true -> text_leb C a c = true.
Proof.
  unfold text_leb.
  destruct (collate C a b) eqn:AB; [| |discriminate]; intros _.
  - apply (proj1 D) in AB. subst b. auto.
  - destruct (collate C b c) eqn:BC; [| |discriminate]; intros _.
    + apply (proj1 D) in BC. subst c. rewrite AB. reflexivity.
    + rewrite (proj2 (proj2 D) a b c AB BC). reflexivity.
Qed.

Lemma text_leb_antisym (a b : string) :
  text_leb C a b = true -> text_leb C b a = true -> a = b.
Proof.
  unfold text_leb. rewrite (proj1 (proj2 D) a b).
  destruct (collate C a b) eqn:AB; simpl; try discriminate.
  intros _ _. apply (proj1 D). exact AB.
Qed.

(** *** The sort of a partition *)

Lemma insert_by_name_sorted (r : raw_order) (l : list raw_order) :
  StronglySorted (name_le C) l ->
  StronglySorted (name_le C) (insert_by_name C r l).
Proof.
  assert (P : forall l', Permutation (r :: l') (insert_by_name C r l')).
  { induction l' as [|x t IH]; simpl; [reflexivity|].
    destruct (text_leb C (item_name r) (item_name x)); [reflexivity|].
    rewrite perm_swap. apply perm_skip. exact IH. }
  induction 1 as [|x t St IH Fx]; simpl.
  - constructor; constructor.
  - destruct (text_leb C (item_name r) (item_name x)) eqn:E.
    + constructor; [constructor; assumption|].
      constructor; [exact E|].
      eapply Forall_impl; [|exact Fx].
      intros y Hy. exact (text_leb_trans _ _ _ E Hy).
    + constructor; [exact IH|].
      rewrite <- P. constructor; [|exact Fx].
      destruct (text_leb_total (item_name r) (item_name x)) as [H | H];
        [congruence | exact H].
Qed.

Lemma sort_by_name_sorted (l : list raw_order) :
  StronglySorted (name_le C) (sort_by_name C l).
Proof.
  induction l as [|r t IH]; simpl; [constructor|].
  apply insert_by_name_sorted. exact IH.
Qed.

(** Two sorted arrangements of the same rows are equal when the rows of
    equal name are equal. *)
Lemma sorted_unique (l1 l2 : list raw_order) :
  StronglySorted (name_le C) l1 -> StronglySorted (name_le C) l2 ->
  Permutation l1 l2 ->
  (forall x y, In x l1 -> In y l1 -> item_name x = item_name y -> x = y) ->
  l1 = l2.
Proof.
  intros S1. revert l2. induction S1 as [|a t1 St1 IH Fa]; intros l2 S2 P N.
  - apply Permutation_nil in P. congruence.
  - destruct l2 as [|b t2];
      [apply Permutation_sym, Permutation_nil in P; discriminate|].
    inversion S2 as [|? ? St2 Fb]; subst.
    assert (a = b).
    { assert (Ha : In a (b :: t2))
        by (eapply Permutation_in; [exact P | left; reflexivity]).
      assert (Hb : In b (a :: t1))
        by (eapply Permutation_in;
            [apply Permutation_sym; exact P | left; reflexivity]).
      destruct Ha as [-> | Ha]; [reflexivity|].
      pose proof Hb as Hb'.
      destruct Hb as [-> | Hb]; [reflexivity|].
      rewrite Forall_forall in Fa, Fb.
      apply N; [left; reflexivity | exact Hb'|].
      exact (text_leb_antisym _ _ (Fa b Hb) (Fb a Ha)). }
    subst b. f_equal. apply IH; try assumption.
    + eapply Permutation_cons_inv. exact P.
    + intros x y Hx Hy. apply N; right; assumption.
Qed.

End Collation.

Lemma insert_by_name_perm C (r : raw_order) (l : list raw_order) :
  Permutation (r :: l) (insert_by_name C r l).
Proof.
  induction l as [|x t IH]; simpl; [reflexivity|].
  destruct (text_leb C (item_name r) (item_name x)); [reflexivity|].
  rewrite perm_swap. apply perm_skip. exact IH.
Qed.

Lemma sort_by_name_perm C (l : list raw_order) :
  Permutation l (sort_by_name C l).
Proof.
  induction l as [|r t IH]; simpl; [reflexivity|].
  rewrite <- insert_by_name_perm. apply perm_skip. exact IH.
Qed.

Lemma filter_perm {A} (f : A -> bool) (l l' : list A) :
  Permutation l l' -> Permutation (filter f l) (filter f l').
Proof.
  induction 1 as [|x l l' P IH|x y l|l l' l'' P1 IH1 P2 IH2]; simpl.
  - constructor.
  - destruct (f x); [apply perm_skip|]; exact IH.
  - destruct (f x), (f y); try reflexivity. apply perm_swap.
  - etransitivity; eassumption.
Qed.

(** The sort of the partition of [k] does not depend on the order in
    which the rows are scanned when the rows of the partition that share
    an item name are copies. *)
Lemma sorted_partition_stable C (k : string) (rows rows' : list raw_order) :
  deterministic C ->
  Permutation rows rows' -> ties_are_copies (window_partition k rows) ->
  sort_by_name C (window_partition k rows)
  = sort_by_name C (window_partition k rows').
Proof.
  intros D P N. apply (sorted_unique C D).
  - apply sort_by_name_sorted. exact D.
  - apply sort_by_name_sorted. exact D.
  - rewrite <- !sort_by_name_perm. apply filter_perm. exact P.
  - assert (W : forall x, In x (sort_by_name C (window_partition k rows)) ->
                          In x (window_partition k rows) /\ partition_id x = k).
    { intros x Hx.
      apply (Permutation_in _ (Permutation_sym (sort_by_name_perm C _))) in Hx.
      split; [exact Hx|].
      apply filter_In in Hx. destruct Hx as [Hx E].
      apply String.eqb_eq in E. exact E. }
    intros x y Hx Hy E. apply W in Hx, Hy.
    destruct Hx as [Hx Kx], Hy as [Hy Ky].
    apply N; congruence.
Qed.

(** Pairwise different item names within every order are a special
    case. *)
Lemma distinct_names_ties (rows : list raw_order) :
  NoDup (map (fun r => (partition_id r, item_name r)) rows) ->
  ties_are_copies rows.
Proof.
  induction rows as [|r t IH]; intros N x y Hx Hy Ep En; [destruct Hx|].
  inversion N as [|? ? Nr Nt]; subst.
  assert (K : forall z, In z t ->
                (partition_id z, item_name z)
                = (partition_id r, item_name r) -> False).
  { intros z Hz E. apply Nr. rewrite <- E.
    apply (in_map (fun r => (partition_id r, item_name r))). exact Hz. }
  destruct Hx as [<- | Hx], Hy as [<- | Hy].
  - reflexivity.
  - exfalso. apply (K y Hy). congruence.
  - exfalso. apply (K x Hx). congruence.
  - apply IH; assumption.
Qed.

Lemma in_row_number_over C (rows : list raw_order) (nr : Z * raw_order) :
  In nr (row_number_over C rows) <->
  exists k, In k (map partition_id rows) /\
            In nr (number_rows (sort_by_name C (window_partition k rows))).
Proof.
  unfold row_number_over. rewrite in_flat_map. split.
  - intros (k & Hk & H). apply distinct_incl in Hk. eauto.
  - intros (k & Hk & H). exists k. split; [|assumption].
    apply in_distinct; [apply String.eqb_eq | assumption].
Qed.

Lemma combine_snd {A B} (ks : list A) (l : list B) :
  List.length ks = List.length l -> map snd (combine ks l) = l.
Proof.
  revert ks. induction l as [|x t IH]; intros ks L.
  - destruct ks; reflexivity.
  - destruct ks as [|k ks]; [discriminate L|]. simpl.
    f_equal. apply IH. simpl in L. congruence.
Qed.

Lemma combine_fst {A B} (ks : list A) (l : list B) :
  List.length ks = List.length l -> map fst (combine ks l) = ks.
Proof.
  revert l. induction ks as [|k t IH]; intros l L; [reflexivity|].
  destruct l as [|x l]; [discriminate L|]. simpl.
  f_equal. apply IH. simpl in L. congruence.
Qed.

Lemma number_rows_rows (l : list raw_order) : map snd (number_rows l) = l.
Proof.
  unfold number_rows. apply combine_snd.
  rewrite length_map, length_seq. reflexivity.
Qed.

Lemma number_rows_numbers (l : list raw_order) :
  map fst (number_rows l)
  = map (fun i => Z.of_nat (S i)) (seq 0 (List.length l)).
Proof.
  unfold number_rows. apply combine_fst.
  rewrite length_map, length_seq. reflexivity.
Qed.

(** The numbered rows of the partition of [k]. *)
Lemma in_block C (k : string) (rows : list raw_order) (nr : Z * raw_order) :
  In nr (number_rows (sort_by_name C (window_partition k rows))) ->
  In (snd nr) rows /\ partition_id (snd nr) = k.
Proof.
  intros H. apply (in_map snd) in H. rewrite number_rows_rows in H.
  apply (Permutation_in _ (Permutation_sym (sort_by_name_perm C _))) in H.
  apply filter_In in H. destruct H as [H E]. apply String.eqb_eq in E. auto.
Qed.

(** Every row is given a number. *)
Lemma row_is_numbered C (rows : list raw_order) (r : raw_order) :
  In r rows -> exists n, In (n, r) (row_number_over C rows).
Proof.
  intros Hr.
  assert (H : In r (map snd (number_rows
                               (sort_by_name C
                                  (window_partition (partition_id r) rows))))).
  { rewrite number_rows_rows.
    apply (Permutation_in _ (sort_by_name_perm C _)).
    apply filter_In. split; [exact Hr | apply String.eqb_refl]. }
  apply in_map_iff in H. destruct H as ([n r'] & E & H). simpl in E.
  subst r'. exists n. apply in_row_number_over.
  exists (partition_id r). split; [apply in_map; exact Hr | exact H].
Qed.

(** What the select list copies from the raw row. *)
Lemma stage_order_line_copies C n r l :
  stage_order_line C (n, r) = Ok l ->
  sl_line_number l = n /\ sl_lineitem_name l = item_name r /\
  sl_order_number l = ro_name r /\
  to_bigint C (partition_id r) = Ok (sl_order_id l).
Proof.
  unfold stage_order_line. intros S.
  destruct (to_bigint C (partition_id r)) as [z|]; simpl in S; [|discriminate].
  repeat match type of S with
         | context [cast_nullif_empty ?c ?x] =>
             destruct (cast_nullif_empty c x); simpl in S; [|discriminate]
         end.
  injection S as <-. simpl. auto.
Qed.

(** Whether the select list fails on a row does not depend on the number
    of the row. *)
Lemma stage_order_line_any_number C n n' r l :
  stage_order_line C (n, r) = Ok l ->
  exists l', stage_order_line C (n', r) = Ok l'.
Proof.
  unfold stage_order_line. intros S.
  destruct (to_bigint C (partition_id r)) as [z|]; simpl in S; [|discriminate].
  repeat match type of S with
         | context [cast_nullif_empty ?c ?x] =>
             destruct (cast_nullif_empty c x); simpl in S; [|discriminate]
         end.
  simpl. eexists. reflexivity.
Qed.

(** The rows of one order tie only among copies: the numbering of this
    order does not depend on the order in which the rows are scanned. *)
Lemma order_numbering_stable C (z : Z) (rows rows' : list raw_order)
  (nr : Z * raw_order) :
  deterministic C -> Permutation rows rows' ->
  ties_are_copies (rows_of_order C z rows) ->
  to_bigint C (partition_id (snd nr)) = Ok z ->
  In nr (row_number_over C rows) -> In nr (row_number_over C rows').
Proof.
  intros D P N Z H. apply in_row_number_over in H.
  destruct H as (k & Hk & H). destruct (in_block _ _ _ _ H) as (_ & K).
  apply in_row_number_over. exists k. split.
  - eapply Permutation_in; [apply Permutation_map; exact P | exact Hk].
  - rewrite <- (sorted_partition_stable C k rows rows' D P); [exact H|].
    intros x y Hx Hy. apply N.
    + apply filter_In in Hx. destruct Hx as [Hx Ex].
      apply String.eqb_eq in Ex. apply filter_In. split; [exact Hx|].
      rewrite Ex, <- K, Z. apply Z.eqb_refl.
    + apply filter_In in Hy. destruct Hy as [Hy Ey].
      apply String.eqb_eq in Ey. apply filter_In. split; [exact Hy|].
      rewrite Ey, <- K, Z. apply Z.eqb_refl.
Qed.

Lemma ties_are_copies_perm (l l' : list raw_order) :
  Permutation l l' -> ties_are_copies l -> ties_are_copies l'.
Proof.
  intros P N x y Hx Hy. apply N.
  - exact (Permutation_in _ (Permutation_sym P) Hx).
  - exact (Permutation_in _ (Permutation_sym P) Hy).
Qed.

(** C8, as amended.  Under a deterministic collation, the order-line
    build succeeds on every arrangement of the raw rows as soon as it
    succeeds on one, and for every order whose line-item rows with the
    same item name are copies of one another (in particular every order
    whose item names are pairwise different), it stages the same lines,
    with the same line numbers, whatever the arrangement -- and whatever
    the rows of the other orders are. *)
Theorem line_numbers_reproducible :
  forall C raw1 raw2 t1,
    deterministic C ->
    Permutation raw1 raw2 ->
    build_stg_order_lines C raw1 = Ok t1 ->
    exists t2,
      build_stg_order_lines C raw2 = Ok t2 /\
      forall z,
        ties_are_copies (rows_of_order C z (filter is_line_item raw1)) ->
        forall l, sl_order_id l = z -> (In l t1 <-> In l t2).
Proof.
  intros C raw1 raw2 t1 D P B1. unfold build_stg_order_lines in *.
  pose proof (filter_perm is_line_item _ _ P) as P'.
  set (rows1 := filter is_line_item raw1) in *.
  set (rows2 := filter is_line_item raw2) in *.
  assert (T : exists t2,
             traverse (stage_order_line C) (row_number_over C rows2) = Ok t2).
  { apply traverse_total. intros [n r] Hnr.
    assert (Hr : In r rows1).
    { apply in_row_number_over in Hnr. destruct Hnr as (k & _ & Hnr).
      apply in_block in Hnr. destruct Hnr as [Hr _].
      exact (Permutation_in _ (Permutation_sym P') Hr). }
    destruct (row_is_numbered C rows1 r Hr) as (n' & Hn').
    apply traverse_Forall2 in B1.
    destruct (Forall2_In_l _ _ _ _ B1 Hn') as (b & _ & Eb).
    exact (stage_order_line_any_number _ _ n _ _ Eb). }
  destruct T as (t2 & B2). exists t2. split; [exact B2|].
  intros z N l Hz.
  rewrite (traverse_In _ _ _ B1), (traverse_In _ _ _ B2).
  split; intros ([n r] & Hnr & E); exists (n, r); (split; [|exact E]);
    destruct (stage_order_line_copies _ _ _ _ E) as (_ & _ & _ & Zr);
    rewrite Hz in Zr.
  - exact (order_numbering_stable C z rows1 rows2 (n, r) D P' N Zr Hnr).
  - apply (order_numbering_stable C z rows2 rows1 (n, r) D
             (Permutation_sym P')); [|exact Zr | exact Hnr].
    apply (ties_are_copies_perm (rows_of_order C z rows1)); [|exact N].
    apply filter_perm. exact P'.
Qed.

End StagingProps.

(** ** The driver *)

Module RunnerProps.
Import Runner.

Lemma prefix_lower (p s : string) :
  String.prefix p s = true -> String.prefix (Sql.lower p) (Sql.lower s) = true.
Proof.
  revert s. induction p as [|a p IH]; intros s; [destruct s; reflexivity|].
  destruct s as [|b s]; simpl; [discriminate|].
  destruct (ascii_dec a b) as [->|]; [|discriminate].
  intros H. destruct (ascii_dec (Sql.lower_ascii b) (Sql.lower_ascii b));
    [auto | congruence].
Qed.

Lemma contains_lower (p s : string) :
  Py.contains p s = true -> Py.contains (Py.lower p) (Py.lower s) = true.
Proof.
  unfold Py.contains, Py.lower.
  induction s as [|c s IH]; simpl; rewrite !orb_true_iff.
  - intros [H | H]; [|discriminate]. left.
    exact (prefix_lower p EmptyString H).
  - intros [H | H].
    + left. exact (prefix_lower p (String c s) H).
    + right. apply IH. exact H.
Qed.

Section Pipeline.

Context {DB : Type} (conn : connection DB).

Lemma returns_bind (m : @py DB unit) (k : unit -> @py DB unit) :
  returns m -> (forall u, returns (k u)) -> returns (bind m k).
Proof.
  intros Hm Hk w. unfold bind. destruct (Hm w) as (w1 & ->).
  apply Hk.
Qed.

Lemma returns_for_each {A} (xs : list A) (body : A -> @py DB unit) :
  (forall x, returns (body x)) -> returns (for_each xs body).
Proof.
  intros H. induction xs as [|x t IH]; simpl.
  - intros w. eexists; reflexivity.
  - apply returns_bind; [apply H | intros _; exact IH].
Qed.

Lemma returns_logger (l : level) (msg : string) : returns (logger (DB := DB) l msg).
Proof. intros w. eexists; reflexivity. Qed.

(** What the loop body of [init_database] does with a statement that
    fails. *)
Lemma init_statement_failure (stmt e : string) (w : world DB) :
  code_lines stmt <> [] ->
  execute_commit conn (w_db w) stmt = inr e ->
  init_statement conn stmt w
  = (Returns tt,
     {| w_db := rollback conn (w_db w);
        w_log := w_log w ++
                 if Py.contains "already exists" (Py.lower e) then []
                 else [(WARNING, ("Statement warning: " ++ e)%string)] |}).
Proof.
  intros L X. unfold init_statement.
  destruct (code_lines stmt); [congruence|].
  unfold try_except, conn_execute_commit. rewrite X.
  unfold bind, conn_rollback. simpl.
  destruct (Py.contains "already exists" (Py.lower e)); simpl.
  - rewrite app_nil_r. reflexivity.
  - reflexivity.
Qed.

Lemma init_statement_returns (stmt : string) : returns (init_statement conn stmt).
Proof.
  intros w. unfold init_statement.
  destruct (code_lines stmt) eqn:L; [eexists; reflexivity|].
  unfold try_except, conn_execute_commit.
  destruct (execute_commit conn (w_db w) stmt) as [db'|e];
    [eexists; reflexivity|].
  unfold bind, conn_rollback. simpl.
  destruct (negb (Py.contains "already exists" (Py.lower e)));
    eexists; reflexivity.
Qed.

Lemma init_database_returns (schema_files : list (string * string)) :
  returns (init_database conn schema_files).
Proof.
  unfold init_database. apply returns_bind.
  - apply returns_for_each. intros f. apply returns_bind.
    + apply returns_logger.
    + intros _. apply returns_for_each. apply init_statement_returns.
  - intros _. apply returns_logger.
Qed.

Lemma print_summary_returns (S : stages (DB := DB)) : returns (print_summary S).
Proof.
  intros w. unfold print_summary, try_except.
  destruct (summary_queries S w) as [[[]|e] w']; eexists; reflexivity.
Qed.

End Pipeline.

(** C7, as amended.  A statement that fails during schema initialization
    never aborts the run: the failed transaction is rolled back and the
    loop goes on; the failure is logged as a warning when its message, in
    lower case, does not contain "already exists", and leaves no trace in
    the log when it does (in particular when the message as raised
    contains "already exists").  [init_database] therefore always
    returns, and the exit status of a "load" run is 0 exactly when
    [load_raw_data] returns. *)
Theorem schema_failures_are_tolerated :
  forall (DB : Type) (conn : connection DB) (S : stages)
         (schema_files mart_files : list (string * string))
         (use_sample : bool) (w : world DB),
    (forall stmt e w0,
        code_lines stmt <> [] ->
        execute_commit conn (w_db w0) stmt = inr e ->
        init_statement conn stmt w0
        = (Returns tt,
           {| w_db := rollback conn (w_db w0);
              w_log := w_log w0 ++
                       if Py.contains "already exists" (Py.lower e) then []
                       else [(WARNING,
                              ("Statement warning: " ++ e)%string)] |})) /\
    (forall e, Py.contains "already exists" e = true ->
               Py.contains "already exists" (Py.lower e) = true) /\
    exists w1,
      init_database conn schema_files w = (Returns tt, w1) /\
      (fst (main conn S schema_files mart_files Load use_sample w) = 0 <->
       exists w2, load_raw_data S use_sample w1 = (Returns tt, w2)).
Proof.
  intros DB conn S schema_files mart_files use_sample w.
  split; [intros stmt e w0; apply init_statement_failure|].
  split; [intros e H; exact (contains_lower "already exists" e H)|].
  destruct (init_database_returns conn schema_files w) as (w1 & E).
  exists w1. split; [exact E|].
  unfold main, run_pipeline, bind. rewrite E.
  destruct (load_raw_data S use_sample w1) as [[[]|e] w2] eqn:L; simpl.
  - destruct (print_summary_returns S w2) as (w3 & ->). simpl.
    split; [eauto | reflexivity].
  - split; [discriminate | intros (w2' & X); discriminate].
Qed.

End RunnerProps.

(** ** Worked examples *)

Module Examples.
Import Sql Staging Dimensions Facts Scenario.

Example sha256_abc :
  Sha256.sha256_hex "abc"
  = "ba7816bf8f01cfea414140de5dae2223b00361a396177a9cb410ff61f20015ad".
Proof. vm_compute. reflexivity. Qed.

Example sha256_two_blocks :
  Sha256.sha256_hex
    "aaaaaaaaaaaaaaaaaaaaaaaaaaaaaaaaaaaaaaaaaaaaaaaaaaaaaaaa"
  = "b35439a4ac6f0948b6d6f9e3c6af0f5f590ce20f1bde7090ef7970686ec6738a".
Proof. vm_compute. reflexivity. Qed.

Example staged_lines :
  option_map (map (fun l => (sl_lineitem_name l, sl_line_number l)))
             (match build_stg_order_lines decimal_casts raw_rows with
              | Ok t => Some t
              | Fault _ => None
              end)
  = Some [("Oud 50ml", 1); ("Rose 50ml", 2)].
Proof. vm_compute. reflexivity. Qed.

Example scenario_lines :
  map (fun f => (fol_order_line_key f, fol_product_key f,
                 fol_allocated_order_discount f, fol_net_line_revenue f))
      fact_lines
  = [ (1, Some 1, Some (dec 100000000000000000000 20),
       Some (dec 900000000000000000000 20));
      (2, None, Some (dec 100000000000000000000 20),
       Some (dec 900000000000000000000 20)) ].
Proof. vm_compute. reflexivity. Qed.

Example scenario_orders :
  map (fun f => (fo_order_id f, fo_line_item_count f, fo_unit_count f,
                 fo_gross_product_sales f))
      fact_orders
  = [ (1001, 2, 2, Some (of_int 20)); (1002, 1, 1, Some (of_int 30)) ].
Proof. vm_compute. reflexivity. Qed.

Example scenario_cogs :
  map (fun c => (fce_order_line_key c, fce_line_cost c,
                 fce_has_known_cost c))
      cogs_estimates
  = [ (1, Some (dec 20 1), true); (1, Some (of_int 0), false);
      (1, Some (of_int 1), true) ].
Proof. vm_compute. reflexivity. Qed.

(** The input functions of the worked examples, on the notations they
    read. *)
Example numbers_read :
  map decimal_numeric ["10.00"; " 10.00 "; "1e2"; "1.25e1"; ".5"; "-0.50"]
  = [ Ok (dec 1000 2); Ok (dec 1000 2); Ok (dec 100 0); Ok (dec 125 1);
      Ok (dec 5 1); Ok (dec (-50) 2) ].
Proof. vm_compute. reflexivity. Qed.

Example timestamps_read :
  map iso_timestamp
      ["2023-11-14 22:13:20+00"; "2024-01-15 10:30:00 -0500";
       "1700000000"]
  = [ Ok 1700000000; Ok 1705332600;
      Fault "invalid input syntax for type timestamp with time zone" ].
Proof. vm_compute. reflexivity. Qed.

Example bytea_read :
  map bytea_in ["abc"; "a\\b"; "a\b"; "\x6162"]
  = [ Ok [97; 98; 99]; Ok [97; 92; 98];
      Fault "invalid input syntax for type bytea"; Ok [97; 98] ].
Proof. vm_compute. reflexivity. Qed.

(** The quotients of NUMERIC: sixteen significant digits, and more when
    the first digit of the dividend is not above that of the divisor. *)
Example quotients :
  map (fun p => quotient (of_int (fst p)) (of_int (snd p)))
      [(10, 3); (10, 30); (200, 3); (9, 1)]
  = [ dec 33333333333333333 16; dec 33333333333333333333 20;
      dec 666666666666666667 16; dec 90000000000000000 16 ].
Proof. vm_compute. reflexivity. Qed.

(** *** The claims on the shop *)

(** The three lines of order 1003, one third of its gross each, share its
    discount of 1. *)
Lemma allocated_discount_witness :
  exists fols,
    build_fact_order_line 1 thirds_lines thirds_facts [] [] = Ok fols /\
    map fol_allocated_order_discount fols
    = [ Some (dec 33333333333333333333 20);
        Some (dec 33333333333333333333 20);
        Some (dec 33333333333333333333 20) ].
Proof.
  destruct (FactProps.allocated_discount_proportional
              1 thirds_lines thirds_facts [] [])
    as (fols & E & _).
  exists fols. split; [exact E|].
  vm_compute in E. injection E as <-. vm_compute. reflexivity.
Defined.

(** C1 as stated fails: the share of a line is a rounded quotient.  Each
    of three lines of 10 in an order of gross 30 and discount 1 is
    allocated 0.33333333333333333333, which is not 10 / 30 * 1, and the
    three allocations add up to 0.99999999999999999999, not to the
    discount. *)
Lemma allocated_discount_is_rounded :
  map (fun f => (fo_gross_product_sales f, fo_order_discount_amount f))
      thirds_facts
  = [ (Some (of_int 30), of_int 1) ] /\
  exists fols,
    build_fact_order_line 1 thirds_lines thirds_facts [] [] = Ok fols /\
    map (fun f => (fol_gross_line_revenue f, fol_allocated_order_discount f))
        fols
    = [ (Some (of_int 10), Some (dec 33333333333333333333 20));
        (Some (of_int 10), Some (dec 33333333333333333333 20));
        (Some (of_int 10), Some (dec 33333333333333333333 20)) ] /\
    ~ (to_Q (dec 33333333333333333333 20) == (10 # 30) * 1)%Q /\
    sum_agg (map fol_allocated_order_discount fols)
    = Some (dec 99999999999999999999 20).
Proof.
  split; [vm_compute; reflexivity|].
  eexists. split; [vm_compute; reflexivity|].
  split; [vm_compute; reflexivity|].
  split; [|vm_compute; reflexivity].
  intros E. vm_compute in E. discriminate E.
Qed.

(** The Oud line has three estimate rows, one of unknown cost. *)
Lemma cogs_rollup_witness :
  exists fols',
    update_cogs fact_lines cogs_estimates = Ok fols' /\
    map (fun f => (fol_has_missing_cost f, fol_estimated_cogs f)) fols'
    = [ (Some true, Some (dec 30 1)); (Some true, Some (of_int 0)) ].
Proof.
  destruct (FactProps.cogs_rollup_per_line fact_lines cogs_estimates)
    as (fols' & E & _).
  exists fols'. split; [exact E|].
  vm_compute in E. injection E as <-. vm_compute. reflexivity.
Defined.

(** The Oud line: 9 per unit, COGS 3.0, margin 6, and 66.666...67 per
    cent of the 9. *)
Lemma margin_witness :
  exists fols',
    update_cogs fact_lines cogs_estimates = Ok fols' /\
    map (fun f => (fol_gross_margin f, fol_margin_percent f)) fols'
    = [ (Some (dec 600000000000000000000 20),
         Some (dec 6666666666666666666700 20));
        (Some (dec 900000000000000000000 20), Some (of_int 100)) ].
Proof.
  destruct (FactProps.margin_per_unit fact_lines cogs_estimates)
    as (fols' & E & _).
  exists fols'. split; [exact E|].
  vm_compute in E. injection E as <-. vm_compute. reflexivity.
Defined.

(** C3 as stated fails in two ways.  The margin percentage of the Oud
    line (net revenue 9, quantity 1, COGS 3) is 66.66666666666666666700,
    not (9 / 1 - 3) / (9 / 1) * 100; and a costed line of quantity 0 with
    a positive net revenue has NULL for its margin and for its margin
    percentage. *)
Lemma margin_is_rounded_or_null :
  (exists f rest,
      update_cogs fact_lines cogs_estimates = Ok (f :: rest) /\
      estimates_of (fol_order_line_key f) cogs_estimates <> [] /\
      fol_net_line_revenue f = Some (dec 900000000000000000000 20) /\
      fol_quantity f = 1 /\ fol_estimated_cogs f = Some (dec 30 1) /\
      fol_margin_percent f = Some (dec 6666666666666666666700 20) /\
      ~ (to_Q (dec 6666666666666666666700 20)
         == (9 / 1 - 3) / (9 / 1) * 100)%Q) /\
  (exists f,
      update_cogs [idle_line] idle_estimates = Ok [f] /\
      estimates_of (fol_order_line_key f) idle_estimates <> [] /\
      fol_net_line_revenue f = Some (of_int 5) /\ fol_quantity f = 0 /\
      fol_gross_margin f = None /\ fol_margin_percent f = None).
Proof.
  split.
  - eexists. eexists. split; [vm_compute; reflexivity|].
    split; [vm_compute; discriminate|].
    repeat (split; [vm_compute; reflexivity|]).
    intros E. vm_compute in E. discriminate E.
  - eexists. split; [vm_compute; reflexivity|].
    split; [vm_compute; discriminate|].
    repeat split.
Qed.

(** The Rose line is not in the SKU map. *)
Lemma unmatched_line_witness :
  exists facts f,
    build_facts decimal_casts inputs = Ok facts /\
    In f (wf_lines facts) /\
    fol_product_key f = None /\
    fol_estimated_cogs f = Some (of_int 0) /\
    fol_has_missing_cost f = Some true /\
    fol_margin_percent f = Some (of_int 100).
Proof.
  destruct (build_facts decimal_casts inputs) as [facts|e] eqn:B;
    [|exfalso; vm_compute in B; discriminate].
  pose proof B as B'. vm_compute in B'. injection B' as <-.
  eexists. eexists. split; [reflexivity|].
  split; [right; left; reflexivity|].
  split; [reflexivity|].
  apply (FactProps.unmatched_line_defaults decimal_casts inputs _ B).
  - right; left; reflexivity.
  - left. reflexivity.
Defined.

(** Order 1002 has no staged line. *)
Lemma order_without_lines_witness :
  exists facts f,
    build_fact_order decimal_casts 1 orders lines (wi_customers inputs)
      (wi_channels inputs) (wi_methods inputs) = Ok facts /\
    In f facts /\ fo_order_id f = 1002 /\
    fo_line_item_count f = 1 /\ fo_unit_count f = 1.
Proof.
  destruct (build_fact_order decimal_casts 1 orders lines
              (wi_customers inputs) (wi_channels inputs) (wi_methods inputs))
    as [facts|e] eqn:B; [|exfalso; vm_compute in B; discriminate].
  pose proof B as B'. vm_compute in B'. injection B' as <-.
  eexists. eexists. split; [reflexivity|].
  split; [right; left; reflexivity|].
  split; [reflexivity|].
  destruct (FactProps.order_without_lines_defaults _ _ _ _ _ _ _ _ B)
    as (_ & H).
  refine (let H' := H _ (or_intror (or_introl eq_refl)) _ in
          conj (proj1 H') (proj1 (proj2 H'))).
  intros l [<- | [<- | []]]; vm_compute; discriminate.
Defined.

(** Ann and Bob have one order each. *)
Lemma customer_witness :
  exists dim d,
    build_dim_customer decimal_casts 1 orders [] = Ok dim /\
    In d dim /\ 1 <= dc_total_orders d /\
    (dc_customer_segment d = "new" \/ dc_customer_segment d = "returning").
Proof.
  destruct (build_dim_customer decimal_casts 1 orders []) as [dim|e] eqn:B;
    [|exfalso; vm_compute in B; discriminate].
  pose proof B as B'. vm_compute in B'. injection B' as <-.
  eexists. eexists. split; [reflexivity|].
  split; [left; reflexivity|].
  destruct (DimensionProps.customer_has_an_order _ _ _ _ _ B _
              (or_introl eq_refl)) as (H1 & H2 & _).
  exact (conj H1 H2).
Defined.


(** C6 on the code: the dimension has one row for every spelling of a
    shipping method, not one for every normalized method.  Three orders
    that spell one method in three ways give three rows of the code
    [standard_shipping], and the join of the order fact on this code then
    gives nine rows for the three orders. *)
Theorem shipping_codes_are_repeated :
  map shipping_method_code
      ["Standard Shipping"; "standard shipping"; "STANDARD SHIPPING"]
  = ["standard_shipping"; "standard_shipping"; "standard_shipping"] /\
  map (fun d => (ds_shipping_method_key d, sh_code (ds_method d),
                 sh_name (ds_method d)))
      (build_dim_shipping_method [] 1 spelled_orders)
  = [ (1, "standard_shipping", "Standard Shipping");
      (2, "standard_shipping", "standard shipping");
      (3, "standard_shipping", "STANDARD SHIPPING") ] /\
  ~ NoDup (map (fun d => sh_code (ds_method d))
               (build_dim_shipping_method [] 1 spelled_orders)) /\
  exists facts,
    build_fact_order decimal_casts 1 spelled_orders [] [] (wi_channels inputs)
      (build_dim_shipping_method [] 1 spelled_orders) = Ok facts /\
    map (fun f => (fo_order_id f, fo_shipping_method_key f)) facts
    = [ (2001, Some 1); (2001, Some 2); (2001, Some 3);
        (2002, Some 1); (2002, Some 2); (2002, Some 3);
        (2003, Some 1); (2003, Some 2); (2003, Some 3) ].
Proof.
  split; [vm_compute; reflexivity|].
  split; [vm_compute; reflexivity|].
  split.
  - intros N. vm_compute in N. inversion N as [|? ? X _]; subst.
    apply X. left. reflexivity.
  - eexists. split; vm_compute; reflexivity.
Qed.

(** Order 1002 carries two different items and order 1001 the same item
    twice: whatever the order of the rows, order 1002 is staged alike. *)
Lemma line_numbers_witness :
  exists t1 t2,
    build_stg_order_lines decimal_casts mixed_rows = Ok t1 /\
    build_stg_order_lines decimal_casts (rev mixed_rows) = Ok t2 /\
    forall l, sl_order_id l = 1002 -> (In l t1 <-> In l t2).
Proof.
  destruct (build_stg_order_lines decimal_casts mixed_rows) as [t1|e] eqn:B;
    [|exfalso; vm_compute in B; discriminate].
  destruct (StagingProps.line_numbers_reproducible
              decimal_casts mixed_rows (rev mixed_rows) t1
              StagingProps.byte_order_deterministic
              (Permutation_rev mixed_rows) B) as (t2 & B2 & H).
  exists t1, t2. split; [reflexivity|]. split; [exact B2|].
  apply H. intros x y Hx Hy _ E. vm_compute in Hx, Hy.
  destruct Hx as [<- | [<- | []]], Hy as [<- | [<- | []]];
    solve [reflexivity | vm_compute in E; discriminate].
Defined.

(** C8 as stated fails on rows that share an item name: the row of
    quantity 1 is line 1 when it is scanned first and line 2 when it is
    scanned second.  The rows are well formed: the order statement stages
    them in either arrangement. *)
Lemma line_numbers_depend_on_row_order :
  Permutation tied_rows (rev tied_rows) /\
  (exists o o',
      build_stg_orders decimal_casts tied_rows = Ok [o] /\
      build_stg_orders decimal_casts (rev tied_rows) = Ok [o'] /\
      so_order_id o = 1001 /\ so_order_id o' = 1001 /\
      so_created_at o = Some 1700000000 /\
      so_created_at o' = Some 1700000000) /\
  exists t1 t2,
    build_stg_order_lines decimal_casts tied_rows = Ok t1 /\
    build_stg_order_lines decimal_casts (rev tied_rows) = Ok t2 /\
    map (fun l => (sl_lineitem_name l, sl_lineitem_quantity l,
                   sl_line_number l)) t1
    = [("Oud 50ml", 1, 1); ("Oud 50ml", 2, 2)] /\
    map (fun l => (sl_lineitem_name l, sl_lineitem_quantity l,
                   sl_line_number l)) t2
    = [("Oud 50ml", 2, 1); ("Oud 50ml", 1, 2)] /\
    ~ (forall l, In l t1 <-> In l t2).
Proof.
  split; [apply Permutation_rev|].
  split; [eexists; eexists; repeat split; vm_compute; reflexivity|].
  eexists. eexists.
  split; [vm_compute; reflexivity|].
  split; [vm_compute; reflexivity|].
  split; [vm_compute; reflexivity|].
  split; [vm_compute; reflexivity|].
  intros H.
  match goal with
  | H : forall l, In l (?a :: _) <-> _ |- _ =>
      destruct (proj1 (H a) (or_introl eq_refl)) as [E | [E | []]];
      apply (f_equal (fun l => (sl_lineitem_quantity l, sl_line_number l)))
        in E; vm_compute in E; discriminate
  end.
Qed.

(** C7 as stated fails: a schema statement is rejected with a message
    that does not contain "already exists", the next statement is run, and
    the run ends with exit status 0. *)
Lemma schema_failure_exit_status_zero :
  Runner.execute_commit log_conn [] "CREATE TABL t"
  = inr "syntax error at or near TABL" /\
  Py.contains "already exists" (Py.lower "syntax error at or near TABL")
  = false /\
  exists w,
    Runner.main log_conn quiet_stages schema_files [] Runner.All false
                empty_world = (0, w) /\
    Runner.w_db w = ["CREATE TABLE u (id int)"] /\
    In (Runner.WARNING,
        "Statement warning: syntax error at or near TABL") (Runner.w_log w).
Proof.
  split; [reflexivity|]. split; [vm_compute; reflexivity|].
  eexists. split; [vm_compute; reflexivity|].
  split; [reflexivity|]. simpl. tauto.
Qed.

(** The tolerance at work on the same run, with "load" only. *)
Lemma schema_failures_witness :
  exists w1,
    Runner.init_database log_conn schema_files empty_world
    = (Runner.Returns tt, w1) /\
    fst (Runner.main log_conn quiet_stages schema_files [] Runner.Load false
                     empty_world) = 0.
Proof.
  destruct (RunnerProps.schema_failures_are_tolerated
              (list string) log_conn quiet_stages schema_files [] false
              empty_world) as (_ & _ & w1 & E & H).
  exists w1. split; [exact E|].
  apply H. eexists. reflexivity.
Defined.

(** C5 on the code: the customer key of an email with surrounding
    whitespace is the digest of the lower-cased email with its whitespace,
    in the dimension and in the join of the order fact alike, whereas
    [hash_email] digests the trimmed email. *)
Theorem customer_hash_keeps_whitespace :
  (exists d,
      build_dim_customer decimal_casts 1 padded_orders [] = Ok [d] /\
      dc_customer_id_hash d = Sha256.sha256_hex " ann@example.com") /\
  (exists o,
      traverse (order_hash decimal_casts) padded_orders
      = Ok [(o, Some (Sha256.sha256_hex " ann@example.com"))]) /\
  hash_email padded_email = Sha256.sha256_hex "ann@example.com" /\
  Sha256.sha256_hex " ann@example.com"
  = "6d7f3934d3a7e5f3a790019391065963c668100832cc74fd798d1bded0558fae" /\
  Sha256.sha256_hex "ann@example.com"
  = "71d4f55f72fa128dfb468a1a3901507c804b74316488744d769d7f4b16696476" /\
  Sha256.sha256_hex " ann@example.com" <> hash_email padded_email.
Proof.
  split; [eexists; split; vm_compute; reflexivity|].
  split; [eexists; vm_compute; reflexivity|].
  split; [vm_compute; reflexivity|].
  split; [vm_compute; reflexivity|].
  split; [vm_compute; reflexivity|].
  vm_compute. discriminate.
Qed.

End Examples.
(** ** Further properties of the fact tables *)

Module FactExtras.
Import Sql Staging Dimensions Facts SqlFacts.

(** The rows of the order fact, with the row of every joined table. *)
Lemma in_order_joins C next orders lines customers channels methods facts f :
  build_fact_order C next orders lines customers channels methods = Ok facts ->
  In f facts ->
  exists o h ols dc ch sm k ck,
    In o orders /\ order_hash C o = Ok (o, h) /\
    In ols (matches_or_null
              (filter (fun s => so_order_id o =? ols_order_id s)
                      (summarize_lines lines))) /\
    In dc (matches_or_null
             (filter (fun c => eq_key String.eqb h
                                      (Some (dc_customer_id_hash c)))
                     customers)) /\
    In ch (matches_or_null
             (filter (fun c => eq_key String.eqb
                                      (option_map lower (so_source o))
                                      (Some (ch_channel_code c)))
                     channels)) /\
    In sm (matches_or_null
             (filter (fun m => eq_key String.eqb
                                 (option_map shipping_method_code
                                             (so_shipping_method o))
                                 (Some (sh_code (ds_method m))))
                     methods)) /\
    channel_key_of channels ch = Ok ck /\
    f = order_fact_record ck methods o ols dc sm k.
Proof.
  unfold build_fact_order.
  destruct (traverse (order_hash C) orders) as [ohs|e] eqn:E;
    simpl; [|discriminate].
  intros T Hin.
  apply (traverse_In _ _ _ T) in Hin. destruct Hin as ([k g] & Hk & Eg).
  simpl in Eg.
  apply in_with_serial in Hk. apply in_flat_map in Hk.
  destruct Hk as ([o h] & Hoh & Hg).
  apply (traverse_In _ _ _ E) in Hoh. destruct Hoh as (o' & Ho' & Eo').
  assert (o' = o).
  { unfold order_hash in Eo'. destruct (so_email o').
    - destruct (customer_id_hash C s); simpl in Eo'; congruence.
    - congruence. }
  subst o'.
  unfold order_joins in Hg.
  apply in_flat_map in Hg. destruct Hg as (ols & Hols & Hg).
  apply in_flat_map in Hg. destruct Hg as (dc & Hdc & Hg).
  apply in_flat_map in Hg. destruct Hg as (ch & Hch & Hg).
  apply in_map_iff in Hg. destruct Hg as (sm & <- & Hsm).
  unfold order_fact_row in Eg.
  destruct (channel_key_of channels ch) as [ck|] eqn:CK;
    simpl in Eg; [|discriminate].
  injection Eg as <-.
  exists o, h, ols, dc, ch, sm, k, ck. auto 10.
Qed.

(** The summary joined to an order with staged lines. *)
Lemma summary_of_order lines oid ols :
  lines_of oid lines <> [] ->
  In ols (matches_or_null
            (filter (fun s => oid =? ols_order_id s) (summarize_lines lines))) ->
  ols = Some {| ols_order_id := oid;
                ols_unit_count :=
                  sum_int (map sl_lineitem_quantity (lines_of oid lines));
                ols_line_item_count := count_star (lines_of oid lines);
                ols_calculated_gross :=
                  sum_agg (map line_gross (lines_of oid lines)) |}.
Proof.
  intros N H. apply in_matches_or_null in H.
  destruct H as [[E _] | (s & Hs & ->)].
  - exfalso.
    assert (I : In oid (map sl_order_id lines)).
    { destruct (lines_of oid lines) as [|l t] eqn:G; [congruence|].
      assert (Hl : In l (lines_of oid lines)) by (rewrite G; left; reflexivity).
      apply filter_In in Hl. destruct Hl as [Hl El]. apply Z.eqb_eq in El.
      rewrite <- El. apply in_map. assumption. }
    apply (in_distinct Z.eqb) in I; [|apply Z.eqb_eq].
    unfold summarize_lines in E.
    set (row := fun oid0 : Z => _) in E.
    assert (J : In (row oid)
                   (filter (fun s => oid =? ols_order_id s)
                           (map row (distinct Z.eqb (map sl_order_id lines))))).
    { apply filter_In. split; [apply in_map; assumption|].
      simpl. apply Z.eqb_refl. }
    rewrite E in J. destruct J.
  - apply filter_In in Hs. destruct Hs as [Hs E]. apply Z.eqb_eq in E.
    unfold summarize_lines in Hs. apply in_map_iff in Hs.
    destruct Hs as (oid' & <- & _). simpl in E. subst oid'. reflexivity.
Qed.

(** For an order with staged lines, the counts of the order fact are the
    number of its lines and the sum of their quantities, and its gross is
    the sum of price times quantity over its lines, unless no line has a
    price: then it falls back to subtotal plus discount. *)
Theorem order_with_lines_aggregates :
  forall C next orders lines customers channels methods facts,
    build_fact_order C next orders lines customers channels methods
    = Ok facts ->
    forall f, In f facts ->
      let g := lines_of (fo_order_id f) lines in
      g <> [] ->
      fo_line_item_count f = Z.of_nat (List.length g) /\
      fo_unit_count f = fold_right Z.add 0 (map sl_lineitem_quantity g) /\
      fo_gross_product_sales f
      = coalesce_opt (sum_agg (map line_gross g))
                     (add (fo_subtotal f) (Some (fo_order_discount_amount f))).
Proof.
  intros C next orders lines customers channels methods facts B f Hf g Hg.
  destruct (in_order_joins _ _ _ _ _ _ _ _ _ B Hf)
    as (o & h & ols & dc & ch & sm & k & ck & _ & _ & Hols & _ & _ & _ & _
        & ->).
  subst g. simpl in *.
  rewrite (summary_of_order _ _ _ Hg Hols). simpl.
  split; [reflexivity|]. split; [|reflexivity].
  unfold sum_int. destruct (map sl_lineitem_quantity _) eqn:M; [|reflexivity].
  apply map_eq_nil in M. contradiction.
Qed.

(** *** Grain *)

(** A join condition that pins a unique key matches at most one row. *)
Lemma filter_at_most_one {A K} (key : A -> K) (f : A -> bool) (k : K)
  (l : list A) :
  NoDup (map key l) -> (forall x, f x = true -> key x = k) ->
  filter f l = [] \/ exists x, filter f l = [x].
Proof.
  intros N H. induction l as [|a t IH]; simpl; [left; reflexivity|].
  inversion N as [|? ? Na Nt]; subst.
  destruct (f a) eqn:Fa; [|apply IH; assumption].
  right. exists a. f_equal.
  destruct (filter f t) as [|b t'] eqn:Ft; [reflexivity|]. exfalso.
  assert (Hb : In b (filter f t)) by (rewrite Ft; left; reflexivity).
  apply filter_In in Hb. destruct Hb as [Hb Fb].
  apply Na. rewrite (H a Fa), <- (H b Fb). apply in_map. assumption.
Qed.

Lemma filter_none {A} (f : A -> bool) (l : list A) :
  (forall x, f x = false) -> filter f l = [].
Proof.
  intros H. induction l as [|a t IH]; simpl; [reflexivity|].
  rewrite H. exact IH.
Qed.

Lemma matches_or_null_single {B} (ms : list B) :
  ms = [] \/ (exists x, ms = [x]) -> exists y, matches_or_null ms = [y].
Proof.
  intros [-> | (x & ->)]; simpl; eauto.
Qed.

Lemma eq_key_string (x : option string) (y : string) :
  eq_key String.eqb x (Some y) = true -> x = Some y.
Proof.
  destruct x as [a|]; simpl; [|discriminate].
  intros H. apply String.eqb_eq in H. congruence.
Qed.

Lemma summarize_lines_NoDup lines :
  NoDup (map ols_order_id (summarize_lines lines)).
Proof.
  unfold summarize_lines. rewrite map_map. simpl. rewrite map_id.
  apply distinct_NoDup. apply Z.eqb_eq.
Qed.

(** With distinct keys in the joined tables, the joins of the order-fact
    statement yield one row for an order. *)
Lemma order_joins_single lines customers channels methods oh :
  NoDup (map dc_customer_id_hash customers) ->
  NoDup (map ch_channel_code channels) ->
  NoDup (map (fun m => sh_code (ds_method m)) methods) ->
  exists ols dc ch sm,
    order_joins lines customers channels methods oh
    = [order_fact_row channels methods (fst oh) ols dc ch sm].
Proof.
  intros Nc Nch Nm. destruct oh as [o h]. unfold order_joins.
  destruct (matches_or_null_single
              (filter (fun s => so_order_id o =? ols_order_id s)
                      (summarize_lines lines))) as (ols & ->).
  { apply (filter_at_most_one ols_order_id _ (so_order_id o));
      [apply summarize_lines_NoDup|].
    intros x E. apply Z.eqb_eq in E. congruence. }
  destruct (matches_or_null_single
              (filter (fun c => eq_key String.eqb h
                                       (Some (dc_customer_id_hash c)))
                      customers)) as (dc & ->).
  { destruct h as [h|]; [|left; apply filter_none; reflexivity].
    apply (filter_at_most_one dc_customer_id_hash _ h); [assumption|].
    intros x E. apply eq_key_string in E. congruence. }
  destruct (matches_or_null_single
              (filter (fun c => eq_key String.eqb
                                       (option_map lower (so_source o))
                                       (Some (ch_channel_code c)))
                      channels)) as (ch & ->).
  { destruct (option_map lower (so_source o)) as [k|];
      [|left; apply filter_none; reflexivity].
    apply (filter_at_most_one ch_channel_code _ k); [assumption|].
    intros x E. apply eq_key_string in E. congruence. }
  destruct (matches_or_null_single
              (filter (fun m => eq_key String.eqb
                                  (option_map shipping_method_code
                                              (so_shipping_method o))
                                  (Some (sh_code (ds_method m))))
                      methods)) as (sm & ->).
  { destruct (option_map shipping_method_code (so_shipping_method o)) as [k|];
      [|left; apply filter_none; reflexivity].
    apply (filter_at_most_one (fun m => sh_code (ds_method m)) _ k);
      [assumption|].
    intros x E. apply eq_key_string in E. congruence. }
  simpl. exists ols, dc, ch, sm. reflexivity.
Qed.

Lemma traverse_order_hash C orders ohs :
  traverse (order_hash C) orders = Ok ohs -> map fst ohs = orders.
Proof.
  intros E. apply traverse_Forall2 in E.
  induction E as [|o oh t ts Eo Et IH]; simpl; [reflexivity|].
  f_equal; [|exact IH].
  unfold order_hash in Eo. destruct (so_email o).
  - destruct (customer_id_hash C s); simpl in Eo; [|discriminate].
    injection Eo as <-. reflexivity.
  - injection Eo as <-. reflexivity.
Qed.

Lemma Forall2_combine {A B K} (R : K * A -> B -> Prop) (ks : list K)
  (l : list A) (bs : list B) :
  List.length ks = List.length l ->
  Forall2 R (combine ks l) bs ->
  Forall2 (fun a b => exists k, R (k, a) b) l bs.
Proof.
  revert ks bs. induction l as [|a t IH]; intros ks bs L F.
  - destruct ks; [|discriminate L]. inversion F. constructor.
  - destruct ks as [|k ks]; [discriminate L|]. simpl in F.
    inversion F as [|? b ? bt Rb Ft]; subst.
    constructor; [eauto|]. apply (IH ks); [simpl in L; congruence | exact Ft].
Qed.

Lemma Forall2_compose {A B D} (R1 : A -> B -> Prop) (R2 : B -> D -> Prop)
  (l1 : list A) (l2 : list B) (l3 : list D) :
  Forall2 R1 l1 l2 -> Forall2 R2 l2 l3 ->
  Forall2 (fun a d => exists b, R1 a b /\ R2 b d) l1 l3.
Proof.
  intros F1. revert l3. induction F1 as [|a b t bt Ra Ft IH]; intros l3 F2.
  - inversion F2. constructor.
  - inversion F2 as [|? d ? dt Rd Fdt]; subst. constructor; eauto.
Qed.

Lemma Forall2_map_eq {A B D} (R : A -> B -> Prop) (h : A -> D) (g : B -> D)
  (l : list A) (l' : list B) :
  Forall2 R l l' -> (forall a b, In a l -> R a b -> h a = g b) ->
  map h l = map g l'.
Proof.
  intros F H. induction F as [|a b t bt Rab Ft IH]; simpl; [reflexivity|].
  f_equal.
  - apply H; [left; reflexivity | exact Rab].
  - apply IH. intros x y Hx. apply H. right. exact Hx.
Qed.

(** The grain of the order fact: when the customer digests, the channel
    codes and the shipping-method codes of the dimensions are distinct,
    the statement inserts one row per staged order (no order is dropped
    and none is repeated), with distinct order keys. *)
Theorem order_fact_grain :
  forall C next orders lines customers channels methods facts,
    build_fact_order C next orders lines customers channels methods
    = Ok facts ->
    NoDup (map dc_customer_id_hash customers) ->
    NoDup (map ch_channel_code channels) ->
    NoDup (map (fun m => sh_code (ds_method m)) methods) ->
    Permutation (map fo_order_id facts) (map so_order_id orders) /\
    NoDup (map fo_order_key facts).
Proof.
  intros C next orders lines customers channels methods facts B Nc Nch Nm.
  unfold build_fact_order in B.
  destruct (traverse (order_hash C) orders) as [ohs|e] eqn:E;
    simpl in B; [|discriminate].
  apply traverse_Forall2 in B.
  set (rows := flat_map (order_joins lines customers channels methods) ohs)
    in *.
  assert (F1 : Forall2 (fun oh g =>
                          exists ols dc ch sm,
                            g = order_fact_row channels methods (fst oh)
                                               ols dc ch sm)
                       ohs rows).
  { unfold rows. generalize ohs. intros l.
    induction l as [|oh t IH]; simpl; [constructor|].
    destruct (order_joins_single lines customers channels methods oh
                Nc Nch Nm) as (ols & dc & ch & sm & ->).
    simpl. constructor; [eauto 6 | exact IH]. }
  assert (Rw : forall o ols dc ch sm k f,
             order_fact_row channels methods o ols dc ch sm k = Ok f ->
             fo_order_id f = so_order_id o /\ fo_order_key f = k).
  { intros o ols dc ch sm k f H. unfold order_fact_row in H.
    destruct (channel_key_of channels ch); simpl in H; [|discriminate].
    injection H as <-. split; reflexivity. }
  split.
  - assert (F2 : Forall2 (fun g f => exists k, g k = Ok f) rows facts).
    { apply (Forall2_combine (fun kg f => snd kg (fst kg) = Ok f)
               (map (fun i => next + Z.of_nat i)
                    (seq 0 (List.length rows)))).
      - rewrite length_map, length_seq. reflexivity.
      - exact B. }
    pose proof (Forall2_compose _ _ _ _ _ F1 F2) as F3.
    rewrite <- (traverse_order_hash _ _ _ E), map_map.
    apply Permutation_refl'. symmetry.
    apply (Forall2_map_eq _ _ _ _ _ F3).
    intros oh f _ (g & (ols & dc & ch & sm & ->) & k & H).
    symmetry. exact (proj1 (Rw _ _ _ _ _ _ _ H)).
  - assert (M : map fst (with_serial next rows) = map fo_order_key facts).
    { apply (Forall2_map_eq _ _ _ _ _ B).
      intros [k g] f Hk H. simpl in H. apply in_with_serial in Hk.
      destruct (Forall2_In_r _ _ _ _ F1 Hk)
        as (oh & _ & ols & dc & ch & sm & ->).
      symmetry. exact (proj2 (Rw _ _ _ _ _ _ _ H)). }
    rewrite <- M. apply with_serial_NoDup.
Qed.

Lemma eq_key_string_l (x : string) (y : option string) :
  eq_key String.eqb (Some x) y = true -> y = Some x.
Proof.
  destruct y as [b|]; simpl; [|discriminate].
  intros H. apply String.eqb_eq in H. congruence.
Qed.

(** With distinct item names in the SKU map and distinct SKUs in the
    product dimension, the product joins yield one row for a line. *)
Lemma product_joins_single skm products lwa :
  NoDup (map sk_lineitem_name skm) ->
  NoDup (map dp_internal_sku products) ->
  exists dp, product_joins skm products lwa = [order_line_row lwa dp].
Proof.
  intros Ns Np. unfold product_joins.
  destruct (matches_or_null_single
              (filter (fun m => eq_key String.eqb
                                  (Some (sl_lineitem_name (fst (fst lwa))))
                                  (sk_lineitem_name m))
                      skm)) as (m & ->).
  { apply (filter_at_most_one sk_lineitem_name _
             (Some (sl_lineitem_name (fst (fst lwa))))); [assumption|].
    intros x E. apply eq_key_string_l in E. assumption. }
  simpl. rewrite app_nil_r.
  destruct (matches_or_null_single
              (filter (fun p => eq_key String.eqb
                                  (option_map sk_internal_sku m)
                                  (Some (dp_internal_sku p)))
                      products)) as (dp & ->).
  { destruct (option_map sk_internal_sku m) as [k|];
      [|left; apply filter_none; reflexivity].
    apply (filter_at_most_one dp_internal_sku _ k); [assumption|].
    intros x E. apply eq_key_string in E. congruence. }
  exists dp. reflexivity.
Qed.

(** The staged lines that the inner join with the order fact keeps. *)
Lemma inner_join_lines lines orders :
  NoDup (map fo_order_id orders) ->
  map fst (inner_join (fun l fo => sl_order_id l =? fo_order_id fo)
                      lines orders)
  = filter (fun l => existsb (fun fo => sl_order_id l =? fo_order_id fo)
                             orders) lines.
Proof.
  intros N. unfold inner_join.
  induction lines as [|l t IH]; simpl; [reflexivity|].
  rewrite map_app, IH, map_map. simpl.
  destruct (filter_at_most_one fo_order_id
              (fun fo => sl_order_id l =? fo_order_id fo) (sl_order_id l)
              orders N) as [E | (fo & E)].
  { intros x H. apply Z.eqb_eq in H. congruence. }
  - rewrite E. simpl.
    destruct (existsb _ orders) eqn:X; [|reflexivity].
    apply existsb_exists in X. destruct X as (fo & Hfo & Efo).
    assert (I : In fo (filter (fun fo => sl_order_id l =? fo_order_id fo)
                              orders))
      by (apply filter_In; auto).
    rewrite E in I. destruct I.
  - rewrite E. simpl.
    assert (I : In fo (filter (fun fo => sl_order_id l =? fo_order_id fo)
                              orders))
      by (rewrite E; left; reflexivity).
    apply filter_In in I.
    assert (X : existsb (fun fo => sl_order_id l =? fo_order_id fo) orders
                = true)
      by (apply existsb_exists; exists fo; exact I).
    rewrite X. reflexivity.
Qed.

(** The grain of the order-line fact: a staged line whose order has no
    row in the order fact is dropped; with distinct order ids in the order
    fact, distinct item names in the SKU map and distinct SKUs in the
    product dimension, every other staged line has one row, in the order
    of the staged lines, with distinct line keys. *)
Theorem order_line_fact_grain :
  forall next lines orders skm products fols,
    build_fact_order_line next lines orders skm products = Ok fols ->
    NoDup (map fo_order_id orders) ->
    NoDup (map sk_lineitem_name skm) ->
    NoDup (map dp_internal_sku products) ->
    map (fun f => (fol_order_id f, fol_line_number f)) fols
    = map (fun l => (sl_order_id l, sl_line_number l))
          (filter (fun l => existsb (fun fo => sl_order_id l =? fo_order_id fo)
                                    orders) lines) /\
    NoDup (map fol_order_line_key fols).
Proof.
  intros next lines orders skm products fols B No Ns Np.
  split; [|exact (proj1 (FactProps.build_fact_order_line_fresh
                           _ _ _ _ _ _ B))].
  unfold build_fact_order_line in B.
  destruct (line_with_allocation lines orders) as [lwas|e] eqn:E;
    simpl in B; [|discriminate].
  injection B as <-.
  assert (L : map (fun lwa => fst (fst lwa)) lwas
              = map fst (inner_join
                           (fun l fo => sl_order_id l =? fo_order_id fo)
                           lines orders)).
  { unfold line_with_allocation in E. apply traverse_Forall2 in E.
    induction E as [|lf lwa t ts Ea Et IH]; simpl; [reflexivity|].
    f_equal; [|exact IH].
    destruct (allocated_order_discount (fst lf) (snd lf)); simpl in Ea;
      [|discriminate].
    injection Ea as <-. reflexivity. }
  rewrite (inner_join_lines _ _ No) in L. rewrite <- L. clear L E.
  set (rows := flat_map (product_joins skm products) lwas).
  assert (R : forall g, In g rows -> exists lwa dp, g = order_line_row lwa dp).
  { intros g Hg. unfold rows in Hg. apply in_flat_map in Hg.
    destruct Hg as (lwa & _ & Hg).
    destruct (product_joins_single skm products lwa Ns Np) as (dp & J).
    rewrite J in Hg. destruct Hg as [<- | []]. eauto. }
  rewrite map_map.
  rewrite (map_ext_in _ (fun kf => (fol_order_id (snd kf 0),
                                    fol_line_number (snd kf 0)))).
  2:{ intros [k g] Hk. apply in_with_serial in Hk.
      destruct (R g Hk) as ([[l fo] a] & dp & ->). reflexivity. }
  rewrite <- (map_map snd (fun g => (fol_order_id (g 0),
                                     fol_line_number (g 0)))).
  rewrite with_serial_values. unfold rows. clear R rows.
  rewrite map_map.
  induction lwas as [|lwa t IH]; simpl; [reflexivity|].
  destruct (product_joins_single skm products lwa Ns Np) as (dp & ->).
  simpl. rewrite IH. f_equal. destruct lwa as [[l fo] a]. reflexivity.
Qed.

(** *** Costing *)

Lemma filter_twice {A} (f g : A -> bool) (l : list A) :
  (forall x, f x = true -> g x = true) ->
  filter f (filter g l) = filter f l.
Proof.
  intros H. induction l as [|a t IH]; simpl; [reflexivity|].
  destruct (g a) eqn:Ga; simpl.
  - rewrite IH. reflexivity.
  - destruct (f a) eqn:Fa; [|exact IH].
    rewrite (H a Fa) in Ga. discriminate.
Qed.

(** Recipe rows of another variant than ['final'] are never costed: the
    estimates are those of the final rows alone. *)
Theorem drafts_are_never_costed :
  forall fols products recipes materials,
    build_fact_cogs_estimate fols products recipes materials
    = build_fact_cogs_estimate fols products (filter is_final recipes)
                               materials.
Proof.
  intros fols products recipes materials. unfold build_fact_cogs_estimate.
  apply flat_map_ext. intros fol. apply flat_map_ext. intros dp.
  rewrite filter_twice; [reflexivity|].
  intros r M. unfold recipe_matches in M.
  apply andb_true_iff in M. destruct M as [_ M]. exact M.
Qed.

Lemma ingredient_cost_nonneg r dm :
  nonneg (sr_amount_ml r) ->
  (forall m, dm = Some m ->
             nonneg (dm_cost_per_ml m) /\ nonneg (dm_cost_per_unit m)) ->
  nonneg (ingredient_cost r dm).
Proof.
  intros Ha Hm c. unfold ingredient_cost.
  destruct dm as [m|]; simpl;
    [|intros E; injection E as <-; apply to_Q_nonneg; simpl; lia].
  destruct (Hm m eq_refl) as [Hml Hun].
  destruct (dm_has_known_cost m); simpl;
    [|intros E; injection E as <-; apply to_Q_nonneg; simpl; lia].
  destruct (dm_cost_per_ml m) as [pm|] eqn:Pm; simpl.
  - destruct (sr_amount_ml r) as [a|] eqn:A; simpl; [|discriminate].
    intros E; injection E as <-.
    apply to_Q_nonneg. apply num_mul_nonneg; apply to_Q_nonneg;
      [apply Ha | apply Hml]; reflexivity.
  - destruct (dm_cost_per_unit m) as [pu|] eqn:Pu; simpl.
    + intros E; injection E as <-. apply Hun; reflexivity.
    + intros E; injection E as <-. apply to_Q_nonneg. simpl. lia.
Qed.

Lemma total_line_cost_nonneg (g : list fact_cogs_estimate) :
  (forall c, In c g -> nonneg (fce_line_cost c)) ->
  (0 <= to_Q (total_line_cost g))%Q.
Proof.
  intros H. apply to_Q_nonneg. unfold total_line_cost.
  induction g as [|c t IH]; [simpl; lia|].
  cbn [map fold_right]. apply num_add_nonneg.
  - destruct (fce_line_cost c) as [a|] eqn:E; simpl.
    + apply to_Q_nonneg. apply (H c (or_introl eq_refl)). exact E.
    + lia.
  - apply IH. intros c' Hc'. apply H. right. exact Hc'.
Qed.

(** With material costs and recipe amounts that are not negative, no
    ingredient cost is negative, and at the end of [build_facts] every
    order line has an estimated COGS, which is not negative. *)
Theorem estimated_cogs_nonnegative :
  forall C w facts,
    build_facts C w = Ok facts ->
    (forall m, In m (wi_materials w) ->
               nonneg (dm_cost_per_ml m) /\ nonneg (dm_cost_per_unit m)) ->
    (forall r, In r (wi_recipes w) -> nonneg (sr_amount_ml r)) ->
    (forall c, In c (wf_cogs facts) -> nonneg (fce_line_cost c)) /\
    forall f, In f (wf_lines facts) ->
      exists x, fol_estimated_cogs f = Some x /\ (0 <= to_Q x)%Q.
Proof.
  intros C w facts B Hm Hr.
  unfold build_facts in B.
  destruct (build_fact_order _ _ _ _ _ _ _) as [fos|e]; simpl in B;
    [|discriminate].
  destruct (build_fact_order_line _ _ _ _ _) as [fols|e] eqn:BL; simpl in B;
    [|discriminate].
  set (cogs := build_fact_cogs_estimate fols (wi_products w) (wi_recipes w)
                 (wi_materials w)) in *.
  destruct (FactProps.update_cogs_rows fols cogs) as (fols' & E & F).
  rewrite E in B. simpl in B. injection B as <-. simpl.
  assert (Hc : forall c, In c cogs -> nonneg (fce_line_cost c)).
  { intros c Hin. unfold cogs, build_fact_cogs_estimate in Hin.
    apply in_flat_map in Hin. destruct Hin as (fol & _ & Hin).
    apply in_flat_map in Hin. destruct Hin as (dp & _ & Hin).
    apply in_flat_map in Hin. destruct Hin as (r & Hrec & Hin).
    apply in_map_iff in Hin. destruct Hin as (dm & <- & Hdm).
    apply filter_In in Hrec. simpl.
    apply ingredient_cost_nonneg; [apply Hr; tauto|].
    intros m ->. apply Hm.
    apply in_matches_or_null in Hdm.
    destruct Hdm as [[_ X] | (m' & Hm' & X)]; [discriminate|].
    injection X as <-. apply filter_In in Hm'. tauto. }
  split; [exact Hc|].
  intros f Hf.
  destruct (FactProps.build_fact_order_line_fresh _ _ _ _ _ _ BL)
    as (_ & Null).
  destruct (Forall2_In_r _ _ _ _ F Hf) as (f0 & Hf0 & _ & _ & U).
  rewrite (Null f0 Hf0) in U.
  destruct (estimates_of (fol_order_line_key f0) cogs) as [|c g] eqn:G.
  - destruct U as (U & _). exists (of_int 0).
    split; [exact U | apply to_Q_nonneg; simpl; lia].
  - destruct U as (_ & _ & U & _). eexists. split; [exact U|].
    apply total_line_cost_nonneg. intros c' Hc'. apply Hc.
    assert (I : In c' (estimates_of (fol_order_line_key f0) cogs))
      by (rewrite G; exact Hc').
    apply filter_In in I. tauto.
Qed.

(** *** Resolution of the dimension keys *)

(** Every non-empty email of a staged order is an email of
    [order_customers]. *)
Lemma order_customers_covers (orders : list stg_order) o e :
  In o orders -> so_email o = Some e -> e <> "" ->
  exists t, In (e, t) (order_customers orders).
Proof.
  intros Ho E N. unfold order_customers. eexists.
  apply in_map_iff. exists e. split; [reflexivity|].
  apply in_distinct; [apply String.eqb_eq|].
  apply in_map_iff. exists o. rewrite E. split; [reflexivity|].
  apply filter_In. split; [assumption|].
  rewrite E. simpl. apply negb_true_iff. apply String.eqb_neq. assumption.
Qed.

(** The customer dimension has a row under the digest of every non-empty
    email of a staged order. *)
Lemma dim_customer_covers C next orders customers dim o e :
  build_dim_customer C next orders customers = Ok dim ->
  In o orders -> so_email o = Some e -> e <> "" ->
  exists d, In d dim /\ customer_id_hash C e = Ok (dc_customer_id_hash d).
Proof.
  intros B Ho E N. unfold build_dim_customer in B.
  destruct (customer_rows C orders customers) as [rows|x] eqn:R;
    simpl in B; [|discriminate].
  injection B as <-.
  destruct (order_customers_covers orders o e Ho E N) as (t & Hoc).
  destruct (matches_or_null_nonempty
              (filter (fun c => eq_key String.eqb (Some (lower e))
                                       (option_map lower (sc_email c)))
                      customers)) as (c & Hc).
  destruct (matches_or_null_nonempty
              (filter (fun cs => eq_key String.eqb (Some (lower e))
                                        (option_map lower (cs_email cs)))
                      (customer_stats orders))) as (cs & Hcs).
  unfold customer_rows in R. pose proof R as R'.
  apply traverse_Forall2 in R'.
  assert (J : In ((e, t), c, cs)
                 (flat_map
                    (fun oc =>
                       flat_map
                         (fun c =>
                            map (fun cs => (oc, c, cs))
                                (matches_or_null
                                   (filter
                                      (fun cs => eq_key String.eqb
                                                   (Some (lower (fst oc)))
                                                   (option_map lower
                                                               (cs_email cs)))
                                      (customer_stats orders))))
                         (matches_or_null
                            (filter
                               (fun c => eq_key String.eqb
                                           (Some (lower (fst oc)))
                                           (option_map lower (sc_email c)))
                               customers)))
                    (order_customers orders))).
  { apply in_flat_map. exists (e, t). split; [assumption|].
    apply in_flat_map. exists c. split; [exact Hc|].
    apply in_map_iff. exists cs. split; [reflexivity | exact Hcs]. }
  destruct (Forall2_In_l _ _ _ _ R' J) as (row & Hrow & Erow).
  simpl in Erow.
  destruct (customer_id_hash C e) as [h|] eqn:Eh; simpl in Erow;
    [|discriminate].
  injection Erow as <-.
  destruct (in_with_serial_exists next _ _ Hrow) as (k & Hk).
  eexists. split.
  - apply in_map_iff. eexists. split; [reflexivity | exact Hk].
  - reflexivity.
Qed.

(** The customer key of the order fact is resolved for every order with a
    non-empty email, against the dimension built from the same staged
    orders; it is NULL for an order without email. *)
Theorem customer_key_resolved :
  forall C n1 n2 orders lines stg_customers channels methods dim facts,
    build_dim_customer C n1 orders stg_customers = Ok dim ->
    build_fact_order C n2 orders lines dim channels methods = Ok facts ->
    forall f, In f facts ->
      exists o, In o orders /\ fo_order_id f = so_order_id o /\
        (forall e, so_email o = Some e -> e <> "" ->
           exists d, In d dim /\
             customer_id_hash C e = Ok (dc_customer_id_hash d) /\
             fo_customer_key f = Some (dc_customer_key d)) /\
        (so_email o = None -> fo_customer_key f = None).
Proof.
  intros C n1 n2 orders lines stg_customers channels methods dim facts
         BD BF f Hf.
  destruct (in_order_joins _ _ _ _ _ _ _ _ _ BF Hf)
    as (o & h & ols & dc & ch & sm & k & ck & Ho & Eh & _ & Hdc & _ & _ & _
        & ->).
  exists o. split; [assumption|]. split; [reflexivity|]. simpl. split.
  - intros e E N.
    destruct (dim_customer_covers _ _ _ _ _ _ _ BD Ho E N) as (d & Hd & Hh).
    unfold order_hash in Eh. rewrite E, Hh in Eh. simpl in Eh.
    injection Eh as <-.
    apply in_matches_or_null in Hdc.
    destruct Hdc as [[X _] | (d' & Hd' & ->)].
    + exfalso.
      assert (I : In d (filter (fun c => eq_key String.eqb
                                           (Some (dc_customer_id_hash d))
                                           (Some (dc_customer_id_hash c)))
                               dim)).
      { apply filter_In. split; [assumption|]. simpl. apply String.eqb_refl. }
      rewrite X in I. destruct I.
    + apply filter_In in Hd'. destruct Hd' as [Hd' X].
      simpl in X. apply String.eqb_eq in X.
      exists d'. split; [assumption|]. split; [|reflexivity].
      rewrite <- X. exact Hh.
  - intros E. unfold order_hash in Eh. rewrite E in Eh.
    injection Eh as <-.
    apply in_matches_or_null in Hdc.
    destruct Hdc as [[_ ->] | (d' & Hd' & _)]; [reflexivity|].
    apply filter_In in Hd'. destruct Hd' as [_ X]. discriminate.
Qed.

(** The shipping-method key of the order fact is never NULL against the
    dimension built by [build_dimensions], and for an order with a
    non-empty shipping method it is the key of a row of the dimension
    under the normalized code of that method, when the dimension was built
    from the same staged orders. *)
Theorem shipping_key_resolved :
  forall C old n1 n2 dim_orders orders lines customers channels facts,
    build_fact_order C n2 orders lines customers channels
      (build_dim_shipping_method old n1 dim_orders) = Ok facts ->
    forall f, In f facts ->
      fo_shipping_method_key f <> None /\
      (dim_orders = orders ->
       exists o, In o orders /\ fo_order_id f = so_order_id o /\
         forall m, so_shipping_method o = Some m -> m <> "" ->
           exists d, In d (build_dim_shipping_method old n1 dim_orders) /\
             sh_code (ds_method d) = shipping_method_code m /\
             fo_shipping_method_key f = Some (ds_shipping_method_key d)).
Proof.
  intros C old n1 n2 dim_orders orders lines customers channels facts
         BF f Hf.
  remember (build_dim_shipping_method old n1 dim_orders) as methods eqn:EM.
  destruct (in_order_joins _ _ _ _ _ _ _ _ _ BF Hf)
    as (o & h & ols & dc & ch & sm & k & ck & Ho & _ & _ & _ & _ & Hsm & _
        & ->).
  simpl. split.
  - destruct sm as [d|]; simpl; [discriminate|].
    destruct methods as [|d t]; simpl; [|discriminate].
    exfalso.
    apply (DimensionProps.shipping_methods_nonempty dim_orders).
    rewrite <- (DimensionProps.dim_shipping_methods old n1 dim_orders).
    rewrite <- EM. reflexivity.
  - intros ->. exists o. split; [assumption|]. split; [reflexivity|].
    intros m E N.
    assert (I : In (method_of m) (map ds_method methods)).
    { rewrite EM. rewrite DimensionProps.dim_shipping_methods.
      apply DimensionProps.in_shipping_methods. left. exists o, m. auto. }
    apply in_map_iff in I. destruct I as (d0 & Ed0 & Hd0).
    rewrite E in Hsm. simpl in Hsm.
    apply in_matches_or_null in Hsm.
    destruct Hsm as [[X _] | (d & Hd & ->)].
    + exfalso.
      assert (J : In d0 (filter (fun m0 => String.eqb (shipping_method_code m)
                                             (sh_code (ds_method m0)))
                                methods)).
      { apply filter_In. split; [assumption|].
        rewrite Ed0. simpl. apply String.eqb_refl. }
      rewrite X in J. destruct J.
    + apply filter_In in Hd. destruct Hd as [Hd X].
      apply String.eqb_eq in X.
      exists d. split; [assumption|]. split; [congruence | reflexivity].
Qed.

Lemma filter_none_in {A} (f : A -> bool) (l : list A) :
  (forall x, In x l -> f x = false) -> filter f l = [].
Proof.
  induction l as [|a t IH]; intros H; simpl; [reflexivity|].
  rewrite (H a (or_introl eq_refl)). apply IH.
  intros x Hx. apply H. right. exact Hx.
Qed.

Lemma web_channel_key_cases (channels : list dim_channel) (ck : option Z) :
  web_channel_key channels = Ok ck ->
  (filter (fun c => String.eqb (ch_channel_code c) "web") channels = [] /\
   ck = None)
  \/ (exists w,
        filter (fun c => String.eqb (ch_channel_code c) "web") channels = [w]
        /\ ck = Some (ch_channel_key w)).
Proof.
  unfold web_channel_key. intros H.
  destruct (filter (fun c => String.eqb (ch_channel_code c) "web") channels)
    as [|w [|w' t]]; simpl in H; [| |discriminate].
  - injection H as <-. left. auto.
  - injection H as <-. right. eauto.
Qed.

(** The channel key of the order fact is the key of the channel whose
    code is the lower-cased source of the order.  For an order with no
    such channel (or no source) the scalar subquery on ['web'] is
    evaluated: the key is that of the ['web'] channel when there is one
    and NULL when there is none, so that it is never NULL when the channel
    dimension has a ['web'] row; when two channels carry the code
    ['web'], the subquery raises and the statement fails. *)
Theorem channel_key_falls_back_to_web :
  forall C next orders lines customers channels methods,
    let web := filter (fun c => String.eqb (ch_channel_code c) "web")
                      channels in
    (forall facts,
        build_fact_order C next orders lines customers channels methods
        = Ok facts ->
        forall f, In f facts ->
          ((exists c, In c channels /\ ch_channel_code c = "web") ->
           fo_channel_key f <> None) /\
          exists o, In o orders /\ fo_order_id f = so_order_id o /\
            ((exists c, In c channels /\
                        so_source o <> None /\
                        option_map lower (so_source o)
                        = Some (ch_channel_code c) /\
                        fo_channel_key f = Some (ch_channel_key c))
             \/
             ((forall c, In c channels ->
                         option_map lower (so_source o)
                         <> Some (ch_channel_code c)) /\
              ((web = [] /\ fo_channel_key f = None) \/
               (exists w, web = [w] /\
                          fo_channel_key f = Some (ch_channel_key w)))))) /\
    (forall o, In o orders ->
       (forall c, In c channels ->
                  option_map lower (so_source o) <> Some (ch_channel_code c)) ->
       (2 <= List.length web)%nat ->
       forall facts,
         build_fact_order C next orders lines customers channels methods
         <> Ok facts).
Proof.
  intros C next orders lines customers channels methods web. split.
  - intros facts BF f Hf.
    destruct (in_order_joins _ _ _ _ _ _ _ _ _ BF Hf)
      as (o & h & ols & dc & ch & sm & k & ck & Ho & _ & _ & _ & Hch & _ & CK
          & ->).
    cbn [order_fact_record fo_channel_key fo_order_id]. split.
    + intros (c & Hc & Ec).
      destruct ch as [c0|]; simpl in CK; [injection CK as <-; discriminate|].
      destruct (web_channel_key_cases _ _ CK) as [[W _] | (w & _ & ->)];
        [|discriminate].
      assert (I : In c (filter (fun c => String.eqb (ch_channel_code c) "web")
                               channels)).
      { apply filter_In. split; [assumption|]. apply String.eqb_eq. exact Ec. }
      rewrite W in I. destruct I.
    + exists o. split; [assumption|]. split; [reflexivity|].
      apply in_matches_or_null in Hch.
      destruct Hch as [[X ->] | (c & Hc & ->)].
      * right. simpl in CK. split; [|exact (web_channel_key_cases _ _ CK)].
        intros c Hc E.
        assert (I : In c (filter (fun c => eq_key String.eqb
                                             (option_map lower (so_source o))
                                             (Some (ch_channel_code c)))
                                 channels)).
        { apply filter_In. split; [assumption|]. rewrite E. simpl.
          apply String.eqb_refl. }
        rewrite X in I. destruct I.
      * left. simpl in CK. injection CK as <-.
        apply filter_In in Hc. destruct Hc as [Hc X].
        apply eq_key_string in X. exists c.
        split; [assumption|]. split; [|split; [exact X | reflexivity]].
        destruct (so_source o); simpl in X; congruence.
  - intros o Ho Hno L facts BF.
    destruct (FactProps.build_fact_order_covers _ _ _ _ _ _ _ _ _ BF Ho)
      as (ols & dc & ch & sm & k & ck & Hch & CK & _).
    assert (X : filter (fun c => eq_key String.eqb
                                        (option_map lower (so_source o))
                                        (Some (ch_channel_code c)))
                       channels = []).
    { apply filter_none_in. intros c Hc.
      destruct (eq_key String.eqb (option_map lower (so_source o))
                       (Some (ch_channel_code c))) eqn:K; [|reflexivity].
      apply eq_key_string in K. exfalso. exact (Hno c Hc K). }
    rewrite X in Hch. destruct Hch as [<- | []]. simpl in CK.
    destruct (web_channel_key_cases _ _ CK) as [[W _] | (w & W & _)];
      fold web in W; rewrite W in L; simpl in L; lia.
Qed.

End FactExtras.

(** ** Further properties of staging *)

Module StagingExtras.
Import Sql Staging SqlFacts StagingProps.

(** *** The order of [ORDER BY id, created_at] *)

Lemma created_leb_total (a b : option Z) :
  created_leb a b = true \/ created_leb b a = true.
Proof.
  destruct a as [x|], b as [y|]; simpl; auto.
  destruct (x <=? y) eqn:E; [auto|]. right. apply Z.leb_le.
  apply Z.leb_gt in E. lia.
Qed.

Lemma created_leb_trans (a b c : option Z) :
  created_leb a b = true -> created_leb b c = true -> created_leb a c = true.
Proof.
  destruct a as [x|], b as [y|], c as [z|]; simpl; try congruence.
  rewrite !Z.leb_le. lia.
Qed.

Lemma insert_order_perm C x l : Permutation (x :: l) (insert_order C x l).
Proof.
  induction l as [|y t IH]; simpl; [reflexivity|].
  destruct (order_leb C x y); [reflexivity|].
  rewrite perm_swap. apply perm_skip. exact IH.
Qed.

Lemma sort_orders_perm C l : Permutation l (sort_orders C l).
Proof.
  induction l as [|x t IH]; simpl; [reflexivity|].
  rewrite <- insert_order_perm. apply perm_skip. exact IH.
Qed.

Section OrderOfIds.

Variable C : pg_casts.
Hypothesis D : deterministic C.

Lemma order_leb_total (a b : string * stg_order) :
  order_leb C a b = true \/ order_leb C b a = true.
Proof.
  unfold order_leb. rewrite (proj1 (proj2 D) (fst a) (fst b)).
  destruct (collate C (fst a) (fst b)); simpl; auto.
  apply created_leb_total.
Qed.

Lemma order_leb_trans (a b c : string * stg_order) :
  order_leb C a b = true -> order_leb C b c = true -> order_leb C a c = true.
Proof.
  unfold order_leb.
  destruct (collate C (fst a) (fst b)) eqn:AB; [| |discriminate].
  - apply (proj1 D) in AB. rewrite AB.
    destruct (collate C (fst b) (fst c)); [|reflexivity|discriminate].
    apply created_leb_trans.
  - intros _.
    destruct (collate C (fst b) (fst c)) eqn:BC; [| |discriminate].
    + apply (proj1 D) in BC. rewrite <- BC, AB. reflexivity.
    + rewrite (proj2 (proj2 D) _ _ _ AB BC). reflexivity.
Qed.

(** *** The sort *)

Lemma insert_order_sorted x l :
  StronglySorted (order_le C) l ->
  StronglySorted (order_le C) (insert_order C x l).
Proof.
  induction 1 as [|y t St IH Fy]; simpl.
  - constructor; constructor.
  - destruct (order_leb C x y) eqn:E.
    + constructor; [constructor; assumption|].
      constructor; [exact E|].
      eapply Forall_impl; [|exact Fy].
      intros z Hz. exact (order_leb_trans _ _ _ E Hz).
    + constructor; [exact IH|].
      rewrite <- insert_order_perm. constructor; [|exact Fy].
      destruct (order_leb_total x y) as [H | H]; [congruence | exact H].
Qed.

Lemma sort_orders_sorted l : StronglySorted (order_le C) (sort_orders C l).
Proof.
  induction l as [|x t IH]; simpl; [constructor|].
  apply insert_order_sorted. exact IH.
Qed.

End OrderOfIds.

(** *** [DISTINCT ON] *)

Lemma distinct_on_keys (l : list (string * stg_order)) (k : string) :
  In k (map fst (distinct same_id l)) <-> In k (map fst l).
Proof.
  induction l as [|a t IH]; simpl; [tauto|].
  split.
  - intros [E | H]; [auto|]. right. apply IH.
    apply in_map_iff in H. destruct H as (x & <- & Hx).
    apply filter_In in Hx. apply in_map. tauto.
  - intros [E | H]; [auto|].
    destruct (String.eqb (fst a) k) eqn:X.
    + left. apply String.eqb_eq. exact X.
    + right. apply IH in H. apply in_map_iff in H.
      destruct H as (x & <- & Hx). apply in_map. apply filter_In.
      split; [assumption|]. unfold same_id. rewrite X. reflexivity.
Qed.

Lemma distinct_on_NoDup (l : list (string * stg_order)) :
  NoDup (map fst (distinct same_id l)).
Proof.
  induction l as [|a t IH]; simpl; constructor.
  - intros H. apply in_map_iff in H. destruct H as (x & E & Hx).
    apply filter_In in Hx. destruct Hx as [_ Hx].
    unfold same_id in Hx. rewrite E, String.eqb_refl in Hx. discriminate.
  - clear - IH. induction (distinct same_id t) as [|x r IHr]; simpl;
      [constructor|].
    inversion IH as [|? ? Nx Nr]; subst.
    destruct (negb (same_id a x)); simpl; [|apply IHr; assumption].
    constructor; [|apply IHr; assumption].
    intros H. apply Nx. apply in_map_iff in H.
    destruct H as (y & E & Hy). apply filter_In in Hy.
    apply in_map_iff. exists y. tauto.
Qed.

(** A row kept by [DISTINCT ON] is the first of its id. *)
Lemma distinct_on_first (l : list (string * stg_order)) x :
  In x (distinct same_id l) ->
  exists l1 l2, l = l1 ++ x :: l2 /\
                forall y, In y l1 -> fst y <> fst x.
Proof.
  induction l as [|a t IH]; simpl; [tauto|].
  intros [<- | H].
  - exists [], t. split; [reflexivity|]. intros y [].
  - apply filter_In in H. destruct H as [H N].
    destruct (IH H) as (l1 & l2 & -> & F).
    exists (a :: l1), l2. split; [reflexivity|].
    intros y [<- | Hy]; [|apply F; exact Hy].
    unfold same_id in N. apply negb_true_iff in N.
    apply String.eqb_neq in N. exact N.
Qed.

Lemma sorted_after C l1 x l2 y :
  StronglySorted (order_le C) (l1 ++ x :: l2) -> In y l2 -> order_le C x y.
Proof.
  induction l1 as [|a t IH]; simpl; intros S Hy.
  - inversion S as [|? ? _ F]; subst. rewrite Forall_forall in F.
    apply F. exact Hy.
  - inversion S; subst. apply IH; assumption.
Qed.

(** The rows selected from the raw table, with their id. *)
Lemma in_selected C raw rows k o :
  traverse (fun r => o <- stage_order C r ;; Ok (partition_id r, o))
           (filter has_id raw) = Ok rows ->
  In (k, o) rows <->
  exists r, In r raw /\ has_id r = true /\ partition_id r = k /\
            stage_order C r = Ok o.
Proof.
  intros T. rewrite (traverse_In _ _ _ T). split.
  - intros (r & Hr & E). apply filter_In in Hr.
    destruct (stage_order C r) as [o'|] eqn:S; simpl in E; [|discriminate].
    injection E as <- <-. exists r. tauto.
  - intros (r & Hr & Hid & <- & S). exists r. split.
    + apply filter_In. tauto.
    + rewrite S. reflexivity.
Qed.

Lemma has_id_some (r : raw_order) :
  has_id r = true <-> ro_id r = Some (partition_id r) /\ partition_id r <> "".
Proof.
  unfold has_id, partition_id, present. destruct (ro_id r) as [s|]; simpl.
  - rewrite negb_true_iff, String.eqb_neq. tauto.
  - split; [discriminate | intros [E _]; discriminate].
Qed.

(** The staged orders are one per id: the ids of the kept rows are
    distinct and are exactly the non-empty ids of the raw rows, each kept
    row is the selection of a raw row of its id, and the order ids are
    distinct as numbers as long as no two of these ids denote the same
    number. *)
Theorem staged_orders_one_per_id :
  forall C raw kept,
    dedupe_orders C raw = Ok kept ->
    NoDup (map fst kept) /\
    (forall k, In k (map fst kept) <->
               exists r, In r raw /\ ro_id r = Some k /\ k <> "") /\
    (forall k o, In (k, o) kept ->
       exists r, In r raw /\ ro_id r = Some k /\ stage_order C r = Ok o) /\
    ((forall k k' z, In k (map fst kept) -> In k' (map fst kept) ->
                     to_bigint C k = Ok z -> to_bigint C k' = Ok z ->
                     k = k') ->
     NoDup (map so_order_id (map snd kept))).
Proof.
  intros C raw kept B. unfold dedupe_orders in B.
  destruct (traverse _ (filter has_id raw)) as [rows|e] eqn:T;
    simpl in B; [|discriminate].
  injection B as <-.
  assert (K : forall k o, In (k, o) (distinct same_id (sort_orders C rows)) ->
                exists r, In r raw /\ ro_id r = Some k /\ k <> "" /\
                          stage_order C r = Ok o).
  { intros k o H. apply distinct_on_first in H.
    destruct H as (l1 & l2 & E & _).
    assert (I : In (k, o) rows).
    { apply (Permutation_in _ (Permutation_sym (sort_orders_perm C rows))).
      rewrite E. apply in_elt. }
    apply (in_selected _ _ _ _ _ T) in I.
    destruct I as (r & Hr & Hid & <- & S). apply has_id_some in Hid.
    exists r. tauto. }
  split; [apply distinct_on_NoDup|]. split; [|split].
  - intros k. rewrite distinct_on_keys. split.
    + intros H.
      apply (Permutation_in _ (Permutation_map fst
                                 (Permutation_sym (sort_orders_perm C rows))))
        in H.
      apply in_map_iff in H. destruct H as ([k' o] & <- & H).
      apply (in_selected _ _ _ _ _ T) in H.
      destruct H as (r & Hr & Hid & <- & S). apply has_id_some in Hid.
      exists r. tauto.
    + intros (r & Hr & E & N).
      assert (Hid : has_id r = true).
      { apply has_id_some. unfold partition_id. rewrite E. simpl. auto. }
      assert (F : In r (filter has_id raw)) by (apply filter_In; auto).
      apply traverse_Forall2 in T.
      destruct (Forall2_In_l _ _ _ _ T F) as ([k' o] & Hko & Eko).
      destruct (stage_order C r); simpl in Eko; [|discriminate].
      injection Eko as <- <-.
      apply (Permutation_in _ (Permutation_map fst (sort_orders_perm C rows))).
      apply in_map_iff. exists (partition_id r, a). split; [|assumption].
      unfold partition_id. rewrite E. reflexivity.
  - intros k o H. destruct (K k o H) as (r & Hr & E & _ & S). eauto.
  - intros Inj.
    pose proof (distinct_on_NoDup (sort_orders C rows)) as N.
    assert (Kin : forall x, In x (distinct same_id (sort_orders C rows)) ->
                    to_bigint C (fst x) = Ok (so_order_id (snd x))).
    { intros [k o] H. destruct (K k o H) as (r & _ & E & _ & S).
      unfold stage_order in S. unfold partition_id in S. rewrite E in S.
      simpl in S. simpl.
      destruct (to_bigint C k) as [z|]; simpl in S; [|discriminate].
      repeat match type of S with
             | context [cast_nullif_empty ?c ?x] =>
                 destruct (cast_nullif_empty c x); simpl in S;
                 [|discriminate]
             end.
      injection S as <-. reflexivity. }
    clear K T. revert N Inj Kin.
    generalize (distinct same_id (sort_orders C rows)). intros l.
    induction l as [|x t IH]; simpl; intros N Inj Kin; constructor.
    + intros H. inversion N as [|? ? Nx Nt]; subst. apply Nx.
      apply in_map_iff in H. destruct H as (o' & E & H).
      apply in_map_iff in H. destruct H as (y & <- & Hy).
      assert (fst x = fst y).
      { apply (Inj (fst x) (fst y) (so_order_id (snd x))).
        - left. reflexivity.
        - right. apply in_map. exact Hy.
        - apply Kin. left. reflexivity.
        - rewrite <- E. apply Kin. right. exact Hy. }
      rewrite H. apply in_map. exact Hy.
    + inversion N as [|? ? Nx Nt]; subst. apply IH; [exact Nt| |].
      * intros k k' z Hk Hk'. apply Inj; right; assumption.
      * intros y Hy. apply Kin. right. exact Hy.
Qed.

(** Of the raw rows of one id, the staged order is one with the earliest
    creation time, a row without creation time counting as the latest;
    this holds in every deterministic collation of the database, the
    byte order among them. *)
Theorem earliest_created_is_kept :
  forall C raw kept k o,
    deterministic C ->
    dedupe_orders C raw = Ok kept ->
    In (k, o) kept ->
    forall r o', In r raw -> ro_id r = Some k ->
      stage_order C r = Ok o' ->
      created_leb (so_created_at o) (so_created_at o') = true.
Proof.
  intros C raw kept k o D B H r o' Hr E S. unfold dedupe_orders in B.
  destruct (traverse _ (filter has_id raw)) as [rows|e] eqn:T;
    simpl in B; [|discriminate].
  injection B as <-.
  destruct (distinct_on_first _ _ H) as (l1 & l2 & El & F).
  assert (Nk : k <> "").
  { assert (I : In (k, o) rows).
    { apply (Permutation_in _ (Permutation_sym (sort_orders_perm C rows))).
      rewrite El. apply in_elt. }
    apply (in_selected _ _ _ _ _ T) in I.
    destruct I as (r0 & _ & Hid & <- & _). apply has_id_some in Hid. tauto. }
  assert (I : In (k, o') (sort_orders C rows)).
  { apply (Permutation_in _ (sort_orders_perm C rows)).
    apply (in_selected _ _ _ _ _ T). exists r.
    assert (P : partition_id r = k) by (unfold partition_id; rewrite E; reflexivity).
    split; [assumption|]. split; [|split; assumption].
    apply has_id_some. rewrite P. auto. }
  pose proof (sort_orders_sorted C D rows) as Srt. rewrite El in Srt, I.
  apply in_app_or in I. destruct I as [I | [I | I]].
  - exfalso. exact (F _ I eq_refl).
  - injection I as <-.
    destruct (created_leb_total (so_created_at o) (so_created_at o)); assumption.
  - pose proof (sorted_after _ _ _ _ _ Srt I) as L.
    unfold order_le, order_leb in L. simpl in L.
    rewrite (collate_refl C D) in L. exact L.
Qed.

(** *** Order lines *)

Lemma partition_split {A} (f : A -> bool) (l : list A) :
  Permutation l (filter f l ++ filter (fun a => negb (f a)) l).
Proof.
  induction l as [|a t IH]; simpl; [reflexivity|].
  destruct (f a); simpl.
  - apply perm_skip. exact IH.
  - rewrite <- Permutation_middle. apply perm_skip. exact IH.
Qed.

Lemma flat_map_ext_in {A B} (f g : A -> list B) (l : list A) :
  (forall a, In a l -> f a = g a) -> flat_map f l = flat_map g l.
Proof.
  induction l as [|a t IH]; intros H; simpl; [reflexivity|].
  rewrite (H a (or_introl eq_refl)), IH; [reflexivity|].
  intros b Hb. apply H. right. exact Hb.
Qed.

(** The partitions of a window cover the rows, once each. *)
Lemma partitions_cover (keys : list string) (rows : list raw_order) :
  NoDup keys ->
  (forall r, In r rows -> In (partition_id r) keys) ->
  Permutation (flat_map (fun k => window_partition k rows) keys) rows.
Proof.
  revert rows. induction keys as [|k ks IH]; intros rows N H; simpl.
  - destruct rows as [|r t]; [reflexivity|].
    destruct (H r (or_introl eq_refl)).
  - inversion N as [|? ? Nk Nks]; subst.
    etransitivity;
      [|apply Permutation_sym;
        apply (partition_split (fun r => String.eqb (partition_id r) k) rows)].
    apply Permutation_app_head.
    rewrite (flat_map_ext_in
               (fun k' => window_partition k' rows)
               (fun k' => window_partition k'
                            (filter (fun r => negb (String.eqb (partition_id r)
                                                               k)) rows))).
    + apply IH; [exact Nks|].
      intros r Hr. apply filter_In in Hr. destruct Hr as [Hr X].
      apply negb_true_iff, String.eqb_neq in X.
      destruct (H r Hr) as [E | I]; [congruence | exact I].
    + intros k' Hk'. unfold window_partition. symmetry.
      apply FactExtras.filter_twice. intros r E.
      apply String.eqb_eq in E. apply negb_true_iff, String.eqb_neq.
      intros X. apply Nk. congruence.
Qed.

(** The window numbers every row once. *)
Lemma row_number_over_rows C (rows : list raw_order) :
  Permutation (map snd (row_number_over C rows)) rows.
Proof.
  unfold row_number_over.
  etransitivity;
    [|apply (partitions_cover (distinct String.eqb (map partition_id rows))
                              rows)].
  - generalize (distinct String.eqb (map partition_id rows)). intros keys.
    induction keys as [|k ks IH]; simpl; [reflexivity|].
    rewrite map_app, number_rows_rows.
    apply Permutation_app; [|exact IH].
    apply Permutation_sym, sort_by_name_perm.
  - apply distinct_NoDup. apply String.eqb_eq.
  - intros r Hr. apply in_distinct; [apply String.eqb_eq|].
    apply in_map. exact Hr.
Qed.

(** Every line-item row of the raw table is staged once: the staged lines
    carry, up to their order, the order numbers and item names of the raw
    rows that have an id and an item name. *)
Theorem staged_lines_conserve_rows :
  forall C raw t,
    build_stg_order_lines C raw = Ok t ->
    Permutation (map (fun l => (sl_order_number l, sl_lineitem_name l)) t)
                (map (fun r => (ro_name r, item_name r))
                     (filter is_line_item raw)) /\
    List.length t = List.length (filter is_line_item raw).
Proof.
  intros C raw t B. unfold build_stg_order_lines in B.
  assert (P : Permutation
                (map (fun l => (sl_order_number l, sl_lineitem_name l)) t)
                (map (fun r => (ro_name r, item_name r))
                     (filter is_line_item raw))).
  { etransitivity;
      [|apply Permutation_map;
        apply (row_number_over_rows C (filter is_line_item raw))].
    rewrite map_map. apply Permutation_refl'.
    apply traverse_Forall2 in B.
    induction B as [|[n r] l ns ls S F IH]; simpl; [reflexivity|].
    destruct (stage_order_line_copies _ _ _ _ S) as (_ & -> & -> & _).
    f_equal. exact IH. }
  split; [exact P|].
  apply Permutation_length in P. rewrite !length_map in P. exact P.
Qed.

Lemma Forall2_filter {A B} (R : A -> B -> Prop) (p : A -> bool)
  (q : B -> bool) (l : list A) (t : list B) :
  Forall2 R l t -> (forall a b, R a b -> p a = q b) ->
  Forall2 R (filter p l) (filter q t).
Proof.
  intros F H. induction F as [|a b l t Rab F IH]; simpl; [constructor|].
  rewrite <- (H a b Rab). destruct (p a); [constructor|]; assumption.
Qed.

Lemma filter_flat_map {A B} (p : B -> bool) (f : A -> list B) (l : list A) :
  filter p (flat_map f l) = flat_map (fun a => filter p (f a)) l.
Proof.
  induction l as [|a t IH]; simpl; [reflexivity|].
  rewrite filter_app, IH. reflexivity.
Qed.

Lemma filter_all {A} (p : A -> bool) (l : list A) :
  (forall x, In x l -> p x = true) -> filter p l = l.
Proof.
  induction l as [|a t IH]; intros H; simpl; [reflexivity|].
  rewrite (H a (or_introl eq_refl)). f_equal. apply IH.
  intros x Hx. apply H. right. exact Hx.
Qed.

Lemma filter_nothing {A} (p : A -> bool) (l : list A) :
  (forall x, In x l -> p x = false) -> filter p l = [].
Proof.
  induction l as [|a t IH]; intros H; simpl; [reflexivity|].
  rewrite (H a (or_introl eq_refl)). apply IH.
  intros x Hx. apply H. right. exact Hx.
Qed.

Lemma flat_map_nothing {A B} (l : list A) :
  flat_map (fun _ : A => @nil B) l = [].
Proof. induction l as [|a t IH]; simpl; [reflexivity | exact IH]. Qed.

(** The numbers of a selection of blocks of which at most one is taken. *)
Lemma one_block (pk : string -> bool) (block : string -> list (Z * raw_order))
  (keys : list string) :
  (forall k k', In k keys -> In k' keys -> pk k = true -> pk k' = true ->
                k = k') ->
  NoDup keys ->
  flat_map (fun k => if pk k then block k else []) keys = [] \/
  exists k, flat_map (fun k => if pk k then block k else []) keys = block k.
Proof.
  induction keys as [|k ks IH]; intros U N; simpl; [left; reflexivity|].
  inversion N as [|? ? Nk Nks]; subst.
  destruct (pk k) eqn:P.
  - right. exists k.
    rewrite (flat_map_ext_in _ (fun _ => [])), flat_map_nothing;
      [apply app_nil_r|].
    intros k' Hk'. destruct (pk k') eqn:P'; [|reflexivity].
    exfalso. apply Nk.
    rewrite (U k k' (or_introl eq_refl) (or_intror Hk') P P'). exact Hk'.
  - simpl. apply IH; [|exact Nks].
    intros a b Ha Hb. apply U; right; assumption.
Qed.

Lemma NoDup_numbers (n : nat) :
  NoDup (map (fun i => Z.of_nat (S i)) (seq 0 n)).
Proof.
  apply Finite.Injective_map_NoDup; [|apply seq_NoDup].
  intros i j E. lia.
Qed.

Lemma NoDup_pairs (t : list stg_order_line) :
  (forall z, NoDup (map sl_line_number
                        (filter (fun l => sl_order_id l =? z) t))) ->
  NoDup (map (fun l => (sl_order_id l, sl_line_number l)) t).
Proof.
  induction t as [|l t IH]; intros H; simpl; constructor.
  - intros I. apply in_map_iff in I. destruct I as (l' & E & Hl').
    injection E as Eid Eln.
    specialize (H (sl_order_id l)). simpl in H.
    rewrite Z.eqb_refl in H. simpl in H.
    inversion H as [|? ? Nx _]; subst. apply Nx.
    rewrite <- Eln. apply in_map. apply filter_In.
    split; [assumption|]. apply Z.eqb_eq. exact Eid.
  - apply IH. intros z. specialize (H z). simpl in H.
    destruct (sl_order_id l =? z); [|exact H].
    simpl in H. inversion H; assumption.
Qed.

(** When no two ids of the line-item rows denote the same number, the
    line numbers of every staged order are 1, 2, ..., up to the number of
    its lines, in this order in the staged table; the pairs of an order id
    and a line number are then distinct. *)
Theorem line_numbers_are_contiguous :
  forall C raw t,
    build_stg_order_lines C raw = Ok t ->
    ids_denote_apart C (filter is_line_item raw) ->
    (forall z,
       map sl_line_number (filter (fun l => sl_order_id l =? z) t)
       = map (fun i => Z.of_nat (S i))
             (seq 0 (List.length (filter (fun l => sl_order_id l =? z) t))))
    /\ NoDup (map (fun l => (sl_order_id l, sl_line_number l)) t).
Proof.
  intros C raw t B Inj.
  assert (P : forall z,
             map sl_line_number (filter (fun l => sl_order_id l =? z) t)
             = map (fun i => Z.of_nat (S i))
                   (seq 0 (List.length
                             (filter (fun l => sl_order_id l =? z) t)))).
  { intros z. unfold build_stg_order_lines in B.
    apply traverse_Forall2 in B.
    set (rows := filter is_line_item raw) in *.
    set (pk := fun k => match to_bigint C k with
                        | Ok z' => z' =? z
                        | Fault _ => false
                        end).
    pose proof (Forall2_filter _ (fun nr => pk (partition_id (snd nr)))
                  (fun l => sl_order_id l =? z) _ _ B) as F.
    assert (Hpq : forall nr l, stage_order_line C nr = Ok l ->
                    pk (partition_id (snd nr)) = (sl_order_id l =? z)).
    { intros [n r] l S.
      destruct (stage_order_line_copies _ _ _ _ S) as (_ & _ & _ & E).
      unfold pk. simpl. rewrite E. reflexivity. }
    specialize (F Hpq).
    assert (M : map sl_line_number (filter (fun l => sl_order_id l =? z) t)
                = map fst (filter (fun nr => pk (partition_id (snd nr)))
                                  (row_number_over C rows))).
    { clear - F. induction F as [|[n r] l ns ls S F IH]; simpl;
        [reflexivity|].
      destruct (stage_order_line_copies _ _ _ _ S) as (-> & _).
      f_equal. exact IH. }
    assert (L : List.length (filter (fun l => sl_order_id l =? z) t)
                = List.length (filter (fun nr => pk (partition_id (snd nr)))
                                      (row_number_over C rows))).
    { symmetry. eapply Forall2_length. exact F. }
    rewrite M, L. clear M L F Hpq B.
    unfold row_number_over. rewrite filter_flat_map.
    set (keys := distinct String.eqb (map partition_id rows)).
    set (block := fun k =>
                   number_rows (sort_by_name C (window_partition k rows))).
    rewrite (flat_map_ext_in _ (fun k => if pk k then block k else [])).
    2:{ intros k _. destruct (pk k) eqn:Pk.
        - apply filter_all. intros nr Hnr. apply in_block in Hnr.
          destruct Hnr as [_ ->]. exact Pk.
        - apply filter_nothing. intros nr Hnr. apply in_block in Hnr.
          destruct Hnr as [_ ->]. exact Pk. }
    destruct (one_block pk block keys) as [-> | (k & ->)].
    - intros k k' Hk Hk' Pk Pk'. unfold keys in Hk, Hk'.
      apply distinct_incl in Hk, Hk'.
      apply in_map_iff in Hk, Hk'.
      destruct Hk as (r & <- & Hr), Hk' as (r' & <- & Hr').
      unfold pk in Pk, Pk'.
      destruct (to_bigint C (partition_id r)) as [a|] eqn:Ea; [|discriminate].
      destruct (to_bigint C (partition_id r')) as [b|] eqn:Eb; [|discriminate].
      apply Z.eqb_eq in Pk, Pk'. subst a b.
      exact (Inj r r' z Hr Hr' Ea Eb).
    - apply distinct_NoDup. apply String.eqb_eq.
    - reflexivity.
    - unfold block. rewrite number_rows_numbers.
      rewrite <- (length_map snd (number_rows _)), number_rows_rows.
      reflexivity. }
  split; [exact P|].
  apply NoDup_pairs. intros z. rewrite P. apply NoDup_numbers.
Qed.

(** The numbers of a sorted partition follow the names. *)
Lemma numbered_sorted C (s : nat) (l : list raw_order) n1 r1 n2 r2 :
  StronglySorted (name_le C) l ->
  In (n1, r1) (combine (map (fun i => Z.of_nat (S i)) (seq s (List.length l)))
                       l) ->
  In (n2, r2) (combine (map (fun i => Z.of_nat (S i)) (seq s (List.length l)))
                       l) ->
  n1 < n2 -> name_le C r1 r2.
Proof.
  revert s. induction l as [|a t IH]; intros s Srt H1 H2 L; simpl in *;
    [destruct H1|].
  inversion Srt as [|? ? St Fa]; subst. rewrite Forall_forall in Fa.
  assert (Low : forall n r,
             In (n, r) (combine (map (fun i => Z.of_nat (S i))
                                     (seq (S s) (List.length t))) t) ->
             Z.of_nat (S s) < n).
  { intros n r H. apply in_combine_l in H. apply in_map_iff in H.
    destruct H as (i & <- & Hi). apply in_seq in Hi. lia. }
  destruct H1 as [E1 | H1], H2 as [E2 | H2].
  - injection E1 as <- <-. injection E2 as <- <-. lia.
  - injection E1 as <- <-. apply Fa. eapply in_combine_r. exact H2.
  - injection E2 as <- <-. apply Low in H1. lia.
  - exact (IH (S s) St H1 H2 L).
Qed.

(** Within a staged order the line numbers follow the item names in the
    collation of the database: of two lines of one order id, the one with
    the smaller line number has the item name that the collation puts
    first, or the same name (for a deterministic collation, and when no
    two ids of the line-item rows denote the same number). *)
Theorem line_numbers_follow_names :
  forall C raw t l1 l2,
    deterministic C ->
    build_stg_order_lines C raw = Ok t ->
    ids_denote_apart C (filter is_line_item raw) ->
    In l1 t -> In l2 t ->
    sl_order_id l1 = sl_order_id l2 ->
    sl_line_number l1 < sl_line_number l2 ->
    text_leb C (sl_lineitem_name l1) (sl_lineitem_name l2) = true.
Proof.
  intros C raw t l1 l2 D B Inj H1 H2 Eid L.
  unfold build_stg_order_lines in B.
  apply (traverse_In _ _ _ B) in H1, H2.
  destruct H1 as ([n1 r1] & I1 & S1), H2 as ([n2 r2] & I2 & S2).
  destruct (stage_order_line_copies _ _ _ _ S1) as (N1 & M1 & _ & Z1).
  destruct (stage_order_line_copies _ _ _ _ S2) as (N2 & M2 & _ & Z2).
  apply in_row_number_over in I1, I2.
  destruct I1 as (k1 & _ & I1), I2 as (k2 & _ & I2).
  destruct (in_block _ _ _ _ I1) as (R1 & K1).
  destruct (in_block _ _ _ _ I2) as (R2 & K2).
  simpl in R1, R2, K1, K2.
  assert (E : k1 = k2).
  { rewrite <- K1, <- K2. rewrite Eid in Z1.
    exact (Inj r1 r2 _ R1 R2 Z1 Z2). }
  rewrite <- E in I2. rewrite N1, N2 in L. rewrite M1, M2.
  exact (numbered_sorted C 0 _ n1 r1 n2 r2
           (sort_by_name_sorted C D _) I1 I2 L).
Qed.

End StagingExtras.

(** ** Further properties of the dimensions *)

Module DimensionExtras.
Import Sql Staging Dimensions SqlFacts.

Lemma in_left_join {A B} (on : A -> B -> bool) (l : list A) (r : list B)
  (a : A) (b : option B) :
  In (a, b) (left_join on l r) <->
  In a l /\ In b (matches_or_null (filter (on a) r)).
Proof.
  unfold left_join. rewrite in_flat_map. split.
  - intros (a' & Ha & H). apply in_map_iff in H.
    destruct H as (b' & E & Hb). injection E as -> ->. auto.
  - intros (Ha & Hb). exists a. split; [assumption|].
    apply in_map. assumption.
Qed.

(** The product dimension keeps every row of the SKU map, with distinct
    product keys; a row whose handle has a staged product takes its vendor
    and price from it (the defaults where these are NULL), and a row whose
    handle has none gets the default vendor and the default price. *)
Theorem dim_product_covers_sku_map :
  forall next skm products,
    let dim := build_dim_product next skm products in
    NoDup (map dp_product_key dim) /\
    (forall m, In m skm ->
       exists dp, In dp dim /\ dp_internal_sku dp = sk_internal_sku m /\
                  dp_recipe_id dp = sk_recipe_id m /\
                  dp_size_ml dp = sk_size_ml m) /\
    (forall dp, In dp dim ->
       exists m, In m skm /\ dp_internal_sku dp = sk_internal_sku m /\
         ((exists p, In p products /\
                     sk_product_handle m = Some (sp_handle p) /\
                     dp_vendor dp = coalesce (sp_vendor p) default_vendor /\
                     dp_variant_price dp
                     = coalesce (sp_variant_price p) default_price)
          \/
          ((forall p, In p products ->
                      sk_product_handle m <> Some (sp_handle p)) /\
           dp_vendor dp = default_vendor /\
           dp_variant_price dp = default_price))).
Proof.
  intros next skm products dim. unfold dim, build_dim_product.
  set (on := fun (m : stg_sku_map) (p : stg_product) =>
               eq_key String.eqb (sk_product_handle m) (Some (sp_handle p))).
  split; [|split].
  - rewrite map_map.
    rewrite (map_ext _ fst); [apply with_serial_NoDup|].
    intros [k [m p]]. reflexivity.
  - intros m Hm.
    destruct (matches_or_null_nonempty (filter (on m) products)) as (p & Hp).
    assert (J : In (m, p) (left_join on skm products))
      by (apply in_left_join; auto).
    destruct (in_with_serial_exists next _ _ J) as (k & Hk).
    eexists. split.
    + apply in_map_iff. exists (k, (m, p)). split; [reflexivity | exact Hk].
    + simpl. auto.
  - intros dp Hdp. apply in_map_iff in Hdp.
    destruct Hdp as ([k [m p]] & <- & Hk). apply in_with_serial in Hk.
    apply in_left_join in Hk. destruct Hk as [Hm Hp].
    exists m. split; [assumption|]. split; [reflexivity|].
    apply in_matches_or_null in Hp.
    destruct Hp as [[E ->] | (p0 & Hp0 & ->)].
    + right. simpl. split; [|auto]. intros p0 Hp0 X.
      assert (I : In p0 (filter (on m) products)).
      { apply filter_In. split; [assumption|]. unfold on. rewrite X.
        simpl. apply String.eqb_refl. }
      rewrite E in I. destruct I.
    + left. apply filter_In in Hp0. destruct Hp0 as [Hp0 X].
      exists p0. simpl. split; [assumption|]. split; [|auto].
      unfold on in X. destruct (sk_product_handle m) as [hd|];
        simpl in X; [|discriminate].
      apply String.eqb_eq in X. congruence.
Qed.

(** The lifetime figures of a customer row are those of a group of staged
    orders under one email: the row carries the digest of an email [e] of
    a staged order, and its order count and spend are the number of
    distinct order ids, and the sum of subtotal less refunds, of the
    staged orders whose email is [e'], an email equal to [e] up to
    case. *)
Theorem customer_lifetime_stats :
  forall C next orders customers dim,
    build_dim_customer C next orders customers = Ok dim ->
    forall d, In d dim ->
      exists e e',
        e <> "" /\
        (exists o, In o orders /\ so_email o = Some e) /\
        customer_id_hash C e = Ok (dc_customer_id_hash d) /\
        lower e' = lower e /\
        let g := filter (fun o => option_string_eqb (so_email o) (Some e'))
                        orders in
        g <> [] /\
        dc_total_orders d = count_distinct (map so_order_id g) /\
        dc_total_spent d
        = coalesce (sum_agg (map (fun o => sub (so_subtotal o)
                                               (Some (so_refunded_amount o)))
                                 g)) (of_int 0).
Proof.
  intros C next orders customers dim B d Hd.
  unfold build_dim_customer in B.
  destruct (customer_rows C orders customers) as [rows|x] eqn:R;
    simpl in B; [|discriminate].
  injection B as <-.
  apply in_map_iff in Hd. destruct Hd as ([k [[[h oc] c] cs]] & <- & Hk).
  apply in_with_serial in Hk.
  destruct (DimensionProps.in_customer_rows _ _ _ _ _ _ _ _ R Hk)
    as (Hoc & Hcs & Hh).
  destruct (DimensionProps.order_customers_email _ _ Hoc)
    as (o & Ho & Eo & Ne).
  apply in_matches_or_null in Hcs.
  destruct Hcs as [[E _] | (s & Hs & ->)];
    [exfalso; exact (DimensionProps.stats_join_matches orders oc Hoc E)|].
  apply filter_In in Hs. destruct Hs as [Hs X].
  unfold customer_stats in Hs. apply in_map_iff in Hs.
  destruct Hs as (eo & <- & Heo). simpl in X.
  destruct eo as [e'|]; simpl in X; [|discriminate].
  apply String.eqb_eq in X.
  exists (fst oc), e'. simpl.
  split; [assumption|]. split; [eauto|]. split; [assumption|].
  split; [congruence|]. split; [|auto].
  apply distinct_incl in Heo. apply in_map_iff in Heo.
  destruct Heo as (o' & Eo' & Ho').
  intros F.
  assert (I : In o' (filter (fun o => option_string_eqb (so_email o) (Some e'))
                            orders)).
  { apply filter_In. split; [assumption|].
    apply DimensionProps.option_string_eqb_eq. assumption. }
  rewrite F in I. destruct I.
Qed.

End DimensionExtras.

(** ** Properties of the Python helpers *)

Module PyExtras.
Import Dimensions Py.

(** *** [strip] *)

Lemma rstrip_idem (s : string) : Py.rstrip (Py.rstrip s) = Py.rstrip s.
Proof.
  induction s as [|c t IH]; simpl; [reflexivity|].
  destruct (Py.rstrip t) as [|c' t'] eqn:R.
  - destruct (Py.py_isspace c) eqn:W; simpl; [reflexivity|].
    rewrite W. reflexivity.
  - simpl in *. rewrite IH. reflexivity.
Qed.

Lemma lstrip_idem (s : string) : Py.lstrip (Py.lstrip s) = Py.lstrip s.
Proof.
  induction s as [|c t IH]; simpl; [reflexivity|].
  destruct (Py.py_isspace c) eqn:W; [exact IH|].
  simpl. rewrite W. reflexivity.
Qed.

(** Stripping on the left keeps a string stripped on the right. *)
Lemma rstrip_lstrip (s : string) :
  Py.rstrip s = s -> Py.rstrip (Py.lstrip s) = Py.lstrip s.
Proof.
  induction s as [|c t IH]; intros H; simpl; [reflexivity|].
  destruct (Py.py_isspace c) eqn:W; [|exact H].
  apply IH. simpl in H. rewrite W in H.
  destruct (Py.rstrip t) as [|c' t'] eqn:R; [discriminate|].
  injection H as H. exact H.
Qed.

Lemma strip_idem (s : string) : Py.strip (Py.strip s) = Py.strip s.
Proof.
  unfold Py.strip.
  rewrite (rstrip_lstrip (Py.rstrip s)) by apply rstrip_idem.
  apply lstrip_idem.
Qed.

Lemma lstrip_chars (s : string) (c : ascii) :
  In c (chars (Py.lstrip s)) -> In c (chars s).
Proof.
  induction s as [|x t IH]; simpl; [tauto|].
  destruct (Py.py_isspace x); [|tauto]. intros H. right. apply IH. exact H.
Qed.

Lemma rstrip_chars (s : string) (c : ascii) :
  In c (chars (Py.rstrip s)) -> In c (chars s).
Proof.
  induction s as [|x t IH]; simpl; [tauto|].
  destruct (Py.rstrip t) as [|c' t'] eqn:R.
  - destruct (Py.py_isspace x); simpl; tauto.
  - intros [E | H]; [left; exact E|]. right. apply IH. exact H.
Qed.

Lemma strip_chars (s : string) (c : ascii) :
  In c (chars (Py.strip s)) -> In c (chars s).
Proof.
  intros H. apply rstrip_chars. apply lstrip_chars. exact H.
Qed.

(** *** [split] *)

Lemma split_pieces (c : ascii) (s p : string) :
  In p (Py.split c s) -> ~ In c (chars p).
Proof.
  revert p. induction s as [|x t IH]; simpl; intros p H.
  - destruct H as [<- | []]. simpl. tauto.
  - destruct (Ascii.eqb x c) eqn:E.
    + destruct H as [<- | H]; [simpl; tauto | apply IH; exact H].
    + apply Ascii.eqb_neq in E.
      destruct (Py.split c t) as [|h r] eqn:S.
      * destruct H as [<- | []]. simpl. intros [X | []]. congruence.
      * destruct H as [<- | H].
        -- simpl. intros [X | X]; [congruence|].
           exact (IH h (or_introl eq_refl) X).
        -- apply IH. right. exact H.
Qed.

(** The statements taken from a schema or mart file: none is empty, none
    has whitespace around it, and none contains a semicolon, so that a
    statement with a semicolon inside (in a string literal, in a function
    body) is sent to the database in pieces. *)
Theorem statements_are_stripped_pieces :
  forall sql stmt,
    In stmt (Runner.statements_of sql) ->
    stmt <> "" /\ Py.strip stmt = stmt /\ ~ In ";"%char (chars stmt).
Proof.
  intros sql stmt H. unfold Runner.statements_of in H.
  apply filter_In in H. destruct H as [H N].
  apply negb_true_iff, String.eqb_neq in N.
  apply in_map_iff in H. destruct H as (p & <- & Hp).
  split; [exact N|]. split; [apply strip_idem|].
  intros X. apply strip_chars in X. exact (split_pieces _ _ _ Hp X).
Qed.

(** *** [lower] *)

Lemma lower_ascii_idem (c : ascii) :
  Sql.lower_ascii (Sql.lower_ascii c) = Sql.lower_ascii c.
Proof.
  destruct c as [[] [] [] [] [] [] [] []]; reflexivity.
Qed.

Lemma lower_ascii_space (c : ascii) :
  Py.py_isspace (Sql.lower_ascii c) = Py.py_isspace c.
Proof.
  destruct c as [[] [] [] [] [] [] [] []]; reflexivity.
Qed.

Lemma lower_idem (s : string) : Py.lower (Py.lower s) = Py.lower s.
Proof.
  unfold Py.lower. induction s as [|c t IH]; simpl; [reflexivity|].
  rewrite lower_ascii_idem, IH. reflexivity.
Qed.

Lemma lower_lstrip (s : string) :
  Py.lower (Py.lstrip s) = Py.lstrip (Py.lower s).
Proof.
  unfold Py.lower. induction s as [|c t IH]; simpl; [reflexivity|].
  rewrite lower_ascii_space. destruct (Py.py_isspace c); [exact IH|].
  reflexivity.
Qed.

Lemma lower_rstrip (s : string) :
  Py.lower (Py.rstrip s) = Py.rstrip (Py.lower s).
Proof.
  unfold Py.lower. induction s as [|c t IH]; simpl; [reflexivity|].
  rewrite <- IH, lower_ascii_space.
  destruct (Py.rstrip t) as [|c' t']; simpl.
  - destruct (Py.py_isspace c); reflexivity.
  - reflexivity.
Qed.

Lemma lower_strip (s : string) :
  Py.lower (Py.strip s) = Py.strip (Py.lower s).
Proof.
  unfold Py.strip. rewrite lower_lstrip, lower_rstrip. reflexivity.
Qed.

(** [hash_email] digests a normal form of the email: an email and its
    lower-cased, trimmed form have the same digest, so that case and
    surrounding whitespace never tell two customers apart.  An email made
    of whitespace only is digested as the empty text, not as the
    ['unknown'] of the empty email. *)
Theorem hash_email_normalizes :
  forall s,
    (Py.strip (Py.lower s) <> "" ->
     hash_email (Py.strip (Py.lower s)) = hash_email s) /\
    (s <> "" -> Py.strip (Py.lower s) = "" ->
     hash_email s = Sha256.sha256_hex "").
Proof.
  intros s. split.
  - intros N. unfold hash_email.
    assert (Ns : s <> "") by (intros ->; apply N; reflexivity).
    apply String.eqb_neq in N, Ns. rewrite N, Ns.
    rewrite lower_strip, lower_idem, strip_idem. reflexivity.
  - intros Ns E. unfold hash_email. apply String.eqb_neq in Ns.
    rewrite Ns, E. reflexivity.
Qed.

(** *** [clean_column_name] *)

Lemma clean_cons (c : ascii) (t : string) :
  Ingest.clean_column_name (String c t)
  = match Ingest.clean_char c with
    | Some c' => String c' (Ingest.clean_column_name t)
    | None => Ingest.clean_column_name t
    end.
Proof.
  destruct c as [[] [] [] [] [] [] [] []]; reflexivity.
Qed.

Lemma clean_char_fixed (c c' : ascii) :
  Ingest.clean_char c = Some c' ->
  Ingest.clean_char c' = Some c' /\ Ingest.is_clean_char c' = true.
Proof.
  intros E.
  destruct c as [[] [] [] [] [] [] [] []]; vm_compute in E;
    try discriminate E; injection E as <-; split; vm_compute; reflexivity.
Qed.

(** A cleaned column name is clean: it contains no blank, parenthesis,
    slash, hyphen, dot, colon or ASCII capital, and cleaning it again
    changes nothing. *)
Theorem clean_column_name_is_clean :
  forall col,
    Ingest.clean_column_name (Ingest.clean_column_name col)
    = Ingest.clean_column_name col /\
    forall c, In c (chars (Ingest.clean_column_name col)) ->
              Ingest.is_clean_char c = true.
Proof.
  intros col. induction col as [|x t [IH1 IH2]].
  - split; [reflexivity | intros c []].
  - rewrite clean_cons. destruct (Ingest.clean_char x) as [x'|] eqn:E.
    + destruct (clean_char_fixed _ _ E) as [F G]. split.
      * rewrite clean_cons, F, IH1. reflexivity.
      * intros c [<- | H]; [exact G | apply IH2; exact H].
    + split; assumption.
Qed.

End PyExtras.

(** ** Further properties of the driver *)

Module RunnerExtras.
Import Runner StagingRun.

Lemma mart_statement_returns {DB} (conn : connection DB) (stmt : string) :
  returns (mart_statement conn stmt).
Proof.
  intros w. unfold mart_statement.
  destruct (code_lines stmt) eqn:L; [eexists; reflexivity|].
  unfold try_except, conn_execute_commit.
  destruct (execute_commit conn (w_db w) stmt) as [db'|e];
    eexists; reflexivity.
Qed.

Lemma build_marts_returns {DB} (conn : connection DB)
  (mart_files : list (string * string)) :
  returns (build_marts conn mart_files).
Proof.
  unfold build_marts. apply RunnerProps.returns_bind.
  - apply RunnerProps.returns_for_each. intros f.
    apply RunnerProps.returns_bind.
    + apply RunnerProps.returns_logger.
    + intros _. apply RunnerProps.returns_for_each.
      apply mart_statement_returns.
  - intros _. apply RunnerProps.returns_logger.
Qed.

(** [build_marts] never raises: a mart statement that fails is rolled
    back and logged as a warning, whatever its message, and the loop goes
    on. *)
Theorem mart_failures_are_warnings :
  forall (DB : Type) (conn : connection DB)
         (mart_files : list (string * string)) (w : world DB),
    (exists w', build_marts conn mart_files w = (Returns tt, w')) /\
    forall stmt e w0,
      code_lines stmt <> [] ->
      execute_commit conn (w_db w0) stmt = inr e ->
      mart_statement conn stmt w0
      = (Returns tt,
         {| w_db := rollback conn (w_db w0);
            w_log := w_log w0 ++
                     [(WARNING, ("Mart statement warning: " ++ e)%string)] |}).
Proof.
  intros DB conn mart_files w. split; [apply build_marts_returns|].
  intros stmt e w0 L X. unfold mart_statement.
  destruct (code_lines stmt); [congruence|].
  unfold try_except, conn_execute_commit. rewrite X. reflexivity.
Qed.

(** A statement whose lines are all blank or comments is not sent to the
    database, by [init_database] and by [build_marts] alike: the database
    and the log are left as they are. *)
Theorem comment_statements_are_skipped :
  forall (DB : Type) (conn : connection DB) (stmt : string) (w : world DB),
    (forall l, In l (Py.split "010" stmt) ->
               Py.strip l = "" \/ Py.startswith "--" (Py.strip l) = true) ->
    init_statement conn stmt w = (Returns tt, w) /\
    mart_statement conn stmt w = (Returns tt, w).
Proof.
  intros DB conn stmt w H.
  assert (E : code_lines stmt = []).
  { unfold code_lines.
    induction (Py.split "010" stmt) as [|l t IH]; simpl; [reflexivity|].
    destruct (H l (or_introl eq_refl)) as [X | X]; rewrite X; simpl.
    - apply IH. intros l' Hl'. apply H. right. exact Hl'.
    - rewrite andb_false_r. apply IH. intros l' Hl'. apply H. right.
      exact Hl'. }
  unfold init_statement, mart_statement. rewrite E. split; reflexivity.
Qed.

(** A "build" run does not touch the schema files, and its exit status is
    0 exactly when the staging, dimension and fact stages return one after
    the other; it is 1 otherwise.  Failures of mart statements and of the
    summary never change it. *)
Theorem build_exit_status :
  forall (DB : Type) (conn : connection DB) (S : stages)
         (schema_files mart_files : list (string * string))
         (use_sample : bool) (w : world DB),
    let status :=
      fst (main conn S schema_files mart_files Build use_sample w) in
    (status = 0 \/ status = 1) /\
    (status = 0 <->
     exists w1 w2 w3,
       Runner.build_staging_tables S w = (Returns tt, w1) /\
       Runner.build_dimensions S w1 = (Returns tt, w2) /\
       Runner.build_facts S w2 = (Returns tt, w3)) /\
    main conn S schema_files mart_files Build use_sample w
    = main conn S [] mart_files Build use_sample w.
Proof.
  intros DB conn S schema_files mart_files use_sample w status.
  unfold status, main, run_pipeline, bind, ret.
  destruct (Runner.build_staging_tables S w) as [[[]|e1] w1] eqn:E1; simpl.
  - destruct (build_dimensions S w1) as [[[]|e2] w2] eqn:E2; simpl.
    + destruct (Runner.build_facts S w2) as [[[]|e3] w3] eqn:E3; simpl.
      * destruct (build_marts_returns conn mart_files w3) as (w4 & ->).
        destruct (RunnerProps.print_summary_returns S w4) as (w5 & ->).
        simpl. split; [auto|]. split; [|reflexivity].
        split; [|reflexivity]. intros _. exists w1, w2, w3.
        rewrite E2, E3. auto.
      * split; [auto|]. split; [|reflexivity].
        split; [discriminate|]. intros (a & b & c & X & Y & Z).
        injection X as <-. rewrite E2 in Y. injection Y as <-.
        rewrite E3 in Z. discriminate.
    + split; [auto|]. split; [|reflexivity].
      split; [discriminate|]. intros (a & b & c & X & Y & Z).
      injection X as <-. rewrite E2 in Y. discriminate.
  - split; [auto|]. split; [|reflexivity].
    split; [discriminate|]. intros (a & b & c & X & _). discriminate.
Qed.

Section Staging.

Context {DB : Type} (conn : connection DB).
Variable meta_ads_columns : DB -> list string + string.
Variable Q : staging_sql.

Lemma meta_ads_part_returns :
  returns (meta_ads_part conn meta_ads_columns Q).
Proof.
  intros w. unfold meta_ads_part, try_except, bind, fetch_columns.
  destruct (meta_ads_columns (w_db w)) as [cols|e]; [|eexists; reflexivity].
  destruct (existsb (String.eqb "campaign_name") cols);
    [|eexists; reflexivity].
  unfold conn_execute_commit. simpl.
  destruct (execute_commit conn (w_db w) (sql_stg_meta_ads Q));
    eexists; reflexivity.
Qed.

Lemma gsc_part_returns : returns (gsc_part conn Q).
Proof.
  intros w. unfold gsc_part, try_except, conn_execute_commit.
  destruct (execute_commit conn (w_db w) (sql_stg_gsc_daily Q));
    eexists; reflexivity.
Qed.

End Staging.

(** The optional sources are tolerated: [build_staging_tables] raises
    exactly when one of its seven mandatory statements raises, with the
    same exception; a failure of the search-console statement, of the
    catalog query on the columns of the Meta ads table, or of the Meta ads
    statement itself (run when the table has a [campaign_name] column) is
    rolled back and logged as a warning. *)
Theorem optional_sources_are_tolerated :
  forall (DB : Type) (conn : connection DB)
         (meta_ads_columns : DB -> list string + string)
         (Q : staging_sql) (w : world DB),
    (forall e,
        fst (StagingRun.build_staging_tables conn meta_ads_columns Q w)
        = Raises e <->
        fst (mandatory_part conn Q w) = Raises e) /\
    (forall e w0,
        execute_commit conn (w_db w0) (sql_stg_gsc_daily Q) = inr e ->
        gsc_part conn Q w0
        = (Returns tt,
           {| w_db := rollback conn (w_db w0);
              w_log := w_log w0 ++
                       [(WARNING,
                         ("Could not build stg_gsc_daily: " ++ e)%string)] |}))
    /\
    (forall e w0,
        meta_ads_columns (w_db w0) = inr e ->
        meta_ads_part conn meta_ads_columns Q w0
        = (Returns tt,
           {| w_db := rollback conn (w_db w0);
              w_log := w_log w0 ++
                       [(WARNING,
                         ("Could not build stg_meta_ads: " ++ e)%string)] |}))
    /\
    (forall e cols w0,
        meta_ads_columns (w_db w0) = inl cols ->
        existsb (String.eqb "campaign_name") cols = true ->
        execute_commit conn (w_db w0) (sql_stg_meta_ads Q) = inr e ->
        meta_ads_part conn meta_ads_columns Q w0
        = (Returns tt,
           {| w_db := rollback conn (w_db w0);
              w_log := w_log w0 ++
                       [(WARNING,
                         ("Could not build stg_meta_ads: " ++ e)%string)] |})).
Proof.
  intros DB conn meta_ads_columns Q w. split; [|split; [|split]].
  - intros e. unfold StagingRun.build_staging_tables, bind.
    destruct (mandatory_part conn Q w) as [[[]|e1] w1]; simpl;
      [|reflexivity].
    destruct (meta_ads_part_returns conn meta_ads_columns Q
                (snd (logger INFO
                        "Building staging.stg_meta_ads (if available)..." w1)))
      as (w2 & E2).
    simpl in E2. rewrite E2.
    destruct (gsc_part_returns conn Q
                (snd (logger INFO
                        "Building staging.stg_gsc_daily (if available)..." w2)))
      as (w3 & E3).
    simpl in E3. rewrite E3. simpl. split; discriminate.
  - intros e w0 X. unfold gsc_part, try_except, conn_execute_commit.
    rewrite X. reflexivity.
  - intros e w0 X. unfold meta_ads_part, try_except, bind, fetch_columns.
    rewrite X. reflexivity.
  - intros e cols w0 X Hc F.
    unfold meta_ads_part, try_except, bind, fetch_columns.
    rewrite X, Hc. unfold conn_execute_commit. rewrite F. reflexivity.
Qed.

End RunnerExtras.

(** ** Worked examples of the further properties *)

Module ExtraExamples.
Import Sql Staging Dimensions Facts Scenario.

Ltac computed B :=
  let B' := fresh in
  pose proof B as B'; vm_compute in B'; injection B' as <-.

(** Order 1001 has two lines of one unit each. *)
Lemma order_with_lines_witness :
  exists facts f,
    build_fact_order decimal_casts 1 orders lines (wi_customers inputs)
      (wi_channels inputs) (wi_methods inputs) = Ok facts /\
    In f facts /\ fo_order_id f = 1001 /\
    fo_line_item_count f = 2 /\ fo_unit_count f = 2.
Proof.
  destruct (build_fact_order decimal_casts 1 orders lines
              (wi_customers inputs) (wi_channels inputs) (wi_methods inputs))
    as [facts|e] eqn:B; [|exfalso; vm_compute in B; discriminate].
  computed B.
  eexists. eexists. split; [reflexivity|].
  split; [left; reflexivity|]. split; [reflexivity|].
  pose proof (FactExtras.order_with_lines_aggregates _ _ _ _ _ _ _ _ B _
                (or_introl eq_refl)) as H.
  cbv zeta in H.
  destruct H as (H1 & H2 & _); [vm_compute; discriminate|].
  split; [rewrite H1 | rewrite H2]; vm_compute; reflexivity.
Defined.

Ltac nodup := repeat constructor; simpl; intuition discriminate.

(** The dimensions of the shop have distinct keys: one row per order. *)
Lemma order_fact_grain_witness :
  exists facts,
    build_fact_order decimal_casts 1 orders lines (wi_customers inputs)
      (wi_channels inputs) (wi_methods inputs) = Ok facts /\
    Permutation (map fo_order_id facts) (map so_order_id orders) /\
    NoDup (map fo_order_key facts) /\
    List.length facts = 2%nat.
Proof.
  destruct (build_fact_order decimal_casts 1 orders lines
              (wi_customers inputs) (wi_channels inputs) (wi_methods inputs))
    as [facts|e] eqn:B; [|exfalso; vm_compute in B; discriminate].
  exists facts. split; [reflexivity|].
  destruct (FactExtras.order_fact_grain _ _ _ _ _ _ _ _ B) as (H & N).
  - vm_compute. nodup.
  - vm_compute. nodup.
  - vm_compute. nodup.
  - split; [exact H|]. split; [exact N|].
    apply Permutation_length in H. rewrite !length_map in H. exact H.
Defined.

(** Both staged lines belong to order 1001, which has an order fact. *)
Lemma order_line_fact_grain_witness :
  exists fols,
    build_fact_order_line 1 lines fact_orders sku_map (wi_products inputs)
    = Ok fols /\
    map (fun f => (fol_order_id f, fol_line_number f)) fols
    = [(1001, 1); (1001, 2)].
Proof.
  destruct (build_fact_order_line 1 lines fact_orders sku_map
              (wi_products inputs))
    as [fols|e] eqn:B; [|exfalso; vm_compute in B; discriminate].
  exists fols. split; [reflexivity|].
  destruct (FactExtras.order_line_fact_grain _ _ _ _ _ _ B) as (H & _).
  - vm_compute. nodup.
  - vm_compute. nodup.
  - vm_compute. nodup.
  - rewrite H. vm_compute. reflexivity.
Defined.

Lemma shop_costs_nonneg :
  (forall m, In m (wi_materials inputs) ->
             nonneg (dm_cost_per_ml m) /\ nonneg (dm_cost_per_unit m)) /\
  (forall r, In r (wi_recipes inputs) -> nonneg (sr_amount_ml r)).
Proof.
  split.
  - intros m H. vm_compute in H.
    repeat (destruct H as [<- | H]; [split; intros a E; vm_compute in E;
                                     try discriminate E; injection E as <-;
                                     vm_compute; discriminate|]).
    destruct H.
  - intros r H. vm_compute in H.
    repeat (destruct H as [<- | H]; [intros a E; vm_compute in E;
                                     try discriminate E; injection E as <-;
                                     vm_compute; discriminate|]).
    destruct H.
Qed.

(** No cost of the shop is negative. *)
Lemma estimated_cogs_witness :
  exists facts,
    build_facts decimal_casts inputs = Ok facts /\
    forall f, In f (wf_lines facts) ->
      exists x, fol_estimated_cogs f = Some x /\ (0 <= to_Q x)%Q.
Proof.
  destruct (build_facts decimal_casts inputs) as [facts|e] eqn:B;
    [|exfalso; vm_compute in B; discriminate].
  exists facts. split; [reflexivity|].
  exact (proj2 (FactExtras.estimated_cogs_nonnegative
                  decimal_casts inputs facts B
                  (proj1 shop_costs_nonneg) (proj2 shop_costs_nonneg))).
Defined.

(** Every order of the shop that names an email resolves to the customer
    row of that email. *)
Lemma customer_key_witness :
  exists dim facts,
    build_dim_customer decimal_casts 1 orders [] = Ok dim /\
    build_fact_order decimal_casts 1 orders lines dim (wi_channels inputs)
      (wi_methods inputs) = Ok facts /\
    map fo_customer_key facts = [Some 1; Some 2] /\
    forall f, In f facts ->
      exists o, In o orders /\ fo_order_id f = so_order_id o /\
        forall e, so_email o = Some e -> e <> "" ->
          exists d, In d dim /\ fo_customer_key f = Some (dc_customer_key d).
Proof.
  destruct (build_dim_customer decimal_casts 1 orders []) as [dim|e] eqn:D;
    [|exfalso; vm_compute in D; discriminate].
  destruct (build_fact_order decimal_casts 1 orders lines dim
              (wi_channels inputs) (wi_methods inputs))
    as [facts|e] eqn:B;
    [|exfalso; vm_compute in D; injection D as <-; vm_compute in B;
      discriminate].
  exists dim, facts. split; [reflexivity|]. split; [exact B|]. split.
  - pose proof D as D'. vm_compute in D'. injection D' as <-.
    pose proof B as B'. vm_compute in B'. injection B' as <-.
    vm_compute. reflexivity.
  - intros f Hf.
    destruct (FactExtras.customer_key_resolved _ _ _ _ _ _ _ _ _ _ D B f Hf)
      as (o & Ho & Eo & K & _).
    exists o. split; [exact Ho|]. split; [exact Eo|].
    intros e E N. destruct (K e E N) as (d & Hd & _ & Kd).
    exists d. split; assumption.
Defined.

(** Order 1001 is shipped by "Local Pickup"; order 1002 names no method
    and takes the key of the first row. *)
Lemma shipping_key_witness :
  exists facts,
    build_fact_order decimal_casts 1 orders lines (wi_customers inputs)
      (wi_channels inputs) (build_dim_shipping_method [] 1 orders)
    = Ok facts /\
    (forall f, In f facts -> fo_shipping_method_key f <> None) /\
    map fo_shipping_method_key facts = [Some 1; Some 1].
Proof.
  destruct (build_fact_order decimal_casts 1 orders lines
              (wi_customers inputs) (wi_channels inputs)
              (build_dim_shipping_method [] 1 orders))
    as [facts|e] eqn:B; [|exfalso; vm_compute in B; discriminate].
  exists facts. split; [reflexivity|]. split.
  - intros f Hf.
    exact (proj1 (FactExtras.shipping_key_resolved _ _ _ _ _ _ _ _ _ _ B
                    f Hf)).
  - computed B. reflexivity.
Defined.

(** Both orders of the shop come from the web channel; with a channel
    dimension that has two ['web'] rows, an order from the point of sale
    makes the statement fail. *)
Lemma channel_key_witness :
  (exists facts,
     build_fact_order decimal_casts 1 orders lines (wi_customers inputs)
       (wi_channels inputs) (wi_methods inputs) = Ok facts /\
     forall f, In f facts -> fo_channel_key f <> None) /\
  (forall facts,
     build_fact_order decimal_casts 1 pos_orders [] [] doubled_channels []
     <> Ok facts) /\
  build_fact_order decimal_casts 1 pos_orders [] [] doubled_channels []
  = Fault "more than one row returned by a subquery used as an expression".
Proof.
  split; [|split].
  - destruct (build_fact_order decimal_casts 1 orders lines
                (wi_customers inputs) (wi_channels inputs)
                (wi_methods inputs))
      as [facts|e] eqn:B; [|exfalso; vm_compute in B; discriminate].
    exists facts. split; [reflexivity|].
    intros f Hf.
    apply (proj1 (proj1 (FactExtras.channel_key_falls_back_to_web
                           decimal_casts 1 orders lines
                           (wi_customers inputs) (wi_channels inputs)
                           (wi_methods inputs))
                        facts B f Hf)).
    eexists. split; [left; reflexivity | reflexivity].
  - refine (proj2 (FactExtras.channel_key_falls_back_to_web
                     decimal_casts 1 pos_orders [] [] doubled_channels [])
                  _ (or_introl eq_refl) _ _).
    + intros c Hc. vm_compute in Hc.
      repeat (destruct Hc as [<- | Hc]; [vm_compute; discriminate|]).
      destruct Hc.
    + simpl. lia.
  - vm_compute. reflexivity.
Defined.

(** Order 1001 is in the export twice: the earlier row is staged. *)
Lemma staged_orders_witness :
  exists kept,
    dedupe_orders decimal_casts exported_twice = Ok kept /\
    NoDup (map fst kept) /\
    map (fun ko => (fst ko, so_created_at (snd ko))) kept
    = [("1001", Some 1700000000); ("1002", Some 1700000200)].
Proof.
  destruct (dedupe_orders decimal_casts exported_twice) as [kept|e] eqn:B;
    [|exfalso; vm_compute in B; discriminate].
  exists kept. split; [reflexivity|].
  split; [exact (proj1 (StagingExtras.staged_orders_one_per_id _ _ _ B))|].
  computed B. reflexivity.
Defined.

Lemma earliest_created_witness :
  exists kept o o',
    deterministic decimal_casts /\
    dedupe_orders decimal_casts exported_twice = Ok kept /\
    In ("1001", o) kept /\
    stage_order decimal_casts (raw_at "1001" later "Oud 50ml") = Ok o' /\
    so_created_at o = Some 1700000000 /\
    so_created_at o' = Some 1700000100 /\
    created_leb (so_created_at o) (so_created_at o') = true.
Proof.
  destruct (dedupe_orders decimal_casts exported_twice) as [kept|e] eqn:B;
    [|exfalso; vm_compute in B; discriminate].
  destruct (stage_order decimal_casts (raw_at "1001" later "Oud 50ml"))
    as [o'|e] eqn:S; [|exfalso; vm_compute in S; discriminate].
  computed B. eexists. eexists. exists o'.
  split; [exact StagingProps.byte_order_deterministic|].
  split; [reflexivity|]. split; [left; reflexivity|]. split; [reflexivity|].
  split; [reflexivity|].
  split; [pose proof S as S'; vm_compute in S'; injection S' as <-;
          reflexivity|].
  exact (StagingExtras.earliest_created_is_kept _ _ _ _ _
           StagingProps.byte_order_deterministic B
           (or_introl eq_refl) _ o' (or_introl eq_refl) eq_refl S).
Defined.

Ltac apart :=
  let r := fresh in let r' := fresh in let z := fresh in
  let Hr := fresh in let Hr' := fresh in
  let E1 := fresh in let E2 := fresh in
  intros r r' z Hr Hr' E1 E2; vm_compute in Hr, Hr';
  repeat (destruct Hr as [<- | Hr]; [|]); try (destruct Hr);
  repeat (destruct Hr' as [<- | Hr']; [|]); try (destruct Hr');
  vm_compute in E1, E2; solve [reflexivity | congruence].

Lemma exported_twice_apart :
  ids_denote_apart decimal_casts (filter is_line_item exported_twice).
Proof. apart. Qed.

Lemma raw_rows_apart :
  ids_denote_apart decimal_casts (filter is_line_item raw_rows).
Proof. apart. Qed.

(** The three rows of the export are three staged lines. *)
Lemma staged_lines_witness :
  exists t,
    build_stg_order_lines decimal_casts exported_twice = Ok t /\
    List.length t = 3%nat.
Proof.
  destruct (build_stg_order_lines decimal_casts exported_twice)
    as [t|e] eqn:B; [|exfalso; vm_compute in B; discriminate].
  exists t. split; [reflexivity|].
  rewrite (proj2 (StagingExtras.staged_lines_conserve_rows _ _ _ B)).
  vm_compute. reflexivity.
Defined.

(** Order 1001 has lines 1 and 2, order 1002 has line 1. *)
Lemma line_numbers_contiguous_witness :
  exists t,
    build_stg_order_lines decimal_casts exported_twice = Ok t /\
    NoDup (map (fun l => (sl_order_id l, sl_line_number l)) t) /\
    map sl_line_number (filter (fun l => sl_order_id l =? 1001) t) = [1; 2].
Proof.
  destruct (build_stg_order_lines decimal_casts exported_twice)
    as [t|e] eqn:B; [|exfalso; vm_compute in B; discriminate].
  exists t. split; [reflexivity|].
  destruct (StagingExtras.line_numbers_are_contiguous _ _ _ B
              exported_twice_apart) as (H & N).
  split; [exact N|]. rewrite H. computed B. vm_compute. reflexivity.
Defined.

(** In byte order "Oud 50ml" comes before "Rose 50ml", whatever the order
    of the raw rows. *)
Lemma line_numbers_follow_names_witness :
  exists t l1 l2,
    build_stg_order_lines decimal_casts raw_rows = Ok t /\
    In l1 t /\ In l2 t /\
    sl_line_number l1 = 1 /\ sl_line_number l2 = 2 /\
    sl_lineitem_name l1 = "Oud 50ml" /\
    sl_lineitem_name l2 = "Rose 50ml" /\
    text_leb decimal_casts (sl_lineitem_name l1) (sl_lineitem_name l2)
    = true.
Proof.
  destruct (build_stg_order_lines decimal_casts raw_rows)
    as [t|e] eqn:B; [|exfalso; vm_compute in B; discriminate].
  computed B. eexists. eexists. eexists.
  split; [reflexivity|]. split; [left; reflexivity|].
  split; [right; left; reflexivity|].
  split; [reflexivity|]. split; [reflexivity|]. split; [reflexivity|].
  split; [reflexivity|].
  refine (StagingExtras.line_numbers_follow_names _ _ _ _ _
            StagingProps.byte_order_deterministic B raw_rows_apart
            (or_introl eq_refl) (or_intror (or_introl eq_refl)) eq_refl _).
  vm_compute. reflexivity.
Defined.

(** The customer rows of the two orders of the shop. *)
Lemma customer_lifetime_witness :
  exists dim,
    build_dim_customer decimal_casts 1 orders [] = Ok dim /\
    map dc_total_orders dim = [1; 1] /\
    forall d, In d dim ->
      exists e e',
        customer_id_hash decimal_casts e = Ok (dc_customer_id_hash d) /\
        lower e' = lower e /\
        dc_total_orders d
        = count_distinct
            (map so_order_id
                 (filter (fun o => option_string_eqb (so_email o) (Some e'))
                         orders)).
Proof.
  destruct (build_dim_customer decimal_casts 1 orders []) as [dim|e] eqn:D;
    [|exfalso; vm_compute in D; discriminate].
  exists dim. split; [reflexivity|]. split.
  - computed D. vm_compute. reflexivity.
  - intros d Hd.
    destruct (DimensionExtras.customer_lifetime_stats _ _ _ _ _ D d Hd)
      as (e & e' & _ & _ & Hh & L & G).
    cbv zeta in G. destruct G as (_ & G & _).
    exists e, e'. split; [exact Hh|]. split; [exact L|]. exact G.
Defined.

(** A schema file of two statements, the second with a semicolon in a
    string literal. *)
Lemma statements_witness :
  In "SELECT 1" (Runner.statements_of " SELECT 1 ; SELECT ';' ") /\
  Py.strip "SELECT 1" = "SELECT 1" /\
  Runner.statements_of " SELECT 1 ; SELECT ';' "
  = ["SELECT 1"; "SELECT '"; "'"].
Proof.
  assert (H : In "SELECT 1" (Runner.statements_of " SELECT 1 ; SELECT ';' ")).
  { vm_compute. left. reflexivity. }
  split; [exact H|]. split; [|vm_compute; reflexivity].
  exact (proj1 (proj2 (PyExtras.statements_are_stripped_pieces _ _ H))).
Defined.

(** Two comment lines change neither the database nor the log. *)
Lemma comment_statements_witness :
  let stmt := ("-- schema" ++ String "010" "  -- tables")%string in
  Runner.init_statement log_conn stmt empty_world
  = (Runner.Returns tt, empty_world).
Proof.
  refine (proj1 (RunnerExtras.comment_statements_are_skipped
                   _ log_conn _ empty_world _)).
  intros l H. vm_compute in H.
  destruct H as [<- | [<- | []]]; right; vm_compute; reflexivity.
Defined.

(** The padded, capitalised email of Ann has the digest of her email. *)
Lemma hash_email_witness :
  hash_email "ann@example.com" = hash_email padded_email.
Proof.
  refine (proj1 (PyExtras.hash_email_normalizes padded_email) _).
  vm_compute. discriminate.
Defined.

(** The Meta ads statement fails: it is rolled back and logged, and the
    staging build returns. *)
Lemma optional_sources_witness :
  Runner.execute_commit log_conn [] "CREATE TABL t"
  = inr "syntax error at or near TABL" /\
  StagingRun.meta_ads_part log_conn ads_columns staging_statements empty_world
  = (Runner.Returns tt,
     {| Runner.w_db := [];
        Runner.w_log :=
          [(Runner.WARNING,
            "Could not build stg_meta_ads: syntax error at or near TABL")]
     |}) /\
  forall e,
    fst (StagingRun.build_staging_tables log_conn ads_columns
           staging_statements empty_world) <> Runner.Raises e.
Proof.
  pose proof (RunnerExtras.optional_sources_are_tolerated
                (list string) log_conn ads_columns staging_statements
                empty_world) as (R & _ & _ & M).
  split; [reflexivity|]. split.
  - exact (M "syntax error at or near TABL"
             ["date_start"; "campaign_name"; "spend"] empty_world
             eq_refl eq_refl eq_refl).
  - intros e H. apply R in H. vm_compute in H. discriminate H.
Defined.

End ExtraExamples.
